(** * ZooEQ: a shallow embedding of the equaliser plug-in

    The processor ([PluginProcessor.cpp]) and the editor's analyser and
    response curve ([PluginEditor.h], [PluginEditor.cpp]) are embedded as
    Rocq functions over explicit state records.

    The C++ code computes on [float] and [double] and calls into JUCE.  The
    embedding is generic in the number type: [Arith] lists the arithmetic the
    code itself performs, [IIRLib], [FFTLib] and [StateLib] list the JUCE
    routines it calls.  Every theorem holds for any implementation of these
    interfaces; [RealModel] implements them over the real numbers and is used
    for the concrete runs. *)

From Stdlib Require Import Reals Lra ZArith List String Bool Lia Sorted.
From stdpp Require Import base list gmap.
Import ListNotations.

Open Scope Z_scope.

(** ** The arithmetic of the C++ code *)

Class Arith (F : Type) := {
  of_Z : Z -> F;              (* integral literals and int -> float conversions *)
  add : F -> F -> F;
  sub : F -> F -> F;
  mul : F -> F -> F;
  div : F -> F -> F;
  ltb : F -> F -> bool;       (* operator< *)
  log10 : F -> F;             (* std::log10 *)
  pow : F -> F -> F;          (* std::pow *)
  floorZ : F -> Z;            (* static_cast<int>(std::floor(x)) *)
  truncZ : F -> Z;            (* static_cast<int>(x) *)
  isnan : F -> bool;          (* std::isnan *)
  isinf : F -> bool           (* std::isinf *)
}.

Declare Scope fl_scope.
Delimit Scope fl_scope with fl.
Infix "+" := add : fl_scope.
Infix "-" := sub : fl_scope.
Infix "*" := mul : fl_scope.
Infix "/" := div : fl_scope.

Section Numbers.
Context {F : Type} `{Arith F}.

Definition zero : F := of_Z 0.
Definition one : F := of_Z 1.

(** [juce::jmax (a, b)]: [a < b ? b : a]. *)
Definition jmax (a b : F) : F := if ltb a b then b else a.

(** [juce::jmap (v, sMin, sMax, tMin, tMax)]: the affine map that sends
    the source range onto the target range. *)
Definition jmap (v sMin sMax tMin tMax : F) : F :=
  (tMin + ((tMax - tMin) * (v - sMin)) / (sMax - sMin))%fl.

(** [juce::mapToLog10 (value0To1, logRangeMin, logRangeMax)]. *)
Definition mapToLog10 (value0To1 logRangeMin logRangeMax : F) : F :=
  let logMin := log10 logRangeMin in
  let logMax := log10 logRangeMax in
  pow (of_Z 10) (value0To1 * (logMax - logMin) + logMin)%fl.

(** [juce::mapFromLog10 (valueInLogRange, logRangeMin, logRangeMax)]. *)
Definition mapFromLog10 (valueInLogRange logRangeMin logRangeMax : F) : F :=
  let logMin := log10 logRangeMin in
  let logMax := log10 logRangeMax in
  ((log10 valueInLogRange - logMin) / (logMax - logMin))%fl.

(** [juce::Decibels::gainToDecibels (gain, minusInfinityDb)]; the one
    argument form uses [defaultMinusInfinitydB], -100. *)
Definition gainToDecibels (gain minusInfinityDb : F) : F :=
  if ltb zero gain
  then jmax minusInfinityDb (log10 gain * of_Z 20)%fl
  else minusInfinityDb.

Definition defaultMinusInfinitydB : F := of_Z (-100).

(** [juce::Decibels::decibelsToGain (decibels)]. *)
Definition decibelsToGain (decibels : F) : F :=
  if ltb defaultMinusInfinitydB decibels
  then pow (of_Z 10) (decibels * (of_Z 5 / of_Z 100))%fl
  else zero.
End Numbers.

(** ** Filters and chains

    [Coefficients] is the coefficient array of a
    [juce::dsp::IIR::Coefficients<float>]; a [Filter] is a
    [juce::dsp::IIR::Filter<float>]: the coefficients it points to and its
    delay registers. *)

Abbreviation Coefficients F := (list F) (only parsing).

Section Chains.
Context {F : Type}.

Record Filter := mkFilter {
  coefficients : list F;
  state : list F
}.

(** [CutFilter = ProcessorChain<Filter, Filter, Filter, Filter>], with the
    chain's bypass flag of each element. *)
Record CutFilter := mkCutFilter {
  cut0 : Filter; cut1 : Filter; cut2 : Filter; cut3 : Filter;
  cutBypassed0 : bool; cutBypassed1 : bool;
  cutBypassed2 : bool; cutBypassed3 : bool
}.

(** [MonoChain = ProcessorChain<CutFilter, Filter, CutFilter>], indexed by
    [ChainPositions { LowCut, Peak, HighCut }]. *)
Record MonoChain := mkMonoChain {
  LowCut : CutFilter;
  Peak : Filter;
  HighCut : CutFilter;
  bypassedLowCut : bool;
  bypassedPeak : bool;
  bypassedHighCut : bool
}.

(** [Slope] is an enumeration; [static_cast<Slope>] of the choice
    parameter leaves its integer value, 0 for 12 dB/Oct up to 3 for
    48 dB/Oct. *)
Definition Slope := Z.

Record ChainSettings := mkChainSettings {
  peakFreq : F;
  peakGainInDecibels : F;
  peakQuality : F;
  lowCutFreq : F;
  highCutFreq : F;
  lowCutSlope : Slope;
  highCutSlope : Slope;
  lowCutBypassed : bool;
  peakBypassed : bool;
  highCutBypassed : bool
}.

(** The sections of a cut filter in chain order, each with its flag. *)
Definition cutSections (c : CutFilter) : list (bool * Filter) :=
  [ (cutBypassed0 c, cut0 c); (cutBypassed1 c, cut1 c);
    (cutBypassed2 c, cut2 c); (cutBypassed3 c, cut3 c) ].

(** The nine filters of a chain in processing order. *)
Definition chainFilters (m : MonoChain) : list Filter :=
  [ cut0 (LowCut m); cut1 (LowCut m); cut2 (LowCut m); cut3 (LowCut m);
    Peak m;
    cut0 (HighCut m); cut1 (HighCut m); cut2 (HighCut m); cut3 (HighCut m) ].

(** The delay registers of the nine filters. *)
Definition chainStates (m : MonoChain) : list (list F) :=
  map state (chainFilters m).

(** The coefficient arrays of the nine filters. *)
Definition chainCoefficients (m : MonoChain) : list (Coefficients F) :=
  map coefficients (chainFilters m).
End Chains.

Arguments Filter : clear implicits.
Arguments CutFilter : clear implicits.
Arguments MonoChain : clear implicits.
Arguments ChainSettings : clear implicits.

(** ** The JUCE routines the code calls *)

(** [juce::dsp::IIR] and the filter designs. *)
Class IIRLib (F : Type) := {
  (* juce::dsp::IIR::Coefficients<float>::makePeakFilter
       (sampleRate, frequency, Q, gainFactor) *)
  juce_makePeakFilter : F -> F -> F -> F -> Coefficients F;
  (* makeLowCutFilter and makeHighCutFilter of PluginProcessor.h, which is
     not among the sources: the coefficient arrays of the Butterworth
     design for the settings and the sample rate *)
  makeLowCutFilter : ChainSettings F -> F -> list (Coefficients F);
  makeHighCutFilter : ChainSettings F -> F -> list (Coefficients F);
  (* Coefficients::getMagnitudeForFrequency (frequency, sampleRate) *)
  getMagnitudeForFrequency : Coefficients F -> F -> F -> F;
  (* IIR::Filter::process on one channel: from the coefficients, the
     context's isBypassed flag, the delay registers and the block, the new
     delay registers and the block written back *)
  iirProcess : Coefficients F -> bool -> list F -> list F -> list F * list F
}.

(** [juce::dsp::FFT] and [juce::dsp::WindowingFunction]. *)
Class FFTLib (F : Type) := {
  (* the windowing table of the given size (blackmanHarris) *)
  windowTable : nat -> nat -> F;
  (* FFT::performFrequencyOnlyForwardTransform: the value it leaves at
     index i of the array it is given, for a transform of the given order *)
  fftMagnitude : nat -> list F -> nat -> F
}.

(** [juce::ValueTree] and [juce::AudioProcessorValueTreeState]. *)
Class StateLib (F : Type) := {
  ValueTree : Type;
  APVTS : Type;
  readFromData : list Byte.byte -> ValueTree;   (* ValueTree::readFromData *)
  isValid : ValueTree -> bool;                  (* ValueTree::isValid *)
  replaceState : ValueTree -> APVTS -> APVTS;   (* apvts.replaceState *)
  (* apvts.getRawParameterValue (id)->load () *)
  getRawParameterValue : APVTS -> string -> F
}.

(** ** Queues *)

Section Queues.
Context {T : Type}.

(** Modelled from the spec: [Fifo<T>] is declared in PluginProcessor.h,
    which is not among the sources.  A queue of fixed capacity: [push]
    copies the item into the next write slot and returns [true], or
    returns [false] and drops the item when the queue is full, the older
    items being preserved; [pull] hands out the oldest unread item and
    advances the read cursor, or reports that none is available.  The
    slots between the read and the write cursor are kept as the list of
    unread items, oldest first. *)
Record Fifo := mkFifo {
  capacity : nat;
  unread : list T
}.

Definition Fifo_prepare (n : nat) : Fifo := mkFifo n [].

Definition getNumAvailableForReading (q : Fifo) : nat := length (unread q).

Definition push (t : T) (q : Fifo) : bool * Fifo :=
  if (length (unread q) <? capacity q)%nat
  then (true, mkFifo (capacity q) (unread q ++ [t]))
  else (false, q).

(** Pushing a run of items one after the other. *)
Definition pushAll (ts : list T) (q : Fifo) : Fifo :=
  fold_left (fun q t => snd (push t q)) ts q.

Definition pull (q : Fifo) : option T * Fifo :=
  match unread q with
  | [] => (None, q)
  | t :: rest => (Some t, mkFifo (capacity q) rest)
  end.
End Queues.

Arguments Fifo : clear implicits.

(** [juce::AudioBuffer<float>]: the channels, each a block of samples. *)
Abbreviation AudioBuffer F := (list (list F)) (only parsing).

Section Processor.
Context {F : Type} `{Arith F} `{IIRLib F} `{StateLib F}.

(** Modelled from the spec: [SingleChannelSampleFifo] is declared in
    PluginProcessor.h, which is not among the sources.  The collector of
    one channel: [update] copies that channel's block of the processed
    buffer into its queue with a non-blocking push, and the analyser
    asks how many complete buffers wait and pulls them one by one.
    Reading a channel the buffer does not have is an error. *)
Record SingleChannelSampleFifo := mkSCSF {
  channelToUse : nat;
  audioBufferFifo : Fifo (list F)
}.

Definition SCSF_update (buffer : AudioBuffer F) (q : SingleChannelSampleFifo)
  : option SingleChannelSampleFifo :=
  match buffer !! channelToUse q with
  | Some samples =>
      Some (mkSCSF (channelToUse q) (snd (push samples (audioBufferFifo q))))
  | None => None
  end.

Definition getNumCompleteBuffersAvailable (q : SingleChannelSampleFifo) : nat :=
  getNumAvailableForReading (audioBufferFifo q).

Definition getAudioBuffer (q : SingleChannelSampleFifo)
  : option (list F) * SingleChannelSampleFifo :=
  let '(r, fifo) := pull (audioBufferFifo q) in (r, mkSCSF (channelToUse q) fifo).

(** *** PluginProcessor.cpp *)

Record ZooEQAudioProcessor := mkProcessor {
  apvts : APVTS;
  sampleRate : F;                       (* getSampleRate () *)
  totalNumInputChannels : nat;
  totalNumOutputChannels : nat;
  leftChain : MonoChain F;
  rightChain : MonoChain F;
  leftChannelFifo : SingleChannelSampleFifo;
  rightChannelFifo : SingleChannelSampleFifo
}.

Definition set_apvts (a : APVTS) (p : ZooEQAudioProcessor) :=
  mkProcessor a (sampleRate p) (totalNumInputChannels p)
    (totalNumOutputChannels p) (leftChain p) (rightChain p)
    (leftChannelFifo p) (rightChannelFifo p).

Definition set_chains (l r : MonoChain F) (p : ZooEQAudioProcessor) :=
  mkProcessor (apvts p) (sampleRate p) (totalNumInputChannels p)
    (totalNumOutputChannels p) l r (leftChannelFifo p) (rightChannelFifo p).

Definition set_fifos (l r : SingleChannelSampleFifo) (p : ZooEQAudioProcessor) :=
  mkProcessor (apvts p) (sampleRate p) (totalNumInputChannels p)
    (totalNumOutputChannels p) (leftChain p) (rightChain p) l r.

(** [ProcessorChain::setBypassed<Index>] and the writes through
    [get<Index> ()] on a [MonoChain]. *)
Definition setBypassed_LowCut (b : bool) (m : MonoChain F) :=
  mkMonoChain (LowCut m) (Peak m) (HighCut m) b (bypassedPeak m) (bypassedHighCut m).
Definition setBypassed_Peak (b : bool) (m : MonoChain F) :=
  mkMonoChain (LowCut m) (Peak m) (HighCut m) (bypassedLowCut m) b (bypassedHighCut m).
Definition setBypassed_HighCut (b : bool) (m : MonoChain F) :=
  mkMonoChain (LowCut m) (Peak m) (HighCut m) (bypassedLowCut m) (bypassedPeak m) b.
Definition set_LowCut (c : CutFilter F) (m : MonoChain F) :=
  mkMonoChain c (Peak m) (HighCut m) (bypassedLowCut m) (bypassedPeak m) (bypassedHighCut m).
Definition set_Peak (f : Filter F) (m : MonoChain F) :=
  mkMonoChain (LowCut m) f (HighCut m) (bypassedLowCut m) (bypassedPeak m) (bypassedHighCut m).
Definition set_HighCut (c : CutFilter F) (m : MonoChain F) :=
  mkMonoChain (LowCut m) (Peak m) c (bypassedLowCut m) (bypassedPeak m) (bypassedHighCut m).

(** The literal [0.5f]. *)
Definition half : F := (of_Z 1 / of_Z 2)%fl.

Definition getChainSettings (a : APVTS) : ChainSettings F :=
  {| lowCutFreq := getRawParameterValue a "LowCut Freq"%string;
     highCutFreq := getRawParameterValue a "HighCut Freq"%string;
     peakFreq := getRawParameterValue a "Peak Freq"%string;
     peakGainInDecibels := getRawParameterValue a "Peak Gain"%string;
     peakQuality := getRawParameterValue a "Peak Quality"%string;
     lowCutSlope := truncZ (getRawParameterValue a "LowCut Slope"%string);
     highCutSlope := truncZ (getRawParameterValue a "HighCut Slope"%string);
     lowCutBypassed := ltb half (getRawParameterValue a "LowCut Bypassed"%string);
     peakBypassed := ltb half (getRawParameterValue a "Peak Bypassed"%string);
     highCutBypassed := ltb half (getRawParameterValue a "HighCut Bypassed"%string) |}.

Definition makePeakFilter (chainSettings : ChainSettings F) (sampleRate : F)
  : Coefficients F :=
  juce_makePeakFilter sampleRate (peakFreq chainSettings)
    (peakQuality chainSettings)
    (decibelsToGain (peakGainInDecibels chainSettings)).

(** [updateCoefficients (old, replacements)]: [*old = *replacements]
    assigns the coefficient object the filter points to. *)
Definition updateCoefficients (old : Filter F) (replacements : Coefficients F)
  : Filter F :=
  mkFilter replacements (state old).

Definition updatePeakFilter (chainSettings : ChainSettings F)
    (p : ZooEQAudioProcessor) : ZooEQAudioProcessor :=
  let l := setBypassed_Peak (peakBypassed chainSettings) (leftChain p) in
  let r := setBypassed_Peak (peakBypassed chainSettings) (rightChain p) in
  let peakCoefficients := makePeakFilter chainSettings (sampleRate p) in
  let l := set_Peak (updateCoefficients (Peak l) peakCoefficients) l in
  let r := set_Peak (updateCoefficients (Peak r) peakCoefficients) r in
  set_chains l r p.

(** Modelled from the spec: [updateCutFilter] is defined in
    PluginProcessor.h, which is not among the sources.  The order of the
    band, the slope's value plus one, is the number of its sections that
    are active: section [i] below the order takes the [i]-th coefficient
    array of the design and is not bypassed, and the sections beyond the
    order are bypassed.  A section the design has no array for keeps its
    coefficients. *)
Definition sectionActive (slope : Slope) (i : nat) : bool :=
  Z.of_nat i <? slope + 1.

Definition updateSection (coeffs : list (Coefficients F)) (slope : Slope)
    (i : nat) (f : Filter F) : Filter F :=
  if sectionActive slope i
  then match coeffs !! i with
       | Some c => updateCoefficients f c
       | None => f
       end
  else f.

Definition updateCutFilter (chain : CutFilter F)
    (coeffs : list (Coefficients F)) (slope : Slope) : CutFilter F :=
  {| cut0 := updateSection coeffs slope 0 (cut0 chain);
     cut1 := updateSection coeffs slope 1 (cut1 chain);
     cut2 := updateSection coeffs slope 2 (cut2 chain);
     cut3 := updateSection coeffs slope 3 (cut3 chain);
     cutBypassed0 := negb (sectionActive slope 0);
     cutBypassed1 := negb (sectionActive slope 1);
     cutBypassed2 := negb (sectionActive slope 2);
     cutBypassed3 := negb (sectionActive slope 3) |}.

Definition updateLowCutFilters (chainSettings : ChainSettings F)
    (p : ZooEQAudioProcessor) : ZooEQAudioProcessor :=
  let l := setBypassed_LowCut (lowCutBypassed chainSettings) (leftChain p) in
  let r := setBypassed_LowCut (lowCutBypassed chainSettings) (rightChain p) in
  let lowCutCoefficients := makeLowCutFilter chainSettings (sampleRate p) in
  let l := set_LowCut (updateCutFilter (LowCut l) lowCutCoefficients
                         (lowCutSlope chainSettings)) l in
  let r := set_LowCut (updateCutFilter (LowCut r) lowCutCoefficients
                         (lowCutSlope chainSettings)) r in
  set_chains l r p.

Definition updateHighCutFilter (chainSettings : ChainSettings F)
    (p : ZooEQAudioProcessor) : ZooEQAudioProcessor :=
  let l := setBypassed_HighCut (highCutBypassed chainSettings) (leftChain p) in
  let r := setBypassed_HighCut (highCutBypassed chainSettings) (rightChain p) in
  let highCutCoefficients := makeHighCutFilter chainSettings (sampleRate p) in
  let l := set_HighCut (updateCutFilter (HighCut l) highCutCoefficients
                          (highCutSlope chainSettings)) l in
  let r := set_HighCut (updateCutFilter (HighCut r) highCutCoefficients
                          (highCutSlope chainSettings)) r in
  set_chains l r p.

Definition updateFilters (p : ZooEQAudioProcessor) : ZooEQAudioProcessor :=
  let chainSettigns := getChainSettings (apvts p) in
  let p := updateLowCutFilters chainSettigns p in
  let p := updatePeakFilter chainSettigns p in
  updateHighCutFilter chainSettigns p.

(** The chain derived from the settings: what the three updates of
    [updateFilters] leave in a chain, given the chain before. *)
Definition updatedChain (settings : ChainSettings F) (rate : F)
    (m : MonoChain F) : MonoChain F :=
  mkMonoChain
    (updateCutFilter (LowCut m) (makeLowCutFilter settings rate) (lowCutSlope settings))
    (updateCoefficients (Peak m) (makePeakFilter settings rate))
    (updateCutFilter (HighCut m) (makeHighCutFilter settings rate) (highCutSlope settings))
    (lowCutBypassed settings) (peakBypassed settings) (highCutBypassed settings).

(** [ProcessorChain::process]: every element processes the block in
    turn, its context bypassed when the element's flag or the incoming
    context's flag is set. *)
Definition Filter_process (isBypassed : bool) (f : Filter F) (block : list F)
  : Filter F * list F :=
  let '(st, out) := iirProcess (coefficients f) isBypassed (state f) block in
  (mkFilter (coefficients f) st, out).

Definition CutFilter_process (isBypassed : bool) (c : CutFilter F)
    (block : list F) : CutFilter F * list F :=
  let '(f0, block) := Filter_process (cutBypassed0 c || isBypassed) (cut0 c) block in
  let '(f1, block) := Filter_process (cutBypassed1 c || isBypassed) (cut1 c) block in
  let '(f2, block) := Filter_process (cutBypassed2 c || isBypassed) (cut2 c) block in
  let '(f3, block) := Filter_process (cutBypassed3 c || isBypassed) (cut3 c) block in
  (mkCutFilter f0 f1 f2 f3 (cutBypassed0 c) (cutBypassed1 c)
     (cutBypassed2 c) (cutBypassed3 c), block).

Definition MonoChain_process (m : MonoChain F) (block : list F)
  : MonoChain F * list F :=
  let '(lc, block) := CutFilter_process (bypassedLowCut m) (LowCut m) block in
  let '(pk, block) := Filter_process (bypassedPeak m) (Peak m) block in
  let '(hc, block) := CutFilter_process (bypassedHighCut m) (HighCut m) block in
  (mkMonoChain lc pk hc (bypassedLowCut m) (bypassedPeak m) (bypassedHighCut m),
   block).

(** [buffer.clear (i, 0, buffer.getNumSamples ())]. *)
Definition clearChannel (i : nat) (buffer : AudioBuffer F) : option (AudioBuffer F) :=
  match buffer !! i with
  | Some samples => Some (<[i := replicate (length samples) zero]> buffer)
  | None => None
  end.

(** [for (i = from; i < from + count; ++i) buffer.clear (i, ...)]. *)
Fixpoint clearChannels (count : nat) (i : nat) (buffer : AudioBuffer F)
  : option (AudioBuffer F) :=
  match count with
  | O => Some buffer
  | S count' =>
      match clearChannel i buffer with
      | Some buffer' => clearChannels count' (S i) buffer'
      | None => None
      end
  end.

(** [processBlock]: [None] stands for an access to a channel the buffer
    does not have. *)
Definition processBlock (p : ZooEQAudioProcessor) (buffer : AudioBuffer F)
  : option (ZooEQAudioProcessor * AudioBuffer F) :=
  match clearChannels (totalNumOutputChannels p - totalNumInputChannels p)
          (totalNumInputChannels p) buffer with
  | None => None
  | Some buffer =>
      let p := updateFilters p in
      match buffer !! 0%nat, buffer !! 1%nat with
      | Some leftBlock, Some rightBlock =>
          let '(l, leftOut) := MonoChain_process (leftChain p) leftBlock in
          let '(r, rightOut) := MonoChain_process (rightChain p) rightBlock in
          let buffer := <[1%nat := rightOut]> (<[0%nat := leftOut]> buffer) in
          let p := set_chains l r p in
          match SCSF_update buffer (leftChannelFifo p),
                SCSF_update buffer (rightChannelFifo p) with
          | Some lf, Some rf => Some (set_fifos lf rf p, buffer)
          | _, _ => None
          end
      | _, _ => None
      end
  end.

(** [setStateInformation (data, sizeInBytes)]. *)
Definition setStateInformation (data : list Byte.byte)
    (p : ZooEQAudioProcessor) : ZooEQAudioProcessor :=
  let tree := readFromData data in
  if isValid tree
  then updateFilters (set_apvts (replaceState tree (apvts p)) p)
  else p.
End Processor.

Arguments SingleChannelSampleFifo : clear implicits.
Arguments ZooEQAudioProcessor F {_}.

(** *** Bus layouts *)

(** [juce::AudioChannelSet]: the set of channel types, by their codes
    ([left] = 1, [right] = 2, [centre] = 3). *)
Definition AudioChannelSet := gset nat.
Definition AudioChannelSet_mono : AudioChannelSet := {[ 3%nat ]}.
Definition AudioChannelSet_stereo : AudioChannelSet := {[ 1%nat; 2%nat ]}.
Definition AudioChannelSet_size (s : AudioChannelSet) : nat := size s.

Record BusesLayout := mkBusesLayout {
  getMainInputChannelSet : AudioChannelSet;
  getMainOutputChannelSet : AudioChannelSet
}.

(** [isBusesLayoutSupported]; the two macros of the build are parameters. *)
Definition isBusesLayoutSupported (JucePlugin_IsMidiEffect JucePlugin_IsSynth : bool)
    (layouts : BusesLayout) : bool :=
  if JucePlugin_IsMidiEffect then true
  else
    if bool_decide (getMainOutputChannelSet layouts <> AudioChannelSet_mono)
       && bool_decide (getMainOutputChannelSet layouts <> AudioChannelSet_stereo)
    then false
    else
      if negb JucePlugin_IsSynth
         && bool_decide (getMainOutputChannelSet layouts <> getMainInputChannelSet layouts)
      then false
      else true.

(** ** The editor: analyser paths and the response curve *)

(** [juce::Rectangle<ValueType>]. *)
Record Rectangle (A : Type) := mkRectangle {
  getX : A; getY : A; getWidth : A; getHeight : A
}.
Arguments mkRectangle {A}.
Arguments getX {A}.
Arguments getY {A}.
Arguments getWidth {A}.
Arguments getHeight {A}.

Definition getBottom (r : Rectangle Z) : Z := getY r + getHeight r.
Definition getRight (r : Rectangle Z) : Z := getX r + getWidth r.

(** [Rectangle<int>::removeFromTop] and its siblings, as they leave the
    rectangle they are called on. *)
Definition removeFromTop (amount : Z) (r : Rectangle Z) : Rectangle Z :=
  let a := Z.min amount (getHeight r) in
  mkRectangle (getX r) (getY r + a) (getWidth r) (getHeight r - a).
Definition removeFromBottom (amount : Z) (r : Rectangle Z) : Rectangle Z :=
  let a := Z.min amount (getHeight r) in
  mkRectangle (getX r) (getY r) (getWidth r) (getHeight r - a).
Definition removeFromLeft (amount : Z) (r : Rectangle Z) : Rectangle Z :=
  let a := Z.min amount (getWidth r) in
  mkRectangle (getX r + a) (getY r) (getWidth r - a) (getHeight r).
Definition removeFromRight (amount : Z) (r : Rectangle Z) : Rectangle Z :=
  let a := Z.min amount (getWidth r) in
  mkRectangle (getX r) (getY r) (getWidth r - a) (getHeight r).

Inductive FFTOrder := order2048 | order4096 | order8192.

Definition FFTOrder_value (o : FFTOrder) : Z :=
  match o with order2048 => 11 | order4096 => 12 | order8192 => 13 end.

Inductive Colour :=
  responseCurveColor | backgroundOutlineColor | backgroundColor
| fftLeftColor | fftRightColor.

Section Editor.
Context {F : Type} `{Arith F} `{IIRLib F} `{FFTLib F} `{StateLib F}.

(** [juce::Path]: the elements added to it, in order. *)
Inductive PathElement :=
| StartNewSubPath (x y : F)
| LineTo (x y : F).

Local Abbreviation Path := (list PathElement) (only parsing).


(** [Path::applyTransform (AffineTransform ().translation (dx, dy))]. *)
Definition translateElement (dx dy : F) (e : PathElement) : PathElement :=
  match e with
  | StartNewSubPath x y => StartNewSubPath (x + dx)%fl (y + dy)%fl
  | LineTo x y => LineTo (x + dx)%fl (y + dy)%fl
  end.

Definition applyTranslation (dx dy : F) (p : Path) : Path :=
  map (translateElement dx dy) p.

Definition toFloat (r : Rectangle Z) : Rectangle F :=
  mkRectangle (of_Z (getX r)) (of_Z (getY r))
    (of_Z (getWidth r)) (of_Z (getHeight r)).

(** *** FFTDataGenerator (PluginEditor.h) *)

Record FFTDataGenerator := mkFFTDataGenerator {
  order : FFTOrder;
  fftData : list F;
  fftDataFifo : Fifo (list F)
}.

(** [1 << order]. *)
Definition getFFTSize (g : FFTDataGenerator) : Z :=
  Z.shiftl 1 (FFTOrder_value (order g)).

Definition getNumAvailableFFTDataBlocks (g : FFTDataGenerator) : nat :=
  getNumAvailableForReading (fftDataFifo g).

Definition getFFTData (g : FFTDataGenerator) : option (list F) * FFTDataGenerator :=
  let '(r, q) := pull (fftDataFifo g) in
  (r, mkFFTDataGenerator (order g) (fftData g) q).

(** [std::copy (src, src + n, dst.begin ())]. *)
Definition std_copy (src : list F) (n : nat) (dst : list F) : list F :=
  take n src ++ drop n dst.

(** [WindowingFunction::multiplyWithWindowingTable (samples, size)] of a
    window built for [tableSize] samples: the first [size] samples are
    multiplied by the table, in place. *)
Definition multiplyWithWindowingTable (tableSize : nat) (samples : list F)
    (size : nat) : list F :=
  imap (fun i x => if (i <? size)%nat then (x * windowTable tableSize i)%fl else x)
    samples.

(** [FFT::performFrequencyOnlyForwardTransform (data)], in place. *)
Definition performFrequencyOnlyForwardTransform (o : FFTOrder)
    (data : list F) : list F :=
  imap (fun i _ => fftMagnitude (Z.to_nat (FFTOrder_value o)) data i) data.

(** [for (int i = 0; i < n; ++i) v[i] = f (v[i]);] *)
Definition forEachBin (n : nat) (f : F -> F) (v : list F) : list F :=
  fold_left (fun v i => alter f i v) (seq 0 n) v.

Definition changeOrder (newOrder : FFTOrder) (g : FFTDataGenerator)
  : FFTDataGenerator :=
  let fftSize := Z.shiftl 1 (FFTOrder_value newOrder) in
  let data := replicate (Z.to_nat (fftSize * 2)) zero in
  mkFFTDataGenerator newOrder data (Fifo_prepare (length data)).

(** [produceFFTDataForRendering (audioData, negativeInfinity)];
    [readIndex] is channel 0 of [audioData]. *)
Definition produceFFTDataForRendering (readIndex : list F)
    (negativeInfinity : F) (g : FFTDataGenerator) : FFTDataGenerator :=
  let fftSize := getFFTSize g in
  let data := replicate (length (fftData g)) zero in
  let data := std_copy readIndex (Z.to_nat fftSize) data in
  let data := multiplyWithWindowingTable (Z.to_nat fftSize) data (Z.to_nat fftSize) in
  let data := performFrequencyOnlyForwardTransform (order g) data in
  let numBins := Z.quot fftSize 2 in
  let data := forEachBin (Z.to_nat numBins) (fun x => x / of_Z numBins)%fl data in
  let data := forEachBin (Z.to_nat numBins)
                (fun x => gainToDecibels x negativeInfinity) data in
  mkFFTDataGenerator (order g) data (snd (push data (fftDataFifo g))).

(** *** AnalyserPathGenerator (PluginEditor.h) *)

Record AnalyserPathGenerator := mkAnalyserPathGenerator {
  pathFifo : Fifo Path
}.

(** [renderData[i]]; reading past the end of the vector is outside the
    defined behaviour of the code and reads [zero] here. *)
Definition at_index (renderData : list F) (i : Z) : F :=
  default zero (renderData !! Z.to_nat i).

(** [!std::isnan (y) && !std::isinf (y)]. *)
Definition isFinite (y : F) : bool := negb (isnan y) && negb (isinf y).

(** The body of the loop of [generatePath] for one bin.  The [jassert]
    before the test compiles to nothing in a release build and does not
    change the control flow in a debug build. *)
Definition generatePath_bin (renderData : list F) (fftBounds : Rectangle F)
    (binWidth negativeInfinity : F) (binNum : Z) (p : Path) : Path :=
  let top := getY fftBounds in
  let bottom := getHeight fftBounds in
  let width := getWidth fftBounds in
  let y := jmap (at_index renderData binNum) negativeInfinity zero bottom top in
  if isFinite y
  then
    let binFreq := (of_Z binNum * binWidth)%fl in
    let normalizedBinX := mapFromLog10 binFreq (of_Z 20) (of_Z 20000) in
    let binX := floorZ (normalizedBinX * width)%fl in
    p ++ [LineTo (of_Z binX) y]
  else p.

(** [for (int binNum = ...; binNum < numBins; binNum += pathResolution)]. *)
Fixpoint generatePath_loop (fuel : nat) (renderData : list F)
    (fftBounds : Rectangle F) (binWidth negativeInfinity : F)
    (numBins binNum : Z) (p : Path) : Path :=
  match fuel with
  | O => p
  | S fuel' =>
      if binNum <? numBins
      then generatePath_loop fuel' renderData fftBounds binWidth
             negativeInfinity numBins (binNum + 2)
             (generatePath_bin renderData fftBounds binWidth
                negativeInfinity binNum p)
      else p
  end.

(** The path [generatePath] builds before it queues it. *)
Definition generatedPath (renderData : list F) (fftBounds : Rectangle F)
    (fftSize : Z) (binWidth negativeInfinity : F) : Path :=
  let top := getY fftBounds in
  let bottom := getHeight fftBounds in
  let numBins := Z.quot fftSize 2 in
  let y := jmap (at_index renderData 0) negativeInfinity zero bottom top in
  let p := [StartNewSubPath zero y] in
  generatePath_loop (Z.to_nat numBins) renderData fftBounds binWidth
    negativeInfinity numBins 1 p.

(** The bins the loop of [generatePath] visits: 1, 3, 5, ... below
    [numBins]. *)
Definition visitedBins (numBins : Z) : list Z :=
  map (fun k => 2 * Z.of_nat k + 1) (seq 0 (Z.to_nat (numBins / 2))).

(** [count] bins from [b], two apart. *)
Fixpoint binsFrom (count : nat) (b : Z) : list Z :=
  match count with
  | O => []
  | S count' => b :: binsFrom count' (b + 2)
  end.

(** The point of a visited bin, if its ordinate is finite. *)
Definition binPoint (renderData : list F) (fftBounds : Rectangle F)
    (binWidth negativeInfinity : F) (binNum : Z) : option PathElement :=
  let y := jmap (at_index renderData binNum) negativeInfinity zero
             (getHeight fftBounds) (getY fftBounds) in
  if isFinite y
  then Some (LineTo
               (of_Z (floorZ (mapFromLog10 (of_Z binNum * binWidth)%fl
                                (of_Z 20) (of_Z 20000) * getWidth fftBounds)%fl))
               y)
  else None.

Definition generatePath (renderData : list F) (fftBounds : Rectangle F)
    (fftSize : Z) (binWidth negativeInfinity : F)
    (a : AnalyserPathGenerator) : AnalyserPathGenerator :=
  let p := generatedPath renderData fftBounds fftSize binWidth negativeInfinity in
  mkAnalyserPathGenerator (snd (push p (pathFifo a))).

Definition getNumPathsAvailable (a : AnalyserPathGenerator) : nat :=
  getNumAvailableForReading (pathFifo a).

Definition getPath (a : AnalyserPathGenerator) : option Path * AnalyserPathGenerator :=
  let '(r, q) := pull (pathFifo a) in (r, mkAnalyserPathGenerator q).
End Editor.

Arguments PathElement : clear implicits.

Abbreviation Path F := (list (PathElement F)) (only parsing).
Arguments FFTDataGenerator : clear implicits.
Arguments AnalyserPathGenerator : clear implicits.

Section PathProducer.
Context {F : Type} `{Arith F} `{IIRLib F} `{FFTLib F} `{StateLib F}.

(** *** PathProducer (PluginEditor.h, PluginEditor.cpp)

    The producer points to one of the processor's two sample collectors;
    [process] takes and returns the collector it points to.
    [monoBuffer] has one channel, kept as its samples. *)
Record PathProducer := mkPathProducer {
  monoBuffer : list F;
  leftChannelFFTDataGenerator : FFTDataGenerator F;
  pathProducer : AnalyserPathGenerator F;
  leftChannelFFTPath : Path F
}.

Definition PathProducer_getPath (pp : PathProducer) : Path F :=
  leftChannelFFTPath pp.

(** [juce::FloatVectorOperations::copy (dest + destOffset, src, num)]. *)
Definition FloatVectorOperations_copy (dest : list F) (destOffset : nat)
    (src : list F) (num : nat) : list F :=
  take destOffset dest ++ take num src ++ drop (destOffset + num) dest.

(** The body of the first loop of [process] once a buffer was pulled:
    the window is shifted left by [size] samples and the buffer is copied
    to its end.  The two copies are defined for a buffer no longer than
    the window.  For a longer one the source hands [copy] a negative count
    and a negative offset, which is outside the defined behaviour of the
    code; the differences below stop at 0 then, and what the function
    returns describes no run of the program.  The theorems about a
    cycle of [process] assume buffers within the window ([blocksFit]). *)
Definition process_buffer (tempIncomingBuffer : list F) (pp : PathProducer)
  : PathProducer :=
  let size := length tempIncomingBuffer in
  let numSamples := length (monoBuffer pp) in
  let mono := FloatVectorOperations_copy (monoBuffer pp) 0
                (drop size (monoBuffer pp)) (numSamples - size) in
  let mono := FloatVectorOperations_copy mono (numSamples - size)
                tempIncomingBuffer size in
  mkPathProducer mono
    (produceFFTDataForRendering mono (of_Z (-48)) (leftChannelFFTDataGenerator pp))
    (pathProducer pp) (leftChannelFFTPath pp).

(** [while (leftChannelFifo->getNumCompleteBuffersAvailable () > 0)]. *)
Fixpoint process_samples (fuel : nat) (fifo : SingleChannelSampleFifo F)
    (pp : PathProducer) : SingleChannelSampleFifo F * PathProducer :=
  match fuel with
  | O => (fifo, pp)
  | S fuel' =>
      if (0 <? getNumCompleteBuffersAvailable fifo)%nat
      then
        match getAudioBuffer fifo with
        | (Some tempIncomingBuffer, fifo') =>
            process_samples fuel' fifo' (process_buffer tempIncomingBuffer pp)
        | (None, fifo') => process_samples fuel' fifo' pp
        end
      else (fifo, pp)
  end.

(** [while (leftChannelFFTDataGenerator.getNumAvailableFFTDataBlocks () > 0)]. *)
Fixpoint process_fftData (fuel : nat) (fftBounds : Rectangle F)
    (fftSize : Z) (binWidth : F) (pp : PathProducer) : PathProducer :=
  match fuel with
  | O => pp
  | S fuel' =>
      if (0 <? getNumAvailableFFTDataBlocks (leftChannelFFTDataGenerator pp))%nat
      then
        match getFFTData (leftChannelFFTDataGenerator pp) with
        | (Some data, g) =>
            process_fftData fuel' fftBounds fftSize binWidth
              (mkPathProducer (monoBuffer pp) g
                 (generatePath data fftBounds fftSize binWidth (of_Z (-48))
                    (pathProducer pp))
                 (leftChannelFFTPath pp))
        | (None, g) =>
            process_fftData fuel' fftBounds fftSize binWidth
              (mkPathProducer (monoBuffer pp) g (pathProducer pp)
                 (leftChannelFFTPath pp))
        end
      else pp
  end.

(** [while (pathProducer.getNumPathsAvailable ())
       pathProducer.getPath (leftChannelFFTPath);] *)
Fixpoint process_paths (fuel : nat) (pp : PathProducer) : PathProducer :=
  match fuel with
  | O => pp
  | S fuel' =>
      if (0 <? getNumPathsAvailable (pathProducer pp))%nat
      then
        match getPath (pathProducer pp) with
        | (Some path, a) =>
            process_paths fuel'
              (mkPathProducer (monoBuffer pp) (leftChannelFFTDataGenerator pp)
                 a path)
        | (None, a) =>
            process_paths fuel'
              (mkPathProducer (monoBuffer pp) (leftChannelFFTDataGenerator pp)
                 a (leftChannelFFTPath pp))
        end
      else pp
  end.

(** [PathProducer::process (fftBounds, sampleRate)].  Every pass of one
    of its loops pulls one item, so the number of items that wait when a
    loop starts is fuel enough for it.  The casts between [double] and
    [float] are the identity of the one number type. *)
Definition PathProducer_process (fftBounds : Rectangle F) (sampleRate : F)
    (fifo : SingleChannelSampleFifo F) (pp : PathProducer)
  : SingleChannelSampleFifo F * PathProducer :=
  let '(fifo, pp) :=
    process_samples (getNumCompleteBuffersAvailable fifo) fifo pp in
  let fftSize := getFFTSize (leftChannelFFTDataGenerator pp) in
  let binWidth := (sampleRate / of_Z fftSize)%fl in
  let pp := process_fftData
              (getNumAvailableFFTDataBlocks (leftChannelFFTDataGenerator pp))
              fftBounds fftSize binWidth pp in
  let pp := process_paths (getNumPathsAvailable (pathProducer pp)) pp in
  (fifo, pp).

(** *** ResponseCurveComponent (PluginEditor.cpp)

    [audioProcessor] is the processor the component refers to: the one
    object the audio callback and the editor share.  [repaintPending]
    records that [repaint ()] was called and [paint] is due. *)
Record ResponseCurveComponent := mkResponseCurveComponent {
  audioProcessor : ZooEQAudioProcessor F;
  parametersChanged : bool;                    (* juce::Atomic<bool> *)
  monoChain : MonoChain F;
  leftPathProducer : PathProducer;
  rightPathProducer : PathProducer;
  shouldShowFFTAnalysis : bool;
  getLocalBounds : Rectangle Z;
  repaintPending : bool
}.

(** [Atomic<bool>::compareAndSetBool (newValue, valueToCompare)]: the
    value of the call and the value left in the atomic. *)
Definition compareAndSetBool (newValue valueToCompare current : bool)
  : bool * bool :=
  if Bool.eqb current valueToCompare then (true, newValue) else (false, current).

Definition parameterValueChanged (c : ResponseCurveComponent)
  : ResponseCurveComponent :=
  mkResponseCurveComponent (audioProcessor c) true (monoChain c)
    (leftPathProducer c) (rightPathProducer c) (shouldShowFFTAnalysis c)
    (getLocalBounds c) (repaintPending c).

Definition toggleAnalysisEnablement (enabled : bool)
    (c : ResponseCurveComponent) : ResponseCurveComponent :=
  mkResponseCurveComponent (audioProcessor c) (parametersChanged c)
    (monoChain c) (leftPathProducer c) (rightPathProducer c) enabled
    (getLocalBounds c) (repaintPending c).

Definition getRenderArea (c : ResponseCurveComponent) : Rectangle Z :=
  let bounds := getLocalBounds c in
  let bounds := removeFromTop 12 bounds in
  let bounds := removeFromBottom 2 bounds in
  let bounds := removeFromLeft 20 bounds in
  let bounds := removeFromRight 20 bounds in
  bounds.

Definition getAnalysisArea (c : ResponseCurveComponent) : Rectangle Z :=
  let bounds := getRenderArea c in
  let bounds := removeFromTop 4 bounds in
  let bounds := removeFromBottom 4 bounds in
  bounds.

(** [updateChain] as it leaves [monoChain]. *)
Definition updateChain_monoChain (p : ZooEQAudioProcessor F)
    (m : MonoChain F) : MonoChain F :=
  let chainSettings := getChainSettings (apvts p) in
  let m := setBypassed_LowCut (lowCutBypassed chainSettings) m in
  let m := setBypassed_Peak (peakBypassed chainSettings) m in
  let m := setBypassed_HighCut (highCutBypassed chainSettings) m in
  let peakCoefficients := makePeakFilter chainSettings (sampleRate p) in
  let m := set_Peak (updateCoefficients (Peak m) peakCoefficients) m in
  let lowCutCoefficients := makeLowCutFilter chainSettings (sampleRate p) in
  let m := set_LowCut (updateCutFilter (LowCut m) lowCutCoefficients
                         (lowCutSlope chainSettings)) m in
  let highCutCoefficients := makeHighCutFilter chainSettings (sampleRate p) in
  let m := set_HighCut (updateCutFilter (HighCut m) highCutCoefficients
                          (highCutSlope chainSettings)) m in
  m.

Definition updateChain (c : ResponseCurveComponent) : ResponseCurveComponent :=
  mkResponseCurveComponent (audioProcessor c) (parametersChanged c)
    (updateChain_monoChain (audioProcessor c) (monoChain c))
    (leftPathProducer c) (rightPathProducer c) (shouldShowFFTAnalysis c)
    (getLocalBounds c) (repaintPending c).

(** The two [process] calls of [timerCallback]. *)
Definition processAnalysis (c : ResponseCurveComponent) : ResponseCurveComponent :=
  let fftBounds := toFloat (getAnalysisArea c) in
  let rate := sampleRate (audioProcessor c) in
  let p := audioProcessor c in
  let '(lf, lpp) := PathProducer_process fftBounds rate
                      (leftChannelFifo p) (leftPathProducer c) in
  let '(rf, rpp) := PathProducer_process fftBounds rate
                      (rightChannelFifo p) (rightPathProducer c) in
  mkResponseCurveComponent (set_fifos lf rf p) (parametersChanged c)
    (monoChain c) lpp rpp (shouldShowFFTAnalysis c)
    (getLocalBounds c) (repaintPending c).

Definition repaint (c : ResponseCurveComponent) : ResponseCurveComponent :=
  mkResponseCurveComponent (audioProcessor c) (parametersChanged c)
    (monoChain c) (leftPathProducer c) (rightPathProducer c)
    (shouldShowFFTAnalysis c) (getLocalBounds c) true.

Definition timerCallback (c : ResponseCurveComponent) : ResponseCurveComponent :=
  let c := if shouldShowFFTAnalysis c then processAnalysis c else c in
  let '(swapped, flag) := compareAndSetBool false true (parametersChanged c) in
  let c := mkResponseCurveComponent (audioProcessor c) flag (monoChain c)
             (leftPathProducer c) (rightPathProducer c)
             (shouldShowFFTAnalysis c) (getLocalBounds c) (repaintPending c) in
  let c := if swapped then updateChain c else c in
  repaint c.

(** The audio callback as the editor's component sees it: the host runs
    [processBlock] on the processor the component refers to. *)
Definition audioCallback (buffer : AudioBuffer F) (c : ResponseCurveComponent)
  : option (ResponseCurveComponent * AudioBuffer F) :=
  match processBlock (audioProcessor c) buffer with
  | Some (p, buffer') =>
      Some (mkResponseCurveComponent p (parametersChanged c) (monoChain c)
              (leftPathProducer c) (rightPathProducer c)
              (shouldShowFFTAnalysis c) (getLocalBounds c) (repaintPending c),
            buffer')
  | None => None
  end.
End PathProducer.

Arguments PathProducer : clear implicits.
Arguments ResponseCurveComponent F {_}.

Section Paint.
Context {F : Type} `{Arith F} `{IIRLib F} `{FFTLib F} `{StateLib F}.

(** *** ResponseCurveComponent::paint *)

(** [if (! bypassed) mag *= coefficients->getMagnitudeForFrequency (freq, sampleRate)]. *)
Definition timesMagnitude (bypassed : bool) (f : Filter F) (freq rate mag : F) : F :=
  if negb bypassed
  then (mag * getMagnitudeForFrequency (coefficients f) freq rate)%fl
  else mag.

(** The four guarded products of one cut band. *)
Definition timesCutMagnitude (c : CutFilter F) (freq rate mag : F) : F :=
  let mag := timesMagnitude (cutBypassed0 c) (cut0 c) freq rate mag in
  let mag := timesMagnitude (cutBypassed1 c) (cut1 c) freq rate mag in
  let mag := timesMagnitude (cutBypassed2 c) (cut2 c) freq rate mag in
  let mag := timesMagnitude (cutBypassed3 c) (cut3 c) freq rate mag in
  mag.

(** The frequency of pixel column [i] of [w]. *)
Definition columnFrequency (i w : Z) : F :=
  mapToLog10 (of_Z i / of_Z w)%fl (of_Z 20) (of_Z 20000).

(** The body of the loop over the columns: the value stored in [mags[i]]. *)
Definition columnMagnitude (m : MonoChain F) (rate : F) (w i : Z) : F :=
  let mag := one in
  let freq := columnFrequency i w in
  let mag := timesMagnitude (bypassedPeak m) (Peak m) freq rate mag in
  let mag := if negb (bypassedLowCut m)
             then timesCutMagnitude (LowCut m) freq rate mag else mag in
  let mag := if negb (bypassedHighCut m)
             then timesCutMagnitude (HighCut m) freq rate mag else mag in
  gainToDecibels mag defaultMinusInfinitydB.

(** The stages of a chain in the order [paint] multiplies them, each
    with whether it is bypassed (its own flag or its band's) and its
    magnitude response at the frequency. *)
Definition chainStages (m : MonoChain F) (freq rate : F) : list (bool * F) :=
  let mag (f : Filter F) := getMagnitudeForFrequency (coefficients f) freq rate in
  (bypassedPeak m, mag (Peak m))
  :: map (fun s : bool * Filter F => (bypassedLowCut m || fst s, mag (snd s)))
       (cutSections (LowCut m))
  ++ map (fun s : bool * Filter F => (bypassedHighCut m || fst s, mag (snd s)))
       (cutSections (HighCut m)).

(** The gain a stage contributes: unity when it is bypassed. *)
Definition stageGains (m : MonoChain F) (freq rate : F) : list F :=
  map (fun s : bool * F => if fst s then one else snd s) (chainStages m freq rate).

(** The magnitude responses of the stages that are not bypassed. *)
Definition activeMagnitudes (m : MonoChain F) (freq rate : F) : list F :=
  map snd (List.filter (fun s : bool * F => negb (fst s)) (chainStages m freq rate)).

(** The product of a list of gains, from 1. *)
Definition product (gains : list F) : F := fold_left mul gains one.

(** [mags.resize (w); for (int i = 0; i < w; ++i) mags[i] = ...]. *)
Definition computeMags (m : MonoChain F) (rate : F) (w : Z) : list F :=
  fold_left
    (fun mags i => <[i := columnMagnitude m rate w (Z.of_nat i)]> mags)
    (seq 0 (Z.to_nat w))
    (replicate (Z.to_nat w) zero).

(** The [map] lambda of [paint]. *)
Definition responseMap (responseArea : Rectangle Z) (input : F) : F :=
  let outputMin := of_Z (getBottom responseArea) in
  let outputMax := of_Z (getY responseArea) in
  jmap input (of_Z (-24)) (of_Z 24) outputMin outputMax.

(** [responseCurve]: a sub-path started at the first column, then a line
    to every further column.  [mags.front ()] of an empty vector is outside
    the defined behaviour of the code and reads [zero] here. *)
Definition responseCurve (responseArea : Rectangle Z) (mags : list F) : Path F :=
  StartNewSubPath (of_Z (getX responseArea))
    (responseMap responseArea (default zero (mags !! 0%nat)))
  :: map (fun i => LineTo (of_Z (getX responseArea + Z.of_nat i))
                     (responseMap responseArea (default zero (mags !! i))))
       (seq 1 (length mags - 1)).

(** The element that adds column [i] to the curve. *)
Definition curveElement (i : nat) (x y : F) : PathElement F :=
  match i with
  | O => StartNewSubPath x y
  | S _ => LineTo x y
  end.

(** What [paint] hands to the graphics context. *)
Inductive DrawCommand :=
| FillRect (colour : Colour) (area : Rectangle Z)
| DrawImage
| StrokePath (colour : Colour) (path : Path F)
| DrawRoundedRectangle (colour : Colour) (area : Rectangle Z).

Definition paint_fft (c : ResponseCurveComponent F) : list DrawCommand :=
  let responseArea := getAnalysisArea c in
  if shouldShowFFTAnalysis c
  then
    let dx := of_Z (getX responseArea) in
    let dy := of_Z (getY responseArea) in
    [ StrokePath fftLeftColor
        (applyTranslation dx dy (PathProducer_getPath (leftPathProducer c)));
      StrokePath fftRightColor
        (applyTranslation dx dy (PathProducer_getPath (rightPathProducer c))) ]
  else [].

Definition paint (c : ResponseCurveComponent F) : list DrawCommand :=
  let responseArea := getAnalysisArea c in
  let w := getWidth responseArea in
  let rate := sampleRate (audioProcessor c) in
  let mags := computeMags (monoChain c) rate w in
  let curve := responseCurve responseArea mags in
  [ FillRect backgroundColor (getRenderArea c); DrawImage ]
  ++ paint_fft c
  ++ [ DrawRoundedRectangle backgroundOutlineColor (getRenderArea c);
       StrokePath responseCurveColor curve ].

(** The message loop serves a pending repaint by calling [paint]. *)
Definition servePaint (c : ResponseCurveComponent F)
  : option (list DrawCommand) :=
  if repaintPending c then Some (paint c) else None.
End Paint.

Arguments DrawCommand : clear implicits.

(** ** The interfaces over the real numbers

    [RealModel] reads [float] and [double] as real numbers, so no value
    is NaN or infinite and no operation rounds, and gives the JUCE
    routines by their formulas.  It provides the concrete states and
    buffers of the runs below.  What is proved over it is proved of the
    formulas of the code, without the rounding of [float]; the order of
    the abscissas of the analyser path, which the rounding could touch, is
    proved for any number type whose operations keep the order
    ([PathOrder]). *)

Module RealModel.
Local Open Scope R_scope.

Definition Rltb (x y : R) : bool := if Rlt_dec x y then true else false.

#[export] Instance R_Arith : Arith R := {|
  of_Z := IZR;
  add := Rplus;
  sub := Rminus;
  mul := Rmult;
  div := Rdiv;
  ltb := Rltb;
  log10 := fun x => ln x / ln 10;
  pow := Rpower;
  floorZ := Int_part;
  truncZ := fun x => if Rlt_dec x 0 then (- Int_part (- x))%Z else Int_part x;
  isnan := fun _ => false;
  isinf := fun _ => false
|}.

(** The six-argument constructor of [IIR::Coefficients]: the array is
    normalised by [a0]. *)
Definition biquad (b0 b1 b2 a0 a1 a2 : R) : Coefficients R :=
  [ b0 / a0; b1 / a0; b2 / a0; a1 / a0; a2 / a0 ].

Definition R_makePeakFilter (rate frequency Q gainFactor : R) : Coefficients R :=
  let A := sqrt gainFactor in
  let omega := 2 * PI * Rmax frequency 2 / rate in
  let alpha := sin omega / (Q * 2) in
  let c2 := - 2 * cos omega in
  biquad (1 + alpha * A) c2 (1 - alpha * A) (1 + alpha / A) c2 (1 - alpha / A).

Definition R_makeHighPass (rate frequency Q : R) : Coefficients R :=
  let n := tan (PI * frequency / rate) in
  let c1 := 1 / (1 + n / Q + n * n) in
  biquad c1 (c1 * - 2) c1 1 (c1 * 2 * (n * n - 1)) (c1 * (1 - n / Q + n * n)).

Definition R_makeLowPass (rate frequency Q : R) : Coefficients R :=
  let n := 1 / tan (PI * frequency / rate) in
  let c1 := 1 / (1 + n / Q + n * n) in
  biquad c1 (c1 * 2) c1 1 (c1 * 2 * (1 - n * n)) (c1 * (1 - n / Q + n * n)).

(** The quality factors of the second-order sections of a Butterworth
    design of even order [2 * sections]. *)
Definition butterworthQ (sections i : nat) : R :=
  1 / (2 * cos ((2 * INR i + 1) * PI / (4 * INR sections))).

Definition R_butterworth (section : R -> R -> R -> Coefficients R)
    (frequency rate : R) (slope : Z) : list (Coefficients R) :=
  let sections := Z.to_nat (slope + 1) in
  map (fun i => section rate frequency (butterworthQ sections i)) (seq 0 sections).

(** The sum of [c_n * g (n * w)] over the coefficients [c_0, c_1, ...]. *)
Fixpoint trigSum (g : R -> R) (w : R) (n : nat) (cs : list R) : R :=
  match cs with
  | [] => 0
  | c :: cs' => c * g (INR n * w) + trigSum g w (S n) cs'
  end.

Definition R_getMagnitudeForFrequency (coeffs : Coefficients R)
    (frequency rate : R) : R :=
  let filterOrder := ((length coeffs - 1) / 2)%nat in
  let w := 2 * PI * frequency / rate in
  let numerator := take (S filterOrder) coeffs in
  let denominator := 1 :: drop (S filterOrder) coeffs in
  sqrt ((trigSum cos w 0 numerator)² + (trigSum sin w 0 numerator)²)
  / sqrt ((trigSum cos w 0 denominator)² + (trigSum sin w 0 denominator)²).

(** One sample through a second-order section in transposed direct
    form II. *)
Definition biquadStep (coeffs : Coefficients R) (st : R * R) (input : R)
  : (R * R) * R :=
  match coeffs with
  | [b0; b1; b2; a1; a2] =>
      let output := b0 * input + fst st in
      ((b1 * input - a1 * output + snd st, b2 * input - a2 * output), output)
  | _ => (st, input)
  end.

Fixpoint biquadRun (coeffs : Coefficients R) (st : R * R) (block : list R)
  : (R * R) * list R :=
  match block with
  | [] => (st, [])
  | x :: block' =>
      let '(st1, y) := biquadStep coeffs st x in
      let '(st2, ys) := biquadRun coeffs st1 block' in
      (st2, y :: ys)
  end.

(** A bypassed context keeps the registers running and passes the input
    through. *)
Definition R_iirProcess (coeffs : Coefficients R) (isBypassed : bool)
    (st : list R) (block : list R) : list R * list R :=
  let regs := (default 0 (st !! 0%nat), default 0 (st !! 1%nat)) in
  let '((lv1, lv2), out) := biquadRun coeffs regs block in
  ([lv1; lv2], if isBypassed then block else out).

#[export] Instance R_IIRLib : IIRLib R := {|
  juce_makePeakFilter := R_makePeakFilter;
  makeLowCutFilter := fun s rate =>
    R_butterworth R_makeHighPass (lowCutFreq s) rate (lowCutSlope s);
  makeHighCutFilter := fun s rate =>
    R_butterworth R_makeLowPass (highCutFreq s) rate (highCutSlope s);
  getMagnitudeForFrequency := R_getMagnitudeForFrequency;
  iirProcess := R_iirProcess
|}.

(** The Blackman-Harris window, normalised to mean 1. *)
Definition blackmanHarris (size i : nat) : R :=
  let x := INR i / (INR size - 1) in
  0.35875 - 0.48829 * cos (2 * PI * x) + 0.14128 * cos (4 * PI * x)
  - 0.01168 * cos (6 * PI * x).

Definition R_windowTable (size i : nat) : R :=
  blackmanHarris size i * INR size
  / fold_right Rplus 0 (map (blackmanHarris size) (seq 0 size)).

(** The modulus of bin [k] of the discrete Fourier transform of the first
    [2 ^ order] samples; the second half of the array is zeroed. *)
Definition R_fftMagnitude (order : nat) (data : list R) (k : nat) : R :=
  let size := (2 ^ order)%nat in
  let w := 2 * PI * INR k / INR size in
  if (k <? size)%nat
  then sqrt ((trigSum cos w 0 (take size data))² + (trigSum sin w 0 (take size data))²)
  else 0.

#[export] Instance R_FFTLib : FFTLib R := {|
  windowTable := R_windowTable;
  fftMagnitude := R_fftMagnitude
|}.

(** The parameters of [createParameterLayout] with their default values. *)
Definition defaultParameters : list (string * R) :=
  [ ("LowCut Freq"%string, 20); ("HighCut Freq"%string, 20000);
    ("Peak Freq"%string, 750); ("Peak Gain"%string, 0);
    ("Peak Quality"%string, 1);
    ("LowCut Slope"%string, 0); ("HighCut Slope"%string, 0);
    ("LowCut Bypassed"%string, 0); ("Peak Bypassed"%string, 0);
    ("HighCut Bypassed"%string, 0); ("Analyser Enable"%string, 1) ].

Fixpoint lookupParameter (id : string) (ps : list (string * R)) : option R :=
  match ps with
  | [] => None
  | (k, v) :: ps' => if String.eqb k id then Some v else lookupParameter id ps'
  end.

(** A stand-in for the stream format of [ValueTree]: a blob is a sequence
    of byte pairs, the index of a parameter in [defaultParameters] and its
    value; a blob of odd length or with an unknown index is not a tree. *)
Fixpoint decodeTree (fuel : nat) (data : list Byte.byte)
  : option (list (string * R)) :=
  match fuel, data with
  | _, [] => Some []
  | S fuel', index :: value :: rest =>
      match defaultParameters !! N.to_nat (Byte.to_N index), decodeTree fuel' rest with
      | Some (id, _), Some tree =>
          Some ((id, IZR (Z.of_N (Byte.to_N value))) :: tree)
      | _, _ => None
      end
  | _, _ => None
  end.

#[export] Instance R_StateLib : StateLib R := {|
  ValueTree := option (list (string * R));
  APVTS := list (string * R);
  readFromData := fun data => decodeTree (length data) data;
  isValid := fun tree => match tree with Some _ => true | None => false end;
  replaceState := fun tree a =>
    match tree with
    | Some props =>
        map (fun '(id, v) => (id, default v (lookupParameter id props))) a
    | None => a
    end;
  getRawParameterValue := fun a id => default 0 (lookupParameter id a)
|}.

(** A freshly constructed filter passes its input through. *)
Definition newFilter : Filter R := mkFilter [1; 0; 0; 0; 0] [0; 0].
Definition newCutFilter : CutFilter R :=
  mkCutFilter newFilter newFilter newFilter newFilter false false false false.
Definition newMonoChain : MonoChain R :=
  mkMonoChain newCutFilter newFilter newCutFilter false false false.

(** The processor on a stereo bus at 48 kHz, its queues empty. *)
Definition processor0 : ZooEQAudioProcessor R :=
  mkProcessor defaultParameters 48000 2 2 newMonoChain newMonoChain
    (mkSCSF 0 (mkFifo 30 [])) (mkSCSF 1 (mkFifo 30 [])).

Definition newPathProducer : PathProducer R :=
  let g := changeOrder order2048 (mkFFTDataGenerator order2048 [] (mkFifo 30 [])) in
  mkPathProducer (replicate 2048 0) g (mkAnalyserPathGenerator (mkFifo 30 [])) [].

(** The editor's component of a 600 x 400 window, as built by its
    constructor. *)
Definition component0 : ResponseCurveComponent R :=
  mkResponseCurveComponent processor0 false
    (updateChain_monoChain processor0 newMonoChain)
    newPathProducer newPathProducer true (mkRectangle 0 0 600 118)%Z false.

(** The component with its three bands bypassed. *)
Definition bypassedComponent : ResponseCurveComponent R :=
  mkResponseCurveComponent processor0 false
    (setBypassed_HighCut true
       (setBypassed_Peak true (setBypassed_LowCut true (monoChain component0))))
    newPathProducer newPathProducer true (mkRectangle 0 0 600 118)%Z false.

(** The component with the analyser switched off. *)
Definition silentComponent : ResponseCurveComponent R :=
  toggleAnalysisEnablement false component0.

(** A stereo block of four samples. *)
Definition stereoBlock : AudioBuffer R := [ [1; 0; 0; 0]; [0; 1; 0; 0] ].

(** A mono block of four samples. *)
Definition monoBlock : AudioBuffer R := [ [1; 0; 0; 0] ].
End RealModel.

(** ** Further definitions of the editor *)

(** The last [n] elements of a list. *)
Definition lastN {A : Type} (n : nat) (l : list A) : list A :=
  drop (length l - n) l.

(** What [ResponseCurveComponent::resized] draws of the grid. *)
Inductive GridLine :=
| VerticalLine (x top bottom : Z)
| HorizontalLine (red : bool) (y left right : Z).

(** The frequencies and the gains of the grid: the arrays [freqs] and
    [gain] of [resized], whose entries are whole numbers. *)
Definition gridFrequencies : list Z :=
  [20; 50; 100; 200; 500; 1000; 2000; 5000; 10000; 20000].
Definition gridGains : list Z := [-24; -12; 0; 12; 24].

Section Grid.
Context {F : Type} `{Arith F}.

(** [xs]: [left + width * mapFromLog10 (f, 20.f, 20000.f)] for every
    frequency of the grid. *)
Definition gridX (renderArea : Rectangle Z) (f : F) : F :=
  (of_Z (getX renderArea)
   + of_Z (getWidth renderArea) * mapFromLog10 f (of_Z 20) (of_Z 20000))%fl.

(** [jmap (gdB, -24.f, 24.f, float (bottom), float (top))]. *)
Definition gridY (renderArea : Rectangle Z) (gdB : F) : F :=
  jmap gdB (of_Z (-24)) (of_Z 24)
    (of_Z (getBottom renderArea)) (of_Z (getY renderArea)).

(** The lines of [resized]: a vertical line at [static_cast<int> (x)] for
    every frequency, a horizontal line at [static_cast<int> (y)] for every
    gain, red for 0 dB. *)
Definition resized_lines (renderArea : Rectangle Z) : list GridLine :=
  map (fun f => VerticalLine (truncZ (gridX renderArea (of_Z f)))
                  (getY renderArea) (getBottom renderArea))
    gridFrequencies
  ++ map (fun gdB => HorizontalLine (gdB =? 0)
                       (truncZ (gridY renderArea (of_Z gdB)))
                       (getX renderArea) (getRight renderArea))
       gridGains.

(** The abscissas of the lines a path runs to. *)
Definition lineXs (path : Path F) : list F :=
  omap (fun e => match e with LineTo x _ => Some x | StartNewSubPath _ _ => None end)
    path.
End Grid.

(** ** RotarySliderWithLabels (PluginEditor.cpp) *)

(** [Rectangle<int>::getCentreX], [setSize], [setCentre] and [setY]; the
    division of C++ on [int] rounds towards zero. *)
Definition getCentreX (r : Rectangle Z) : Z := getX r + Z.quot (getWidth r) 2.
Definition setSize (newWidth newHeight : Z) (r : Rectangle Z) : Rectangle Z :=
  mkRectangle (getX r) (getY r) newWidth newHeight.
Definition setCentre (newCentreX newCentreY : Z) (r : Rectangle Z) : Rectangle Z :=
  mkRectangle (newCentreX - Z.quot (getWidth r) 2)
    (newCentreY - Z.quot (getHeight r) 2) (getWidth r) (getHeight r).
Definition setY (newY : Z) (r : Rectangle Z) : Rectangle Z :=
  mkRectangle (getX r) newY (getWidth r) (getHeight r).

Definition getTextHeight : Z := 14.

(** [RotarySliderWithLabels::getSliderBounds], from the local bounds of
    the slider. *)
Definition getSliderBounds (bounds : Rectangle Z) : Rectangle Z :=
  let size := Z.min (getWidth bounds) (getHeight bounds) in
  let size := size - getTextHeight * 2 in
  let r := mkRectangle 0 0 0 0 in
  let r := setSize size size r in
  let r := setCentre (getCentreX bounds) 0 r in
  let r := setY 2 r in
  r.

(** The angle of the pointer over the real numbers:
    [RotarySliderWithLabels::paint] hands [drawRotarySlider] the value
    mapped from the range of the slider to 0..1 and the two end angles,
    and [drawRotarySlider] maps that proportion to the angle by which it
    turns the pointer. *)
Module RealSlider.
Import RealModel.
Local Open Scope R_scope.

(** [juce::degreesToRadians]. *)
Definition degreesToRadians (degrees : R) : R := degrees * (PI / 180).

Definition startAng : R := degreesToRadians (180 + 45).
Definition endAng : R := degreesToRadians (180 - 45) + 2 * PI.

Definition sliderPosProportional (value rangeStart rangeEnd : R) : R :=
  jmap value rangeStart rangeEnd 0 1.

Definition sliderAngRad (sliderPos rotaryStartAngle rotaryEndAngle : R) : R :=
  jmap sliderPos 0 1 rotaryStartAngle rotaryEndAngle.

Definition pointerAngle (value rangeStart rangeEnd : R) : R :=
  sliderAngRad (sliderPosProportional value rangeStart rangeEnd) startAng endAng.
End RealSlider.

(** ** ZooEQAudioProcessorEditor::resized (PluginEditor.cpp) *)

(** The strips [removeFromTop], [removeFromLeft] and [removeFromRight]
    return, and [setWidth] and [setX]. *)
Definition takenFromTop (amount : Z) (r : Rectangle Z) : Rectangle Z :=
  mkRectangle (getX r) (getY r) (getWidth r) (Z.min amount (getHeight r)).
Definition takenFromLeft (amount : Z) (r : Rectangle Z) : Rectangle Z :=
  mkRectangle (getX r) (getY r) (Z.min amount (getWidth r)) (getHeight r).
Definition takenFromRight (amount : Z) (r : Rectangle Z) : Rectangle Z :=
  let a := Z.min amount (getWidth r) in
  mkRectangle (getX r + getWidth r - a) (getY r) a (getHeight r).
Definition setWidth (newWidth : Z) (r : Rectangle Z) : Rectangle Z :=
  mkRectangle (getX r) (getY r) newWidth (getHeight r).
Definition setX (newX : Z) (r : Rectangle Z) : Rectangle Z :=
  mkRectangle newX (getY r) (getWidth r) (getHeight r).

(** The bounds [resized] gives the children of the editor. *)
Record EditorLayout := mkEditorLayout {
  analyserEnableButton : Rectangle Z;
  responseCurveComponent : Rectangle Z;
  lowcutBypassButton : Rectangle Z;
  lowCutFreqSlider : Rectangle Z;
  lowCutSlopeSlider : Rectangle Z;
  highcutBypassButton : Rectangle Z;
  highCutFreqSlider : Rectangle Z;
  highCutSlopeSlider : Rectangle Z;
  peakBypassButton : Rectangle Z;
  peakFreqSlider : Rectangle Z;
  peakGainSlider : Rectangle Z;
  peakQualitySlider : Rectangle Z
}.

(** One rectangle inside another, and two rectangles that share no
    pixel. *)
Definition inside (inner outer : Rectangle Z) : Prop :=
  (getX outer <= getX inner /\ getRight inner <= getRight outer
   /\ getY outer <= getY inner /\ getBottom inner <= getBottom outer)%Z.
Definition apart (a b : Rectangle Z) : Prop :=
  (getRight a <= getX b \/ getRight b <= getX a
   \/ getBottom a <= getY b \/ getBottom b <= getY a)%Z.

Section EditorResized.
Context {F : Type} `{Arith F}.

(** [static_cast<int> (n * ratio)]. *)
Definition scaled (n : Z) (ratio : F) : Z := truncZ (of_Z n * ratio)%fl.

Definition editor_resized (localBounds : Rectangle Z) : EditorLayout :=
  let bounds := localBounds in
  let analyzerEnableArea := takenFromTop 25 bounds in
  let bounds := removeFromTop 25 bounds in
  let analyzerEnableArea := setWidth 40 analyzerEnableArea in
  let analyzerEnableArea := setX 20 analyzerEnableArea in
  let analyzerEnableArea := removeFromTop 2 analyzerEnableArea in
  let bounds := removeFromTop 5 bounds in
  let hRatio := (of_Z 32 / of_Z 100)%fl in
  let amount := scaled (getHeight bounds) hRatio in
  let responseArea := takenFromTop amount bounds in
  let bounds := removeFromTop amount bounds in
  let bounds := removeFromTop 5 bounds in
  let amount := scaled (getWidth bounds) (of_Z 33 / of_Z 100)%fl in
  let lowCutArea := takenFromLeft amount bounds in
  let bounds := removeFromLeft amount bounds in
  let amount := scaled (getWidth bounds) (of_Z 5 / of_Z 10)%fl in
  let highCutArea := takenFromRight amount bounds in
  let bounds := removeFromRight amount bounds in
  let lowcutBypass := takenFromTop 25 lowCutArea in
  let lowCutArea := removeFromTop 25 lowCutArea in
  let amount := scaled (getHeight lowCutArea) (of_Z 5 / of_Z 10)%fl in
  let lowCutFreq := takenFromTop amount lowCutArea in
  let lowCutArea := removeFromTop amount lowCutArea in
  let highcutBypass := takenFromTop 25 highCutArea in
  let highCutArea := removeFromTop 25 highCutArea in
  let amount := scaled (getHeight highCutArea) (of_Z 5 / of_Z 10)%fl in
  let highCutFreq := takenFromTop amount highCutArea in
  let highCutArea := removeFromTop amount highCutArea in
  let peakBypass := takenFromTop 25 bounds in
  let bounds := removeFromTop 25 bounds in
  let amount := scaled (getHeight bounds) (of_Z 33 / of_Z 100)%fl in
  let peakFreq := takenFromTop amount bounds in
  let bounds := removeFromTop amount bounds in
  let amount := scaled (getHeight bounds) (of_Z 5 / of_Z 10)%fl in
  let peakGain := takenFromTop amount bounds in
  let bounds := removeFromTop amount bounds in
  mkEditorLayout analyzerEnableArea responseArea lowcutBypass lowCutFreq lowCutArea
    highcutBypass highCutFreq highCutArea peakBypass peakFreq peakGain bounds.
End EditorResized.

(** ** The calls [paint] makes *)

Section PaintCalls.
Context {F : Type} `{Arith F} `{IIRLib F} `{FFTLib F} `{StateLib F}.

(** One call of [getMagnitudeForFrequency]: the coefficient array it is
    called on and the frequency it is called with. *)
Definition MagnitudeCall : Type := (list F * F)%type.

(** The loop of [paint] over the columns once more, with the list of the
    calls of [getMagnitudeForFrequency] made so far beside the running
    product: [if (! bypassed) mag *= ...->getMagnitudeForFrequency (...)]
    makes one call when the stage is not bypassed and none when it is. *)
Definition timesMagnitude_calls (bypassed : bool) (f : Filter F) (freq rate : F)
    (st : F * list MagnitudeCall) : F * list MagnitudeCall :=
  if negb bypassed
  then ((fst st * getMagnitudeForFrequency (coefficients f) freq rate)%fl,
        snd st ++ [(coefficients f, freq)])
  else st.

Definition timesCutMagnitude_calls (c : CutFilter F) (freq rate : F)
    (st : F * list MagnitudeCall) : F * list MagnitudeCall :=
  let st := timesMagnitude_calls (cutBypassed0 c) (cut0 c) freq rate st in
  let st := timesMagnitude_calls (cutBypassed1 c) (cut1 c) freq rate st in
  let st := timesMagnitude_calls (cutBypassed2 c) (cut2 c) freq rate st in
  let st := timesMagnitude_calls (cutBypassed3 c) (cut3 c) freq rate st in
  st.

Definition columnMagnitude_calls (m : MonoChain F) (rate : F) (w i : Z)
    (calls : list MagnitudeCall) : F * list MagnitudeCall :=
  let st := (one, calls) in
  let freq := columnFrequency i w in
  let st := timesMagnitude_calls (bypassedPeak m) (Peak m) freq rate st in
  let st := if negb (bypassedLowCut m)
            then timesCutMagnitude_calls (LowCut m) freq rate st else st in
  let st := if negb (bypassedHighCut m)
            then timesCutMagnitude_calls (HighCut m) freq rate st else st in
  (gainToDecibels (fst st) defaultMinusInfinitydB, snd st).

Definition computeMags_calls (m : MonoChain F) (rate : F) (w : Z)
  : list F * list MagnitudeCall :=
  fold_left
    (fun st i =>
       let column := columnMagnitude_calls m rate w (Z.of_nat i) (snd st) in
       (<[i := fst column]> (fst st), snd column))
    (seq 0 (Z.to_nat w))
    (replicate (Z.to_nat w) zero, []).

(** The calls of [getMagnitudeForFrequency] one [paint] makes. *)
Definition paint_calls (c : ResponseCurveComponent F) : list MagnitudeCall :=
  snd (computeMags_calls (monoChain c) (sampleRate (audioProcessor c))
         (getWidth (getAnalysisArea c))).

(** The number of stages of a chain that are not bypassed. *)
Definition activeStages (m : MonoChain F) : nat :=
  length (activeMagnitudes m zero zero).

(** ** The sample queues and the windows *)

(** Every block that waits in a sample queue is no longer than the
    window of the path producer that takes it.  For a longer block
    [process] passes a negative count and a negative offset to
    [FloatVectorOperations::copy], which is outside the defined behaviour
    of the code; the theorems about a timer callback that runs the
    analyser assume this bound. *)
Definition blocksFit (c : ResponseCurveComponent F) : Prop :=
  Forall (fun block => (length block <= length (monoBuffer (leftPathProducer c)))%nat)
    (unread (audioBufferFifo (leftChannelFifo (audioProcessor c))))
  /\ Forall (fun block =>
               (length block <= length (monoBuffer (rightPathProducer c)))%nat)
       (unread (audioBufferFifo (rightChannelFifo (audioProcessor c)))).

(** ** The flag between the notification and the timer

    The host writes a parameter into the store and then notifies the
    listeners, on whatever thread it is on; the timer callback runs on the
    message thread.  [parametersChanged] is a [juce::Atomic<bool>]: its
    [set] and its [compareAndSetBool] are each one indivisible step.
    [updateChain] is taken as one step as well: a write of the store that
    falls between its reads has its notification still to come.  The
    steps of the two sides, interleaved in any order: *)

Inductive TimerPhase :=
| Idle        (* between two callbacks *)
| Analysed    (* [process] was called on both producers, or skipped *)
| Swapped     (* [compareAndSetBool] found the flag set and cleared it *)
| Tested.     (* the chain is dealt with, [repaint] is due *)

Record Threads := mkThreads {
  component : ResponseCurveComponent F;
  phase : TimerPhase;
  (* writes of the store whose notification is still to come *)
  inFlight : nat
}.

(** The host writes the store. *)
Definition writeParameters (a : APVTS) (c : ResponseCurveComponent F)
  : ResponseCurveComponent F :=
  mkResponseCurveComponent (set_apvts a (audioProcessor c)) (parametersChanged c)
    (monoChain c) (leftPathProducer c) (rightPathProducer c)
    (shouldShowFFTAnalysis c) (getLocalBounds c) (repaintPending c).

(** [if (shouldShowFFTAnalysis) { ... process ...; ... process ...; }] *)
Definition analyse (c : ResponseCurveComponent F) : ResponseCurveComponent F :=
  if shouldShowFFTAnalysis c then processAnalysis c else c.

(** [parametersChanged.compareAndSetBool (false, true)]: its value and
    the component it leaves. *)
Definition testAndClear (c : ResponseCurveComponent F)
  : bool * ResponseCurveComponent F :=
  let '(swapped, flag) := compareAndSetBool false true (parametersChanged c) in
  (swapped,
   mkResponseCurveComponent (audioProcessor c) flag (monoChain c)
     (leftPathProducer c) (rightPathProducer c) (shouldShowFFTAnalysis c)
     (getLocalBounds c) (repaintPending c)).

Inductive step : Threads -> Threads -> Prop :=
| step_write (a : APVTS) c ph n :
    step (mkThreads c ph n) (mkThreads (writeParameters a c) ph (S n))
| step_notify c ph n :
    step (mkThreads c ph (S n)) (mkThreads (parameterValueChanged c) ph n)
| step_analyse c n :
    (shouldShowFFTAnalysis c = true -> blocksFit c) ->
    step (mkThreads c Idle n) (mkThreads (analyse c) Analysed n)
| step_test c n :
    step (mkThreads c Analysed n)
      (mkThreads (snd (testAndClear c))
         (if fst (testAndClear c) then Swapped else Tested) n)
| step_update c n :
    step (mkThreads c Swapped n) (mkThreads (updateChain c) Tested n)
| step_repaint c n :
    step (mkThreads c Tested n) (mkThreads (repaint c) Idle n).

(** The chain of the curve is the one [updateChain] derives from the
    parameters the store holds now. *)
Definition chainCurrent (c : ResponseCurveComponent F) : Prop :=
  monoChain c = updateChain_monoChain (audioProcessor c) (monoChain c).

(** No change of a parameter is lost: its notification is still to come,
    or the flag is set, or the update of the chain is the next step of the
    timer, or the chain is current. *)
Definition noLostChange (s : Threads) : Prop :=
  (0 < inFlight s)%nat
  \/ parametersChanged (component s) = true
  \/ phase s = Swapped
  \/ chainCurrent (component s).
End PaintCalls.

Arguments Threads F {_}.

(** The ordinate of an element of a path. *)
Definition ordinate {F : Type} (e : PathElement F) : F :=
  match e with
  | StartNewSubPath _ y => y
  | LineTo _ y => y
  end.

(** [binX] of [generatePath]: the abscissa of a bin as the [int] the
    code computes, before [lineTo] converts it back to [float]. *)
Definition binX {F : Type} `{Arith F} (binWidth width : F) (binNum : Z) : Z :=
  floorZ (mapFromLog10 (of_Z binNum * binWidth)%fl (of_Z 20) (of_Z 20000) * width)%fl.

(** * Properties *)

Section ProcessorProperties.
Context {F : Type} `{Arith F} `{IIRLib F} `{StateLib F}.

(** ** Coefficient updates and the delay registers *)

Lemma updateSection_state coeffs slope i (f : Filter F) :
  state (updateSection coeffs slope i f) = state f.
Proof.
  unfold updateSection.
  destruct (sectionActive slope i); [|reflexivity].
  destruct (coeffs !! i); reflexivity.
Qed.

Lemma updateCutFilter_states (c : CutFilter F) coeffs slope :
  map state (map snd (cutSections (updateCutFilter c coeffs slope)))
  = map state (map snd (cutSections c)).
Proof.
  unfold cutSections, updateCutFilter; simpl.
  now rewrite !updateSection_state.
Qed.

Lemma updatePeakFilter_chainStates settings (p : ZooEQAudioProcessor F) :
  chainStates (leftChain (updatePeakFilter settings p)) = chainStates (leftChain p)
  /\ chainStates (rightChain (updatePeakFilter settings p)) = chainStates (rightChain p).
Proof. split; reflexivity. Qed.

Lemma updateLowCutFilters_chainStates settings (p : ZooEQAudioProcessor F) :
  chainStates (leftChain (updateLowCutFilters settings p)) = chainStates (leftChain p)
  /\ chainStates (rightChain (updateLowCutFilters settings p)) = chainStates (rightChain p).
Proof.
  split; unfold chainStates, chainFilters, updateLowCutFilters; simpl;
    now rewrite !updateSection_state.
Qed.

Lemma updateHighCutFilter_chainStates settings (p : ZooEQAudioProcessor F) :
  chainStates (leftChain (updateHighCutFilter settings p)) = chainStates (leftChain p)
  /\ chainStates (rightChain (updateHighCutFilter settings p)) = chainStates (rightChain p).
Proof.
  split; unfold chainStates, chainFilters, updateHighCutFilter; simpl;
    now rewrite !updateSection_state.
Qed.

Lemma updateFilters_chainStates (p : ZooEQAudioProcessor F) :
  chainStates (leftChain (updateFilters p)) = chainStates (leftChain p)
  /\ chainStates (rightChain (updateFilters p)) = chainStates (rightChain p).
Proof.
  unfold updateFilters.
  destruct (updateHighCutFilter_chainStates (getChainSettings (apvts p))
              (updatePeakFilter (getChainSettings (apvts p))
                 (updateLowCutFilters (getChainSettings (apvts p)) p))) as [Hl Hr].
  destruct (updatePeakFilter_chainStates (getChainSettings (apvts p))
              (updateLowCutFilters (getChainSettings (apvts p)) p)) as [Hl1 Hr1].
  destruct (updateLowCutFilters_chainStates (getChainSettings (apvts p)) p) as [Hl2 Hr2].
  split; congruence.
Qed.

(** The frame of [updateFilters]: everything but the chains is kept. *)
Lemma updateFilters_frame (p : ZooEQAudioProcessor F) :
  apvts (updateFilters p) = apvts p
  /\ sampleRate (updateFilters p) = sampleRate p
  /\ totalNumInputChannels (updateFilters p) = totalNumInputChannels p
  /\ totalNumOutputChannels (updateFilters p) = totalNumOutputChannels p
  /\ leftChannelFifo (updateFilters p) = leftChannelFifo p
  /\ rightChannelFifo (updateFilters p) = rightChannelFifo p.
Proof. repeat split. Qed.

Lemma updateFilters_chains (p : ZooEQAudioProcessor F) :
  leftChain (updateFilters p)
  = updatedChain (getChainSettings (apvts p)) (sampleRate p) (leftChain p)
  /\ rightChain (updateFilters p)
     = updatedChain (getChainSettings (apvts p)) (sampleRate p) (rightChain p).
Proof. split; reflexivity. Qed.

Lemma updateChain_monoChain_updatedChain (p : ZooEQAudioProcessor F) m :
  updateChain_monoChain p m
  = updatedChain (getChainSettings (apvts p)) (sampleRate p) m.
Proof. reflexivity. Qed.

(** ** Processing keeps the coefficients *)

Lemma Filter_process_coefficients b (f : Filter F) block :
  coefficients (fst (Filter_process b f block)) = coefficients f.
Proof.
  unfold Filter_process.
  destruct (iirProcess (coefficients f) b (state f) block); reflexivity.
Qed.

Lemma CutFilter_process_config b (c : CutFilter F) block :
  let c' := fst (CutFilter_process b c block) in
  map coefficients (map snd (cutSections c')) = map coefficients (map snd (cutSections c))
  /\ map fst (cutSections c') = map fst (cutSections c).
Proof.
  unfold CutFilter_process, Filter_process; simpl.
  repeat match goal with
         | |- context [iirProcess ?a ?b ?c ?d] => destruct (iirProcess a b c d)
         end.
  simpl. split; reflexivity.
Qed.

Lemma MonoChain_process_coefficients (m : MonoChain F) block :
  chainCoefficients (fst (MonoChain_process m block)) = chainCoefficients m.
Proof.
  unfold MonoChain_process.
  pose proof (CutFilter_process_config (bypassedLowCut m) (LowCut m) block) as Hl.
  destruct (CutFilter_process (bypassedLowCut m) (LowCut m) block) as [lc b1].
  pose proof (Filter_process_coefficients (bypassedPeak m) (Peak m) b1) as Hp.
  destruct (Filter_process (bypassedPeak m) (Peak m) b1) as [pk b2].
  pose proof (CutFilter_process_config (bypassedHighCut m) (HighCut m) b2) as Hh.
  destruct (CutFilter_process (bypassedHighCut m) (HighCut m) b2) as [hc b3].
  simpl in *. destruct Hl as [Hl _], Hh as [Hh _].
  unfold chainCoefficients, chainFilters; simpl.
  injection Hl as -> -> -> ->. injection Hh as -> -> -> ->.
  now rewrite Hp.
Qed.

Lemma MonoChain_process_bypass (m : MonoChain F) block :
  let m' := fst (MonoChain_process m block) in
  bypassedLowCut m' = bypassedLowCut m /\ bypassedPeak m' = bypassedPeak m
  /\ bypassedHighCut m' = bypassedHighCut m
  /\ map fst (cutSections (LowCut m')) = map fst (cutSections (LowCut m))
  /\ map fst (cutSections (HighCut m')) = map fst (cutSections (HighCut m)).
Proof.
  unfold MonoChain_process.
  pose proof (CutFilter_process_config (bypassedLowCut m) (LowCut m) block) as Hl.
  destruct (CutFilter_process (bypassedLowCut m) (LowCut m) block) as [lc b1].
  destruct (Filter_process (bypassedPeak m) (Peak m) b1) as [pk b2].
  pose proof (CutFilter_process_config (bypassedHighCut m) (HighCut m) b2) as Hh.
  destruct (CutFilter_process (bypassedHighCut m) (HighCut m) b2) as [hc b3].
  simpl in *. destruct Hl as [_ Hl], Hh as [_ Hh]. auto.
Qed.

(** ** Channel accesses of [processBlock] *)

Lemma clearChannel_length i (b b' : AudioBuffer F) :
  clearChannel i b = Some b' -> length b' = length b.
Proof.
  unfold clearChannel. destruct (b !! i); [|discriminate].
  intros [= <-]. apply length_insert.
Qed.

Lemma clearChannels_length n : forall i (b b' : AudioBuffer F),
  clearChannels n i b = Some b' -> length b' = length b.
Proof.
  induction n as [|n IH]; simpl; intros i b b' Hc.
  - now injection Hc as <-.
  - destruct (clearChannel i b) as [b1|] eqn:E; [|discriminate].
    rewrite (IH _ _ _ Hc). eapply clearChannel_length; eauto.
Qed.

Lemma clearChannels_defined n : forall i (b : AudioBuffer F),
  (n <> 0 -> i + n <= length b)%nat -> exists b', clearChannels n i b = Some b'.
Proof.
  induction n as [|n IH]; simpl; intros i b Hle.
  - eauto.
  - unfold clearChannel.
    destruct (b !! i) as [s|] eqn:E.
    + apply IH. rewrite length_insert. lia.
    + apply lookup_ge_None in E. lia.
Qed.

Lemma processBlock_short_buffer (p : ZooEQAudioProcessor F) (buffer : AudioBuffer F) :
  (length buffer < 2)%nat -> processBlock p buffer = None.
Proof.
  intros Hlen. unfold processBlock.
  destruct (clearChannels _ _ buffer) as [b|] eqn:E; [|reflexivity].
  apply clearChannels_length in E.
  destruct (b !! 0%nat) as [l|] eqn:E0; [|reflexivity].
  destruct (b !! 1%nat) as [r|] eqn:E1; [|reflexivity].
  apply lookup_lt_Some in E1. lia.
Qed.

Lemma SCSF_update_defined (q : SingleChannelSampleFifo F) (buffer : AudioBuffer F) :
  (channelToUse q < length buffer)%nat ->
  exists samples,
    buffer !! channelToUse q = Some samples
    /\ SCSF_update buffer q
       = Some (mkSCSF (channelToUse q) (snd (push samples (audioBufferFifo q)))).
Proof.
  intros Hlt. unfold SCSF_update.
  destruct (buffer !! channelToUse q) as [samples|] eqn:E.
  - eauto.
  - apply lookup_ge_None in E. lia.
Qed.

(** The result of [processBlock] on a buffer that has the channels it
    reads. *)
Lemma processBlock_defined (p : ZooEQAudioProcessor F) (buffer : AudioBuffer F) :
  (2 <= length buffer)%nat ->
  (totalNumOutputChannels p <= length buffer)%nat ->
  (channelToUse (leftChannelFifo p) < length buffer)%nat ->
  (channelToUse (rightChannelFifo p) < length buffer)%nat ->
  exists cleared leftBlock rightBlock lf rf,
    clearChannels (totalNumOutputChannels p - totalNumInputChannels p)
      (totalNumInputChannels p) buffer = Some cleared
    /\ cleared !! 0%nat = Some leftBlock /\ cleared !! 1%nat = Some rightBlock
    /\ let l := MonoChain_process (leftChain (updateFilters p)) leftBlock in
       let r := MonoChain_process (rightChain (updateFilters p)) rightBlock in
       let out := <[1%nat := snd r]> (<[0%nat := snd l]> cleared) in
       SCSF_update out (leftChannelFifo p) = Some lf
       /\ SCSF_update out (rightChannelFifo p) = Some rf
       /\ processBlock p buffer
          = Some (mkProcessor (apvts p) (sampleRate p) (totalNumInputChannels p)
                    (totalNumOutputChannels p) (fst l) (fst r) lf rf,
                  out).
Proof.
  intros H2 Hout Hcl Hcr.
  destruct (clearChannels_defined
              (totalNumOutputChannels p - totalNumInputChannels p)
              (totalNumInputChannels p) buffer) as [cleared Hc]; [lia|].
  pose proof (clearChannels_length _ _ _ _ Hc) as Hlen.
  destruct (cleared !! 0%nat) as [lb|] eqn:E0;
    [|apply lookup_ge_None in E0; lia].
  destruct (cleared !! 1%nat) as [rb|] eqn:E1;
    [|apply lookup_ge_None in E1; lia].
  destruct (MonoChain_process (leftChain (updateFilters p)) lb) as [l lo] eqn:El.
  destruct (MonoChain_process (rightChain (updateFilters p)) rb) as [r ro] eqn:Er.
  destruct (SCSF_update_defined (leftChannelFifo p)
              (<[1%nat := ro]> (<[0%nat := lo]> cleared))) as (ls & _ & Hlf);
    [rewrite !length_insert; lia|].
  destruct (SCSF_update_defined (rightChannelFifo p)
              (<[1%nat := ro]> (<[0%nat := lo]> cleared))) as (rs & _ & Hrf);
    [rewrite !length_insert; lia|].
  eexists cleared, lb, rb, _, _. rewrite El, Er. simpl.
  repeat split; eauto.
  unfold processBlock. rewrite Hc, E0, E1, El, Er. simpl.
  unfold set_chains, set_fifos; simpl.
  change (leftChannelFifo (updateFilters p)) with (leftChannelFifo p).
  change (rightChannelFifo (updateFilters p)) with (rightChannelFifo p).
  rewrite Hlf, Hrf. reflexivity.
Qed.
(** ** Recomputing the filters twice *)

Lemma updateSection_idempotent coeffs slope i (f : Filter F) :
  updateSection coeffs slope i (updateSection coeffs slope i f)
  = updateSection coeffs slope i f.
Proof.
  unfold updateSection. destruct (sectionActive slope i); [|reflexivity].
  destruct (coeffs !! i); reflexivity.
Qed.

Lemma updatedChain_idempotent settings rate (m : MonoChain F) :
  updatedChain settings rate (updatedChain settings rate m)
  = updatedChain settings rate m.
Proof.
  unfold updatedChain, updateCutFilter; simpl.
  now rewrite !updateSection_idempotent.
Qed.

End ProcessorProperties.

Section ProcessorClaims.
Context {F : Type} `{Arith F} `{IIRLib F} `{StateLib F}.

Lemma updatedChain_coefficients settings rate (m : MonoChain F) :
  coefficients (Peak (updatedChain settings rate m)) = makePeakFilter settings rate
  /\ (forall i c, (i < 4)%nat ->
        sectionActive (lowCutSlope settings) i = true ->
        makeLowCutFilter settings rate !! i = Some c ->
        chainCoefficients (updatedChain settings rate m) !! i = Some c)
  /\ (forall i c, (i < 4)%nat ->
        sectionActive (highCutSlope settings) i = true ->
        makeHighCutFilter settings rate !! i = Some c ->
        chainCoefficients (updatedChain settings rate m) !! (5 + i)%nat = Some c).
Proof.
  split; [reflexivity|].
  split; intros i c Hi Hact Hc;
    destruct i as [|[|[|[|i]]]]; try lia;
    unfold chainCoefficients, chainFilters, updatedChain, updateCutFilter; simpl;
    unfold updateSection; rewrite Hact, Hc; reflexivity.
Qed.

(** C4: on every block [processBlock] reads the settings from the
    parameter store and recomputes and applies the low-cut, peak and
    high-cut coefficients of both chains before it filters the block,
    whether or not a setting changed; when it returns, the coefficients of
    the chains are those derived from the settings at the start of the
    block.  The settings are the ten raw parameter values as the store
    holds them when the block starts; the peak coefficients are JUCE's
    peak design at the sample rate for the stored frequency, quality and
    gain; the band flags are the stored bypass values compared with one
    half; and the sections of a cut band that are switched on are those
    below the stored slope plus one.  What the chains held before has no
    part in it. *)
Theorem processBlock_recomputes_coefficients
    (p : ZooEQAudioProcessor F) (buffer : AudioBuffer F) :
  (2 <= length buffer)%nat ->
  (totalNumOutputChannels p <= length buffer)%nat ->
  (channelToUse (leftChannelFifo p) < length buffer)%nat ->
  (channelToUse (rightChannelFifo p) < length buffer)%nat ->
  exists p' buffer' cleared leftBlock rightBlock,
    processBlock p buffer = Some (p', buffer')
    /\ clearChannels (totalNumOutputChannels p - totalNumInputChannels p)
         (totalNumInputChannels p) buffer = Some cleared
    /\ cleared !! 0%nat = Some leftBlock
    /\ cleared !! 1%nat = Some rightBlock
    /\ let settings := getChainSettings (apvts p) in
       let rate := sampleRate p in
       let derivedLeft := updatedChain settings rate (leftChain p) in
       let derivedRight := updatedChain settings rate (rightChain p) in
       (* the derived chains filter the block *)
       leftChain p' = fst (MonoChain_process derivedLeft leftBlock)
       /\ rightChain p' = fst (MonoChain_process derivedRight rightBlock)
       /\ buffer' !! 0%nat = Some (snd (MonoChain_process derivedLeft leftBlock))
       /\ buffer' !! 1%nat = Some (snd (MonoChain_process derivedRight rightBlock))
       (* and their coefficients are the chains' coefficients afterwards *)
       /\ chainCoefficients (leftChain p') = chainCoefficients derivedLeft
       /\ chainCoefficients (rightChain p') = chainCoefficients derivedRight
       /\ coefficients (Peak (leftChain p')) = makePeakFilter settings rate
       /\ coefficients (Peak (rightChain p')) = makePeakFilter settings rate
       /\ (forall i c, (i < 4)%nat ->
             sectionActive (lowCutSlope settings) i = true ->
             makeLowCutFilter settings rate !! i = Some c ->
             chainCoefficients (leftChain p') !! i = Some c
             /\ chainCoefficients (rightChain p') !! i = Some c)
       /\ (forall i c, (i < 4)%nat ->
             sectionActive (highCutSlope settings) i = true ->
             makeHighCutFilter settings rate !! i = Some c ->
             chainCoefficients (leftChain p') !! (5 + i)%nat = Some c
             /\ chainCoefficients (rightChain p') !! (5 + i)%nat = Some c)
       /\ bypassedLowCut (leftChain p') = lowCutBypassed settings
       /\ bypassedPeak (leftChain p') = peakBypassed settings
       /\ bypassedHighCut (leftChain p') = highCutBypassed settings
       /\ bypassedLowCut (rightChain p') = lowCutBypassed settings
       /\ bypassedPeak (rightChain p') = peakBypassed settings
       /\ bypassedHighCut (rightChain p') = highCutBypassed settings
       /\ apvts p' = apvts p
       (* the settings are the values the store holds *)
       /\ (let raw := getRawParameterValue (apvts p) in
           settings
           = {| lowCutFreq := raw "LowCut Freq"%string;
                highCutFreq := raw "HighCut Freq"%string;
                peakFreq := raw "Peak Freq"%string;
                peakGainInDecibels := raw "Peak Gain"%string;
                peakQuality := raw "Peak Quality"%string;
                lowCutSlope := truncZ (raw "LowCut Slope"%string);
                highCutSlope := truncZ (raw "HighCut Slope"%string);
                lowCutBypassed := ltb half (raw "LowCut Bypassed"%string);
                peakBypassed := ltb half (raw "Peak Bypassed"%string);
                highCutBypassed := ltb half (raw "HighCut Bypassed"%string) |}
           /\ coefficients (Peak (leftChain p'))
              = juce_makePeakFilter (sampleRate p) (raw "Peak Freq"%string)
                  (raw "Peak Quality"%string)
                  (decibelsToGain (raw "Peak Gain"%string))
           /\ coefficients (Peak (rightChain p'))
              = coefficients (Peak (leftChain p'))
           /\ bypassedPeak (leftChain p') = ltb half (raw "Peak Bypassed"%string)
           /\ bypassedLowCut (leftChain p') = ltb half (raw "LowCut Bypassed"%string)
           /\ bypassedHighCut (leftChain p')
              = ltb half (raw "HighCut Bypassed"%string)
           /\ map fst (cutSections (LowCut (leftChain p')))
              = map (fun i => negb (sectionActive (truncZ (raw "LowCut Slope"%string)) i))
                  [0; 1; 2; 3]%nat
           /\ map fst (cutSections (HighCut (leftChain p')))
              = map (fun i => negb (sectionActive (truncZ (raw "HighCut Slope"%string)) i))
                  [0; 1; 2; 3]%nat
           /\ map fst (cutSections (LowCut (rightChain p')))
              = map fst (cutSections (LowCut (leftChain p')))
           /\ map fst (cutSections (HighCut (rightChain p')))
              = map fst (cutSections (HighCut (leftChain p')))).
Proof.
  intros H2 Hout Hcl Hcr.
  destruct (processBlock_defined p buffer H2 Hout Hcl Hcr)
    as (cleared & lb & rb & lf & rf & Hc & E0 & E1 & Hlf & Hrf & Hpb).
  destruct (updateFilters_chains p) as [HL HR].
  rewrite HL, HR in Hpb.
  set (settings := getChainSettings (apvts p)) in *.
  set (dl := updatedChain settings (sampleRate p) (leftChain p)) in *.
  set (dr := updatedChain settings (sampleRate p) (rightChain p)) in *.
  pose proof (clearChannels_length _ _ _ _ Hc) as Hlen.
  eexists _, _, cleared, lb, rb. split; [exact Hpb|].
  split; [exact Hc|]. split; [exact E0|]. split; [exact E1|].
  cbn zeta. simpl leftChain. simpl rightChain. simpl apvts.
  pose proof (MonoChain_process_coefficients dl lb) as Kl.
  pose proof (MonoChain_process_coefficients dr rb) as Kr.
  pose proof (MonoChain_process_bypass dl lb) as Bl. cbn zeta in Bl.
  pose proof (MonoChain_process_bypass dr rb) as Br. cbn zeta in Br.
  destruct (updatedChain_coefficients settings (sampleRate p) (leftChain p))
    as (Pl & Ll & Hl).
  destruct (updatedChain_coefficients settings (sampleRate p) (rightChain p))
    as (Pr & Lr & Hr).
  fold dl in Pl, Ll, Hl. fold dr in Pr, Lr, Hr.
  assert (Pk : forall m : MonoChain F,
             chainCoefficients m !! 4%nat = Some (coefficients (Peak m)))
    by reflexivity.
  assert (PeakL : coefficients (Peak (fst (MonoChain_process dl lb)))
                  = makePeakFilter settings (sampleRate p)).
  { pose proof (Pk (fst (MonoChain_process dl lb))) as Q.
    rewrite Kl, Pk in Q. injection Q as <-. exact Pl. }
  assert (PeakR : coefficients (Peak (fst (MonoChain_process dr rb)))
                  = makePeakFilter settings (sampleRate p)).
  { pose proof (Pk (fst (MonoChain_process dr rb))) as Q.
    rewrite Kr, Pk in Q. injection Q as <-. exact Pr. }
  repeat split.
  - rewrite list_lookup_insert_ne by lia.
    apply list_lookup_insert_eq. lia.
  - apply list_lookup_insert_eq. rewrite length_insert. lia.
  - exact Kl.
  - exact Kr.
  - pose proof (Pk (fst (MonoChain_process dl lb))) as Q.
    rewrite Kl, Pk in Q. injection Q as <-. exact Pl.
  - pose proof (Pk (fst (MonoChain_process dr rb))) as Q.
    rewrite Kr, Pk in Q. injection Q as <-. exact Pr.
  - rewrite Kl. now apply Ll.
  - rewrite Kr. now apply Lr.
  - rewrite Kl. now apply Hl.
  - rewrite Kr. now apply Hr.
  - now destruct Bl as (-> & _).
  - now destruct Bl as (_ & -> & _).
  - now destruct Bl as (_ & _ & -> & _).
  - now destruct Br as (-> & _).
  - now destruct Br as (_ & -> & _).
  - now destruct Br as (_ & _ & -> & _).
  - exact PeakL.
  - now rewrite PeakL, PeakR.
  - now destruct Bl as (_ & -> & _).
  - now destruct Bl as (-> & _).
  - now destruct Bl as (_ & _ & -> & _).
  - now destruct Bl as (_ & _ & _ & -> & _).
  - now destruct Bl as (_ & _ & _ & _ & ->).
  - destruct Bl as (_ & _ & _ & -> & _). now destruct Br as (_ & _ & _ & -> & _).
  - destruct Bl as (_ & _ & _ & _ & ->). now destruct Br as (_ & _ & _ & _ & ->).
Qed.

(** C5: replacing the coefficients of a stage changes the coefficient
    values only; the delay registers of no stage are reset by a swap, so
    the memory of the filters survives every update of the settings. *)
Theorem coefficient_swap_keeps_delay_registers :
  (forall (old : Filter F) replacements,
      updateCoefficients old replacements = mkFilter replacements (state old)
      /\ state (updateCoefficients old replacements) = state old)
  /\ (forall settings (p : ZooEQAudioProcessor F),
        let p' := updatePeakFilter settings p in
        chainStates (leftChain p') = chainStates (leftChain p)
        /\ chainStates (rightChain p') = chainStates (rightChain p)
        /\ LowCut (leftChain p') = LowCut (leftChain p)
        /\ HighCut (leftChain p') = HighCut (leftChain p)
        /\ LowCut (rightChain p') = LowCut (rightChain p)
        /\ HighCut (rightChain p') = HighCut (rightChain p)
        /\ Peak (leftChain p')
           = mkFilter (makePeakFilter settings (sampleRate p)) (state (Peak (leftChain p)))
        /\ Peak (rightChain p')
           = mkFilter (makePeakFilter settings (sampleRate p)) (state (Peak (rightChain p))))
  /\ (forall p : ZooEQAudioProcessor F,
        chainStates (leftChain (updateFilters p)) = chainStates (leftChain p)
        /\ chainStates (rightChain (updateFilters p)) = chainStates (rightChain p))
  /\ (forall settings rate (m : MonoChain F),
        chainStates (updatedChain settings rate m) = chainStates m).
Proof.
  split; [intros; split; reflexivity|].
  split; [intros; repeat split|].
  split; [apply updateFilters_chainStates|].
  intros settings rate m.
  unfold chainStates, chainFilters, updatedChain, updateCutFilter; simpl.
  now rewrite !updateSection_state.
Qed.

(** C9: [processBlock] reads channels 0 and 1 of the buffer whatever the
    layout, so it needs a buffer of at least two channels; yet
    [isBusesLayoutSupported] accepts the mono layout, whose buffers have
    one channel. *)
Theorem mono_layout_accepted_but_processBlock_needs_two_channels
    (JucePlugin_IsMidiEffect JucePlugin_IsSynth : bool)
    (p : ZooEQAudioProcessor F) (buffer : AudioBuffer F) :
  (length buffer < 2)%nat ->
  let mono := mkBusesLayout AudioChannelSet_mono AudioChannelSet_mono in
  processBlock p buffer = None
  /\ isBusesLayoutSupported JucePlugin_IsMidiEffect JucePlugin_IsSynth mono = true
  /\ AudioChannelSet_size (getMainInputChannelSet mono) = 1%nat
  /\ AudioChannelSet_size (getMainOutputChannelSet mono) = 1%nat.
Proof.
  intros Hlen mono. split; [now apply processBlock_short_buffer|].
  split; [|split; reflexivity].
  unfold isBusesLayoutSupported.
  destruct JucePlugin_IsMidiEffect; [reflexivity|].
  destruct JucePlugin_IsSynth; reflexivity.
Qed.

(** C10: [setStateInformation] leaves the parameter state and the filter
    chains, and the rest of the processor, untouched when the bytes do not
    parse into a valid tree; only a valid tree replaces the state, and the
    filters are then recomputed from the replaced state. *)
Theorem setStateInformation_replaces_only_on_valid_tree
    (data : list Byte.byte) (p : ZooEQAudioProcessor F) :
  (isValid (readFromData data) = false -> setStateInformation data p = p)
  /\ (isValid (readFromData data) = true ->
      let p' := setStateInformation data p in
      let replaced := replaceState (readFromData data) (apvts p) in
      apvts p' = replaced
      /\ leftChain p'
         = updatedChain (getChainSettings replaced) (sampleRate p) (leftChain p)
      /\ rightChain p'
         = updatedChain (getChainSettings replaced) (sampleRate p) (rightChain p)
      /\ leftChannelFifo p' = leftChannelFifo p
      /\ rightChannelFifo p' = rightChannelFifo p).
Proof.
  unfold setStateInformation. split; intros Hv; rewrite Hv.
  - reflexivity.
  - repeat split.
Qed.
End ProcessorClaims.

(** ** Queues *)

Section QueueProperties.
Context {T : Type}.

Lemma push_unread (t : T) (q : Fifo T) :
  unread (snd (push t q))
  = if (length (unread q) <? capacity q)%nat then unread q ++ [t] else unread q.
Proof. unfold push. destruct (length (unread q) <? capacity q)%nat; reflexivity. Qed.

Lemma push_capacity (t : T) (q : Fifo T) :
  capacity (snd (push t q)) = capacity q.
Proof. unfold push. destruct (length (unread q) <? capacity q)%nat; reflexivity. Qed.

Lemma push_room (t : T) (q : Fifo T) :
  (length (unread q) < capacity q)%nat ->
  push t q = (true, mkFifo (capacity q) (unread q ++ [t])).
Proof.
  intros Hlt. unfold push.
  destruct (Nat.ltb_spec (length (unread q)) (capacity q)); [reflexivity|lia].
Qed.

Lemma push_full (t : T) (q : Fifo T) :
  (capacity q <= length (unread q))%nat -> push t q = (false, q).
Proof.
  intros Hle. unfold push.
  destruct (Nat.ltb_spec (length (unread q)) (capacity q)); [lia|reflexivity].
Qed.

Lemma pushAll_capacity (ts : list T) : forall q : Fifo T,
  capacity (pushAll ts q) = capacity q.
Proof.
  induction ts as [|t ts IH]; intros q; simpl; [reflexivity|].
  unfold pushAll in *; simpl. now rewrite IH, push_capacity.
Qed.

Lemma pushAll_room (ts : list T) : forall q : Fifo T,
  (length (unread q) + length ts <= capacity q)%nat ->
  unread (pushAll ts q) = unread q ++ ts.
Proof.
  induction ts as [|t ts IH]; intros q Hroom; simpl in *.
  - now rewrite app_nil_r.
  - unfold pushAll in *; simpl.
    rewrite IH; rewrite push_room by lia; simpl.
    + now rewrite <- app_assoc.
    + rewrite length_app; simpl; lia.
Qed.
(** What a run of pushes leaves in the queue: the items that found
    room, in order; the others are dropped. *)
Lemma pushAll_unread (ts : list T) : forall q : Fifo T,
  unread (pushAll ts q)
  = unread q ++ take (capacity q - length (unread q)) ts.
Proof.
  induction ts as [|t ts IH]; intros q.
  - simpl. now rewrite take_nil, app_nil_r.
  - unfold pushAll in *. cbn [fold_left]. rewrite IH, push_capacity, push_unread.
    destruct (Nat.ltb_spec (length (unread q)) (capacity q)) as [Hlt|Hge].
    + rewrite length_app. cbn [length].
      replace (capacity q - length (unread q))%nat
        with (S (capacity q - (length (unread q) + 1)))%nat by lia.
      cbn [take]. now rewrite <- app_assoc.
    + replace (capacity q - length (unread q))%nat with 0%nat by lia.
      reflexivity.
Qed.
End QueueProperties.

Section AnalyserProperties.
Context {F : Type} `{Arith F} `{IIRLib F} `{FFTLib F} `{StateLib F}.

(** ** The in-place loops of [produceFFTDataForRendering] *)

Lemma forEachBin_S n (f : F -> F) v :
  forEachBin (S n) f v = alter f n (forEachBin n f v).
Proof. unfold forEachBin. now rewrite seq_S, fold_left_app. Qed.

Lemma forEachBin_length n (f : F -> F) v :
  length (forEachBin n f v) = length v.
Proof.
  induction n as [|n IH]; [reflexivity|].
  now rewrite forEachBin_S, length_alter.
Qed.

Lemma forEachBin_lookup n (f : F -> F) v i :
  forEachBin n f v !! i = if (i <? n)%nat then f <$> (v !! i) else v !! i.
Proof.
  induction n as [|n IH]; [reflexivity|].
  rewrite forEachBin_S.
  destruct (Nat.eq_dec i n) as [->|Hne].
  - rewrite list_lookup_alter_eq, IH.
    rewrite Nat.ltb_irrefl.
    destruct (Nat.ltb_spec n (S n)); [reflexivity|lia].
  - rewrite list_lookup_alter_ne by congruence. rewrite IH.
    destruct (Nat.ltb_spec i n), (Nat.ltb_spec i (S n)); try reflexivity; lia.
Qed.

Lemma multiplyWithWindowingTable_length n (v : list F) k :
  length (multiplyWithWindowingTable n v k) = length v.
Proof. apply length_imap. Qed.

Lemma performFrequencyOnlyForwardTransform_lookup o (v : list F) i :
  (i < length v)%nat ->
  performFrequencyOnlyForwardTransform o v !! i
  = Some (fftMagnitude (Z.to_nat (FFTOrder_value o)) v i).
Proof.
  intros Hlt. unfold performFrequencyOnlyForwardTransform.
  rewrite list_lookup_imap.
  destruct (lookup_lt_is_Some_2 v i Hlt) as [x ->]. reflexivity.
Qed.

(** The work array [produceFFTDataForRendering] leaves and pushes: as
    long as the one it was given, and from N/2 on what the transform left
    there. *)
Lemma produceFFTData_tail (readIndex : list F) negInf (g : FFTDataGenerator F) :
  let g' := produceFFTDataForRendering readIndex negInf g in
  let N := Z.to_nat (getFFTSize g) in
  let worked :=
    multiplyWithWindowingTable N
      (std_copy readIndex N (replicate (length (fftData g)) zero)) N in
  length (fftData g') = length worked
  /\ fftDataFifo g' = snd (push (fftData g') (fftDataFifo g))
  /\ (forall i, (Z.to_nat (Z.quot (getFFTSize g) 2) <= i < length worked)%nat ->
        fftData g' !! i
        = Some (fftMagnitude (Z.to_nat (FFTOrder_value (order g))) worked i)).
Proof.
  intros g' N worked. unfold g', produceFFTDataForRendering. cbn [fftData fftDataFifo].
  fold N. fold worked.
  split; [|split; [reflexivity|]].
  - rewrite !forEachBin_length. unfold performFrequencyOnlyForwardTransform.
    now rewrite length_imap.
  - intros i [Hlo Hhi]. rewrite !forEachBin_lookup.
    destruct (Nat.ltb_spec i (Z.to_nat (Z.quot (getFFTSize g) 2))); [lia|].
    now apply performFrequencyOnlyForwardTransform_lookup.
Qed.

Lemma getFFTSize_pos (g : FFTDataGenerator F) :
  (2048 <= getFFTSize g)%Z /\ Z.quot (getFFTSize g) 2 = (getFFTSize g / 2)%Z
  /\ (Z.to_nat (getFFTSize g / 2) <= Z.to_nat (getFFTSize g))%nat
  /\ (2 * (getFFTSize g / 2) = getFFTSize g)%Z.
Proof.
  assert (Hsize : getFFTSize g = 2048 \/ getFFTSize g = 4096 \/ getFFTSize g = 8192)
    by (unfold getFFTSize; destruct (order g); auto).
  rewrite Z.quot_div_nonneg by lia.
  split; [lia|]. split; [reflexivity|].
  destruct Hsize as [-> | [-> | ->]];
    (split; [apply Z2Nat.inj_le; now vm_compute | reflexivity]).
Qed.

(** ** The loop of [generatePath] *)

Lemma binsFrom_seq count : forall k,
  binsFrom count (2 * Z.of_nat k + 1)
  = map (fun k => 2 * Z.of_nat k + 1) (seq k count).
Proof.
  induction count as [|count IH]; intros k; simpl; [reflexivity|].
  f_equal. rewrite <- IH. f_equal. lia.
Qed.

Lemma visitedBins_binsFrom numBins :
  visitedBins numBins = binsFrom (Z.to_nat (numBins / 2)) 1.
Proof. unfold visitedBins. now rewrite <- binsFrom_seq. Qed.

Lemma generatePath_bin_binPoint renderData fftBounds binWidth negInf b (p : Path F) :
  generatePath_bin renderData fftBounds binWidth negInf b p
  = p ++ option_list (binPoint renderData fftBounds binWidth negInf b).
Proof.
  unfold generatePath_bin, binPoint.
  destruct (isFinite _); simpl; [reflexivity|now rewrite app_nil_r].
Qed.

Lemma generatePath_loop_bins renderData fftBounds binWidth negInf numBins :
  forall fuel b (p : Path F),
    ((numBins - b + 1) / 2 <= Z.of_nat fuel)%Z ->
    generatePath_loop fuel renderData fftBounds binWidth negInf numBins b p
    = p ++ omap (binPoint renderData fftBounds binWidth negInf)
             (binsFrom (Z.to_nat ((numBins - b + 1) / 2)) b).
Proof.
  induction fuel as [|fuel IH]; intros b p Hfuel.
  - simpl. replace (Z.to_nat ((numBins - b + 1) / 2)) with 0%nat by lia.
    simpl. now rewrite app_nil_r.
  - simpl. destruct (Z.ltb_spec b numBins) as [Hlt|Hge].
    + assert (Hdiv : ((numBins - b + 1) / 2 = (numBins - (b + 2) + 1) / 2 + 1)%Z).
      { replace (numBins - b + 1)%Z with ((numBins - (b + 2) + 1) + 1 * 2)%Z by lia.
        now rewrite Z.div_add by lia. }
      assert (0 <= (numBins - (b + 2) + 1) / 2)%Z
        by (apply Z.div_pos; lia).
      rewrite IH by lia.
      rewrite generatePath_bin_binPoint, Hdiv.
      replace (Z.to_nat ((numBins - (b + 2) + 1) / 2 + 1))
        with (S (Z.to_nat ((numBins - (b + 2) + 1) / 2))) by lia.
      simpl. rewrite <- app_assoc. f_equal.
      destruct (binPoint renderData fftBounds binWidth negInf b); reflexivity.
    + assert ((numBins - b + 1) / 2 < 1)%Z
        by (apply Z.div_lt_upper_bound; lia).
      replace (Z.to_nat ((numBins - b + 1) / 2)) with 0%nat by lia.
      simpl. now rewrite app_nil_r.
Qed.

Lemma omap_binPoint renderData fftBounds binWidth negInf (bins : list Z) :
  omap (binPoint renderData fftBounds binWidth negInf) bins
  = map (fun b =>
           LineTo
             (of_Z (floorZ (mapFromLog10 (of_Z b * binWidth)%fl (of_Z 20)
                              (of_Z 20000) * getWidth fftBounds)%fl))
             (jmap (at_index renderData b) negInf zero
                (getHeight fftBounds) (getY fftBounds)))
      (List.filter
         (fun b => isFinite (jmap (at_index renderData b) negInf zero
                               (getHeight fftBounds) (getY fftBounds)))
         bins).
Proof.
  induction bins as [|b bins IH]; [reflexivity|].
  csimpl. rewrite IH. unfold binPoint.
  destruct (isFinite _); reflexivity.
Qed.

Lemma generatedPath_bins renderData fftBounds fftSize binWidth negInf :
  generatedPath renderData fftBounds fftSize binWidth negInf
  = StartNewSubPath zero
      (jmap (at_index renderData 0) negInf zero (getHeight fftBounds) (getY fftBounds))
    :: omap (binPoint renderData fftBounds binWidth negInf)
         (visitedBins (Z.quot fftSize 2)).
Proof.
  unfold generatedPath.
  rewrite generatePath_loop_bins.
  - rewrite visitedBins_binsFrom.
    replace (Z.quot fftSize 2 - 1 + 1)%Z with (Z.quot fftSize 2) by lia.
    reflexivity.
  - replace (Z.quot fftSize 2 - 1 + 1)%Z with (Z.quot fftSize 2) by lia.
    destruct (Z.le_gt_cases 0 (Z.quot fftSize 2)).
    + rewrite Z2Nat.id by lia. apply Z.div_le_upper_bound; lia.
    + assert (Z.quot fftSize 2 / 2 < 0)%Z
        by (apply Z.div_lt_upper_bound; lia).
      lia.
Qed.
End AnalyserProperties.

Section AnalyserClaims.
Context {F : Type} `{Arith F} `{IIRLib F} `{FFTLib F} `{StateLib F}.

Lemma gainToDecibels_cases (gain floor : F) :
  (ltb zero gain = true /\ ltb floor (log10 gain * of_Z 20)%fl = true
   /\ gainToDecibels gain floor = (log10 gain * of_Z 20)%fl)
  \/ ((ltb zero gain = false \/ ltb floor (log10 gain * of_Z 20)%fl = false)
      /\ gainToDecibels gain floor = floor).
Proof.
  unfold gainToDecibels, jmax.
  destruct (ltb zero gain); [|right; auto].
  destruct (ltb floor _); [left|right]; auto.
Qed.

(** C6, as the code has it: one FFT pass over a full window of
    N = 2^order samples leaves in each of the first N/2 bins the magnitude
    of the transform of the windowed samples divided by N/2 and converted
    to decibels, 20 log10 of the value, with the floor -48 dB: a value
    that is not positive, or whose decibel value does not exceed the
    floor, gives -48.  The frame that is pushed into the frame queue is
    not these N/2 bins but the whole work array of 2N values: the N/2
    bins at its head, and behind them the 3N/2 values the transform left
    there, neither divided nor converted. *)
Theorem produceFFTData_frame_bins (readIndex : list F) (g : FFTDataGenerator F) :
  let fftSize := getFFTSize g in
  let N := Z.to_nat fftSize in
  let numBins := (fftSize / 2)%Z in
  length readIndex = N ->
  length (fftData g) = (2 * N)%nat ->
  let g' := produceFFTDataForRendering readIndex (of_Z (-48)) g in
  let windowed := multiplyWithWindowingTable N (readIndex ++ replicate N zero) N in
  let frame := fftData g' in
  let transformed (i : nat) :=
    fftMagnitude (Z.to_nat (FFTOrder_value (order g))) windowed i in
  fftSize = (2 ^ FFTOrder_value (order g))%Z
  /\ length frame = (2 * N)%nat
  /\ (forall i, (i < Z.to_nat numBins)%nat ->
        frame !! i
        = Some (gainToDecibels
                  (fftMagnitude (Z.to_nat (FFTOrder_value (order g))) windowed i
                   / of_Z numBins)%fl
                  (of_Z (-48))))
  /\ (forall gain,
        (ltb zero gain = false \/ ltb (of_Z (-48)) (log10 gain * of_Z 20)%fl = false) ->
        gainToDecibels gain (of_Z (-48)) = of_Z (-48))
  /\ fftDataFifo g' = snd (push frame (fftDataFifo g))
  /\ ((getNumAvailableFFTDataBlocks g < capacity (fftDataFifo g))%nat ->
      unread (fftDataFifo g') = unread (fftDataFifo g) ++ [frame])
  (* the conversion, written out *)
  /\ (forall i, (i < Z.to_nat numBins)%nat ->
        let level := (transformed i / of_Z numBins)%fl in
        frame !! i
        = Some (if ltb zero level
                then (if ltb (of_Z (-48)) (log10 level * of_Z 20)%fl
                      then (log10 level * of_Z 20)%fl
                      else of_Z (-48))
                else of_Z (-48)))
  (* the rest of the frame *)
  /\ (forall i, (Z.to_nat numBins <= i < 2 * N)%nat ->
        frame !! i = Some (transformed i))
  /\ (Z.to_nat numBins < length frame)%nat.
Proof.
  intros fftSize N numBins Hread Hdata g' windowed frame transformed.
  destruct (getFFTSize_pos g) as (Hpos & Hquot & Hle & Hdiv).
  fold fftSize in Hpos, Hquot, Hle, Hdiv. fold numBins in Hquot, Hle.
  assert (Hcopy : std_copy readIndex N (replicate (length (fftData g)) zero)
                  = readIndex ++ replicate N zero).
  { unfold std_copy. rewrite take_ge by lia. rewrite drop_replicate, Hdata.
    do 2 f_equal. lia. }
  assert (Hframe : frame
                   = forEachBin (Z.to_nat numBins)
                       (fun x => gainToDecibels x (of_Z (-48)))
                       (forEachBin (Z.to_nat numBins) (fun x => (x / of_Z numBins)%fl)
                          (performFrequencyOnlyForwardTransform (order g) windowed))).
  { unfold frame, g', produceFFTDataForRendering, windowed; simpl.
    fold fftSize. fold N. rewrite Hquot, Hcopy. reflexivity. }
  assert (Hwin : length windowed = (2 * N)%nat).
  { unfold windowed. rewrite multiplyWithWindowingTable_length, length_app,
      length_replicate. lia. }
  assert (Hlen : length frame = (2 * N)%nat).
  { rewrite Hframe, !forEachBin_length.
    unfold performFrequencyOnlyForwardTransform. now rewrite length_imap. }
  assert (Hbin : forall i, (i < Z.to_nat numBins)%nat ->
            frame !! i
            = Some (gainToDecibels (transformed i / of_Z numBins)%fl (of_Z (-48)))).
  { intros i Hi. rewrite Hframe, !forEachBin_lookup.
    destruct (Nat.ltb_spec i (Z.to_nat numBins)); [|lia].
    rewrite performFrequencyOnlyForwardTransform_lookup by lia.
    reflexivity. }
  split; [unfold fftSize, getFFTSize; apply Z.shiftl_1_l|].
  split; [exact Hlen|].
  split; [exact Hbin|].
  split.
  { intros gain Hlow.
    destruct (gainToDecibels_cases gain (of_Z (-48))) as [(Hp & Hq & _)|[_ Hfloor]].
    - destruct Hlow; congruence.
    - exact Hfloor. }
  split; [reflexivity|].
  split.
  { intros Hroom. change (fftDataFifo g') with (snd (push frame (fftDataFifo g))).
    rewrite push_room by exact Hroom. reflexivity. }
  split; [intros i Hi; rewrite (Hbin i Hi); reflexivity|].
  split; [|rewrite Hlen; lia].
  intros i [Hlo Hhi]. rewrite Hframe, !forEachBin_lookup.
  destruct (Nat.ltb_spec i (Z.to_nat numBins)); [lia|].
  apply performFrequencyOnlyForwardTransform_lookup. lia.
Qed.

(** C7, as the code has it: [generatePath] starts the path at bin 0 and
    visits the bins 1, 3, 5, ... below N/2; a visited bin whose mapped
    magnitude is NaN or infinite adds no point and the path goes on with
    the next bin; every other visited bin adds a line to the abscissa of
    its frequency [binNum * binWidth] on the log10 axis from 20 Hz to
    20 kHz, whatever that frequency is: a bin below 20 Hz is not skipped,
    its abscissa is the (negative) value the axis gives it. *)
Theorem generatePath_visits_every_second_bin
    (renderData : list F) (fftBounds : Rectangle F) (fftSize : Z)
    (binWidth negativeInfinity : F) (a : AnalyserPathGenerator F) :
  let numBins := Z.quot fftSize 2 in
  let y (binNum : Z) :=
    jmap (at_index renderData binNum) negativeInfinity zero
      (getHeight fftBounds) (getY fftBounds) in
  let x (binNum : Z) :=
    of_Z (floorZ (mapFromLog10 (of_Z binNum * binWidth)%fl (of_Z 20) (of_Z 20000)
                  * getWidth fftBounds)%fl) in
  let path := generatedPath renderData fftBounds fftSize binWidth negativeInfinity in
  visitedBins numBins = map (fun k => 2 * Z.of_nat k + 1)%Z (seq 0 (Z.to_nat (numBins / 2)))
  /\ path = StartNewSubPath zero (y 0%Z)
            :: map (fun binNum => LineTo (x binNum) (y binNum))
                 (List.filter (fun binNum => negb (isnan (y binNum)) && negb (isinf (y binNum)))
                    (visitedBins numBins))
  /\ pathFifo (generatePath renderData fftBounds fftSize binWidth negativeInfinity a)
     = snd (push path (pathFifo a)).
Proof.
  intros numBins y x path.
  split; [reflexivity|]. split; [|reflexivity].
  unfold path. rewrite generatedPath_bins, omap_binPoint. reflexivity.
Qed.
End AnalyserClaims.

Section PathProducerProperties.
Context {F : Type} `{Arith F} `{IIRLib F} `{FFTLib F} `{StateLib F}.

Lemma last_cons_nonempty {A : Type} (x y : A) (l : list A) (d d' : A) :
  List.last (x :: l) d = List.last (x :: l) d'.
Proof.
  revert x. induction l as [|z l IH]; intros x; [reflexivity|].
  change (List.last (z :: l) d = List.last (z :: l) d'). apply IH.
Qed.

Lemma last_cons_default {A : Type} (x : A) (l : list A) (d : A) :
  List.last (x :: l) d = List.last l x.
Proof.
  destruct l as [|z l]; [reflexivity|].
  change (List.last (z :: l) d = List.last (z :: l) x).
  apply (last_cons_nonempty z z).
Qed.

(** The third loop of [process] empties the path queue and keeps the
    newest path it pulled. *)
Lemma process_paths_drains : forall fuel (pp : PathProducer F),
  (length (unread (pathFifo (pathProducer pp))) <= fuel)%nat ->
  process_paths fuel pp
  = mkPathProducer (monoBuffer pp) (leftChannelFFTDataGenerator pp)
      (mkAnalyserPathGenerator (mkFifo (capacity (pathFifo (pathProducer pp))) []))
      (List.last (unread (pathFifo (pathProducer pp))) (leftChannelFFTPath pp)).
Proof.
  induction fuel as [|fuel IH]; intros [mono g [[cap paths]] shown] Hfuel;
    simpl in Hfuel.
  - destruct paths; [reflexivity|simpl in Hfuel; lia].
  - destruct paths as [|path paths]; [reflexivity|].
    cbn [process_paths getNumPathsAvailable getNumAvailableForReading pathProducer
           pathFifo unread length Nat.ltb Nat.leb getPath pull capacity].
    rewrite IH by (simpl in *; lia).
    cbn [monoBuffer leftChannelFFTDataGenerator pathProducer pathFifo capacity
           unread leftChannelFFTPath].
    now rewrite last_cons_default.
Qed.

(** The second loop empties the frame queue and queues one path per
    frame. *)
Lemma process_fftData_drains fftBounds fftSize binWidth :
  forall fuel (pp : PathProducer F),
    let g := leftChannelFFTDataGenerator pp in
    (length (unread (fftDataFifo g)) <= fuel)%nat ->
    process_fftData fuel fftBounds fftSize binWidth pp
    = mkPathProducer (monoBuffer pp)
        (mkFFTDataGenerator (order g) (fftData g)
           (mkFifo (capacity (fftDataFifo g)) []))
        (mkAnalyserPathGenerator
           (pushAll
              (map (fun data => generatedPath data fftBounds fftSize binWidth (of_Z (-48)))
                 (unread (fftDataFifo g)))
              (pathFifo (pathProducer pp))))
        (leftChannelFFTPath pp).
Proof.
  induction fuel as [|fuel IH];
    intros [mono [o data [cap frames]] [paths] shown] g Hfuel;
    subst g; simpl in Hfuel.
  - destruct frames; [reflexivity|simpl in Hfuel; lia].
  - destruct frames as [|frame frames]; [reflexivity|].
    cbn [process_fftData getNumAvailableFFTDataBlocks getNumAvailableForReading
           leftChannelFFTDataGenerator fftDataFifo unread length Nat.ltb Nat.leb
           getFFTData pull capacity order fftData monoBuffer pathProducer
           leftChannelFFTPath].
    rewrite IH by (simpl in *; lia).
    reflexivity.
Qed.

(** The first loop empties the sample queue and analyses every buffer it
    pulled, oldest first. *)
Lemma process_samples_drains :
  forall fuel (fifo : SingleChannelSampleFifo F) (pp : PathProducer F),
    (length (unread (audioBufferFifo fifo)) <= fuel)%nat ->
    process_samples fuel fifo pp
    = (mkSCSF (channelToUse fifo) (mkFifo (capacity (audioBufferFifo fifo)) []),
       fold_left (fun pp buffer => process_buffer buffer pp)
         (unread (audioBufferFifo fifo)) pp).
Proof.
  induction fuel as [|fuel IH]; intros [ch [cap buffers]] pp Hfuel;
    simpl in Hfuel.
  - destruct buffers; [reflexivity|simpl in Hfuel; lia].
  - destruct buffers as [|buffer buffers]; [reflexivity|].
    cbn [process_samples getNumCompleteBuffersAvailable getNumAvailableForReading
           audioBufferFifo unread length Nat.ltb Nat.leb getAudioBuffer pull
           capacity channelToUse].
    rewrite IH by (simpl in *; lia).
    reflexivity.
Qed.

(** [process] in closed form. *)
Lemma PathProducer_process_closed_form fftBounds rate
    (fifo : SingleChannelSampleFifo F) (pp : PathProducer F) :
  let analysed := fold_left (fun pp buffer => process_buffer buffer pp)
                    (unread (audioBufferFifo fifo)) pp in
  let g := leftChannelFFTDataGenerator analysed in
  let fftSize := getFFTSize g in
  let binWidth := (rate / of_Z fftSize)%fl in
  let generated :=
    map (fun data => generatedPath data fftBounds fftSize binWidth (of_Z (-48)))
      (unread (fftDataFifo g)) in
  let queued := pushAll generated (pathFifo (pathProducer analysed)) in
  PathProducer_process fftBounds rate fifo pp
  = (mkSCSF (channelToUse fifo) (mkFifo (capacity (audioBufferFifo fifo)) []),
     mkPathProducer (monoBuffer analysed)
       (mkFFTDataGenerator (order g) (fftData g)
          (mkFifo (capacity (fftDataFifo g)) []))
       (mkAnalyserPathGenerator (mkFifo (capacity queued) []))
       (List.last (unread queued) (leftChannelFFTPath analysed))).
Proof.
  intros analysed g fftSize binWidth generated queued.
  unfold PathProducer_process.
  rewrite process_samples_drains by reflexivity.
  fold analysed. fold g. fold fftSize. fold binWidth.
  unfold getNumAvailableFFTDataBlocks, getNumAvailableForReading.
  rewrite process_fftData_drains by reflexivity.
  fold g. fold generated. fold queued.
  rewrite process_paths_drains by reflexivity.
  reflexivity.
Qed.

Lemma process_buffer_frame buffer (pp : PathProducer F) :
  pathProducer (process_buffer buffer pp) = pathProducer pp
  /\ leftChannelFFTPath (process_buffer buffer pp) = leftChannelFFTPath pp.
Proof. split; reflexivity. Qed.

Lemma process_buffers_frame buffers : forall pp : PathProducer F,
  let analysed := fold_left (fun pp buffer => process_buffer buffer pp) buffers pp in
  pathProducer analysed = pathProducer pp
  /\ leftChannelFFTPath analysed = leftChannelFFTPath pp.
Proof.
  induction buffers as [|buffer buffers IH]; intros pp; simpl; [auto|].
  destruct (IH (process_buffer buffer pp)) as [-> ->]. auto.
Qed.

(** Every block taken from the sample queue adds at most one frame to
    the frame queue. *)
Lemma process_buffers_frames buffers : forall pp : PathProducer F,
  let analysed := fold_left (fun pp buffer => process_buffer buffer pp) buffers pp in
  (length (unread (fftDataFifo (leftChannelFFTDataGenerator analysed)))
   <= length (unread (fftDataFifo (leftChannelFFTDataGenerator pp))) + length buffers)%nat.
Proof.
  induction buffers as [|buffer buffers IH]; intros pp; cbn [fold_left length];
    [lia|].
  etransitivity; [apply IH|].
  unfold process_buffer, produceFFTDataForRendering.
  cbn [leftChannelFFTDataGenerator fftDataFifo].
  rewrite push_unread.
  destruct (_ <? _)%nat; [rewrite length_app; cbn [length]|]; lia.
Qed.

Lemma last_app_take {A : Type} (waiting generated : list A) (room : nat) (d x : A) :
  generated !! room = Some x ->
  List.last (waiting ++ take (S room) generated) d = x.
Proof.
  intros Hx. rewrite (take_S_r _ _ _ Hx), app_assoc. apply List.last_last.
Qed.


(** The path queue is emptied whatever it held and however many paths the
    cycle queued. *)
Lemma process_empties_the_path_queue fftBounds rate
    (fifo : SingleChannelSampleFifo F) (pp : PathProducer F) :
  getNumPathsAvailable
    (pathProducer (snd (PathProducer_process fftBounds rate fifo pp))) = 0%nat.
Proof. rewrite PathProducer_process_closed_form. reflexivity. Qed.
End PathProducerProperties.

Section ResponseCurveProperties.
Context {F : Type} `{Arith F} `{IIRLib F} `{FFTLib F} `{StateLib F}.

(** ** The loop over the columns *)

Lemma fill_S (g : nat -> F) n (v : list F) :
  fold_left (fun mags i => <[i := g i]> mags) (seq 0 (S n)) v
  = <[n := g n]> (fold_left (fun mags i => <[i := g i]> mags) (seq 0 n) v).
Proof. now rewrite seq_S, fold_left_app. Qed.

Lemma fill_length (g : nat -> F) n (v : list F) :
  length (fold_left (fun mags i => <[i := g i]> mags) (seq 0 n) v) = length v.
Proof.
  induction n as [|n IH]; [reflexivity|].
  now rewrite fill_S, length_insert.
Qed.

Lemma fill_lookup (g : nat -> F) n (v : list F) i :
  (i < length v)%nat ->
  fold_left (fun mags i => <[i := g i]> mags) (seq 0 n) v !! i
  = if (i <? n)%nat then Some (g i) else v !! i.
Proof.
  intros Hi. induction n as [|n IH]; [reflexivity|].
  rewrite fill_S.
  destruct (Nat.eq_dec i n) as [->|Hne].
  - rewrite list_lookup_insert_eq by (rewrite fill_length; lia).
    destruct (Nat.ltb_spec n (S n)); [reflexivity|lia].
  - rewrite list_lookup_insert_ne by congruence. rewrite IH.
    destruct (Nat.ltb_spec i n), (Nat.ltb_spec i (S n)); try reflexivity; lia.
Qed.

Lemma computeMags_length (m : MonoChain F) rate w :
  length (computeMags m rate w) = Z.to_nat w.
Proof. unfold computeMags. now rewrite fill_length, length_replicate. Qed.

Lemma computeMags_lookup (m : MonoChain F) rate w i :
  (i < Z.to_nat w)%nat ->
  computeMags m rate w !! i = Some (columnMagnitude m rate w (Z.of_nat i)).
Proof.
  intros Hi. unfold computeMags.
  rewrite fill_lookup by (rewrite length_replicate; lia).
  destruct (Nat.ltb_spec i (Z.to_nat w)); [reflexivity|lia].
Qed.

(** ** The product of the stages *)

Lemma timesMagnitude_fold b (f : Filter F) freq rate mag :
  timesMagnitude b f freq rate mag
  = fold_left mul
      (map snd (List.filter (fun s : bool * F => negb (fst s))
                  [(b, getMagnitudeForFrequency (coefficients f) freq rate)]))
      mag.
Proof. unfold timesMagnitude. destruct b; reflexivity. Qed.

Lemma timesCutMagnitude_fold band (c : CutFilter F) freq rate mag :
  (if negb band then timesCutMagnitude c freq rate mag else mag)
  = fold_left mul
      (map snd
         (List.filter (fun s : bool * F => negb (fst s))
            (map (fun s : bool * Filter F =>
                    (band || fst s,
                     getMagnitudeForFrequency (coefficients (snd s)) freq rate))
               (cutSections c))))
      mag.
Proof.
  unfold timesCutMagnitude, timesMagnitude, cutSections.
  destruct band; [reflexivity|].
  destruct (cutBypassed0 c), (cutBypassed1 c), (cutBypassed2 c), (cutBypassed3 c);
    reflexivity.
Qed.

Lemma columnMagnitude_product (m : MonoChain F) rate w i :
  columnMagnitude m rate w i
  = gainToDecibels (product (activeMagnitudes m (columnFrequency i w) rate))
      defaultMinusInfinitydB.
Proof.
  unfold columnMagnitude, product, activeMagnitudes, chainStages.
  f_equal.
  rewrite (timesCutMagnitude_fold (bypassedHighCut m)).
  rewrite (timesCutMagnitude_fold (bypassedLowCut m)).
  rewrite timesMagnitude_fold.
  rewrite <- !fold_left_app, <- !map_app, <- !List.filter_app.
  reflexivity.
Qed.

Lemma unity_gain_of_bypassed_stages (Hone : forall x : F, (x * one)%fl = x)
    (stages : list (bool * F)) : forall mag,
  fold_left mul (map (fun s : bool * F => if fst s then one else snd s) stages) mag
  = fold_left mul (map snd (List.filter (fun s : bool * F => negb (fst s)) stages)) mag.
Proof.
  induction stages as [|[b g] stages IH]; intros mag; [reflexivity|].
  simpl. destruct b; simpl; [rewrite Hone|]; apply IH.
Qed.

Lemma stageGains_bypassed (m : MonoChain F) freq rate k (b : bool) (g : F) :
  chainStages m freq rate !! k = Some (b, g) ->
  stageGains m freq rate !! k = Some (if b then one else g).
Proof.
  intros Hk. unfold stageGains. now rewrite list_lookup_fmap, Hk.
Qed.

Lemma stageGains_bypassed_bands (m : MonoChain F) freq rate :
  (bypassedPeak m = true -> stageGains m freq rate !! 0%nat = Some one)
  /\ (bypassedLowCut m = true ->
      take 4 (drop 1 (stageGains m freq rate)) = [one; one; one; one])
  /\ (bypassedHighCut m = true ->
      drop 5 (stageGains m freq rate) = [one; one; one; one]).
Proof.
  unfold stageGains, chainStages, cutSections; simpl.
  repeat split; intros ->; reflexivity.
Qed.

(** ** The curve *)

Lemma responseCurve_lookup area (mags : list F) i :
  (i < length mags)%nat ->
  responseCurve area mags !! i
  = Some (curveElement i (of_Z (getX area + Z.of_nat i))
            (responseMap area (default zero (mags !! i)))).
Proof.
  intros Hi. unfold responseCurve.
  destruct i as [|i]; simpl.
  - now rewrite Z.add_0_r.
  - rewrite list_lookup_fmap, lookup_seq_lt by lia. reflexivity.
Qed.

Lemma paint_strokes_curve (c : ResponseCurveComponent F) :
  In (StrokePath responseCurveColor
        (responseCurve (getAnalysisArea c)
           (computeMags (monoChain c) (sampleRate (audioProcessor c))
              (getWidth (getAnalysisArea c)))))
     (paint c).
Proof.
  unfold paint. apply in_or_app. right. apply in_or_app. right.
  simpl. auto.
Qed.

(** ** The timer callback *)

Lemma processAnalysis_frame (c : ResponseCurveComponent F) :
  let c' := processAnalysis c in
  parametersChanged c' = parametersChanged c
  /\ monoChain c' = monoChain c
  /\ shouldShowFFTAnalysis c' = shouldShowFFTAnalysis c
  /\ getLocalBounds c' = getLocalBounds c
  /\ apvts (audioProcessor c') = apvts (audioProcessor c)
  /\ sampleRate (audioProcessor c') = sampleRate (audioProcessor c)
  /\ leftChain (audioProcessor c') = leftChain (audioProcessor c)
  /\ rightChain (audioProcessor c') = rightChain (audioProcessor c).
Proof.
  unfold processAnalysis.
  destruct (PathProducer_process _ _ (leftChannelFifo _) _) as [lf lpp].
  destruct (PathProducer_process _ _ (rightChannelFifo _) _) as [rf rpp].
  repeat split.
Qed.

Lemma timerCallback_chain (c : ResponseCurveComponent F) :
  let c' := timerCallback c in
  parametersChanged c' = false
  /\ repaintPending c' = true
  /\ getLocalBounds c' = getLocalBounds c
  /\ shouldShowFFTAnalysis c' = shouldShowFFTAnalysis c
  /\ apvts (audioProcessor c') = apvts (audioProcessor c)
  /\ sampleRate (audioProcessor c') = sampleRate (audioProcessor c)
  /\ monoChain c'
     = if parametersChanged c
       then updatedChain (getChainSettings (apvts (audioProcessor c)))
              (sampleRate (audioProcessor c)) (monoChain c)
       else monoChain c.
Proof.
  unfold timerCallback.
  set (a := if shouldShowFFTAnalysis c then processAnalysis c else c).
  assert (Ha : parametersChanged a = parametersChanged c
               /\ monoChain a = monoChain c
               /\ shouldShowFFTAnalysis a = shouldShowFFTAnalysis c
               /\ getLocalBounds a = getLocalBounds c
               /\ apvts (audioProcessor a) = apvts (audioProcessor c)
               /\ sampleRate (audioProcessor a) = sampleRate (audioProcessor c)).
  { unfold a. pose proof (processAnalysis_frame c) as Hf. cbn zeta in Hf.
    destruct (shouldShowFFTAnalysis c) eqn:Eshow; [tauto|repeat split; exact Eshow]. }
  destruct Ha as (Hflag & Hchain & Hshow & Hbounds & Hapvts & Hrate).
  rewrite Hflag. unfold compareAndSetBool.
  destruct (parametersChanged c); simpl;
    rewrite ?updateChain_monoChain_updatedChain; simpl;
    rewrite ?Hapvts, ?Hrate, ?Hchain; repeat split; assumption.
Qed.

Lemma timerCallback_disabled (c : ResponseCurveComponent F) :
  shouldShowFFTAnalysis c = false ->
  timerCallback c
  = mkResponseCurveComponent (audioProcessor c) false
      (if parametersChanged c
       then updateChain_monoChain (audioProcessor c) (monoChain c)
       else monoChain c)
      (leftPathProducer c) (rightPathProducer c) false (getLocalBounds c) true.
Proof.
  intros Hoff. unfold timerCallback. rewrite Hoff.
  unfold compareAndSetBool. destruct (parametersChanged c); simpl; now rewrite ?Hoff.
Qed.

(** The audio callback feeds both sample queues, whatever the component's
    analysis switch says. *)
Lemma audioCallback_feeds_queues (c : ResponseCurveComponent F) (buffer : AudioBuffer F) :
  let p := audioProcessor c in
  (2 <= length buffer)%nat ->
  (totalNumOutputChannels p <= length buffer)%nat ->
  (channelToUse (leftChannelFifo p) < length buffer)%nat ->
  (channelToUse (rightChannelFifo p) < length buffer)%nat ->
  exists c' buffer',
    audioCallback buffer c = Some (c', buffer')
    /\ shouldShowFFTAnalysis c' = shouldShowFFTAnalysis c
    /\ leftPathProducer c' = leftPathProducer c
    /\ rightPathProducer c' = rightPathProducer c
    /\ SCSF_update buffer' (leftChannelFifo p) = Some (leftChannelFifo (audioProcessor c'))
    /\ SCSF_update buffer' (rightChannelFifo p) = Some (rightChannelFifo (audioProcessor c'))
    /\ ((getNumCompleteBuffersAvailable (leftChannelFifo p)
         < capacity (audioBufferFifo (leftChannelFifo p)))%nat ->
        getNumCompleteBuffersAvailable (leftChannelFifo (audioProcessor c'))
        = S (getNumCompleteBuffersAvailable (leftChannelFifo p)))
    /\ ((getNumCompleteBuffersAvailable (rightChannelFifo p)
         < capacity (audioBufferFifo (rightChannelFifo p)))%nat ->
        getNumCompleteBuffersAvailable (rightChannelFifo (audioProcessor c'))
        = S (getNumCompleteBuffersAvailable (rightChannelFifo p))).
Proof.
  intros p Htwo Hout Hcl Hcr.
  destruct (processBlock_defined p buffer Htwo Hout Hcl Hcr)
    as (cleared & lb & rb & lf & rf & Hc & E0 & E1 & Hlf & Hrf & Hpb).
  unfold audioCallback. fold p. rewrite Hpb.
  eexists _, _. split; [reflexivity|]. cbn [audioProcessor shouldShowFFTAnalysis
    leftPathProducer rightPathProducer leftChannelFifo rightChannelFifo].
  repeat split; try assumption.
  - intros Hroom. unfold SCSF_update in Hlf.
    destruct (_ !! channelToUse (leftChannelFifo p)) as [samples|]; [|discriminate].
    injection Hlf as <-. unfold getNumCompleteBuffersAvailable, getNumAvailableForReading.
    cbn [audioBufferFifo]. rewrite push_room by exact Hroom.
    cbn [snd unread]. rewrite length_app. simpl. lia.
  - intros Hroom. unfold SCSF_update in Hrf.
    destruct (_ !! channelToUse (rightChannelFifo p)) as [samples|]; [|discriminate].
    injection Hrf as <-. unfold getNumCompleteBuffersAvailable, getNumAvailableForReading.
    cbn [audioBufferFifo]. rewrite push_room by exact Hroom.
    cbn [snd unread]. rewrite length_app. simpl. lia.
Qed.
End ResponseCurveProperties.

Section RepaintProperties.
Context {F : Type} `{Arith F} `{IIRLib F} `{FFTLib F} `{StateLib F}.

(** ** The calls of one [paint] *)

Lemma timesMagnitude_calls_fst b (f : Filter F) freq rate st :
  fst (timesMagnitude_calls b f freq rate st)
  = timesMagnitude b f freq rate (fst st).
Proof. unfold timesMagnitude_calls, timesMagnitude. now destruct b. Qed.

Lemma timesMagnitude_calls_length b (f : Filter F) freq rate st :
  length (snd (timesMagnitude_calls b f freq rate st))
  = (length (snd st) + (if b then 0 else 1))%nat.
Proof.
  unfold timesMagnitude_calls. destruct b; cbn [negb snd]; [lia|].
  now rewrite length_app.
Qed.

Lemma timesCutMagnitude_calls_fst (c : CutFilter F) freq rate st :
  fst (timesCutMagnitude_calls c freq rate st)
  = timesCutMagnitude c freq rate (fst st).
Proof.
  unfold timesCutMagnitude_calls, timesCutMagnitude.
  now rewrite !timesMagnitude_calls_fst.
Qed.

Lemma timesCutMagnitude_calls_length (c : CutFilter F) freq rate st :
  length (snd (timesCutMagnitude_calls c freq rate st))
  = (length (snd st)
     + length (List.filter (fun s : bool * Filter F => negb (fst s)) (cutSections c)))%nat.
Proof.
  unfold timesCutMagnitude_calls, cutSections.
  rewrite !timesMagnitude_calls_length. cbn [List.filter fst].
  destruct (cutBypassed0 c), (cutBypassed1 c), (cutBypassed2 c), (cutBypassed3 c);
    cbn [negb length]; lia.
Qed.

Lemma filter_band_length (band : bool) (mag : Filter F -> F)
    (sections : list (bool * Filter F)) :
  length (List.filter (fun s : bool * F => negb (fst s))
            (map (fun s : bool * Filter F => (band || fst s, mag (snd s))) sections))
  = if band then 0%nat
    else length (List.filter (fun s : bool * Filter F => negb (fst s)) sections).
Proof.
  induction sections as [|[b f] sections IH]; [now destruct band|].
  cbn [map List.filter fst snd]. destruct band; cbn [orb negb] in *; [exact IH|].
  destruct b; cbn [negb length]; now rewrite IH.
Qed.

Lemma activeStages_sum (m : MonoChain F) :
  activeStages m
  = ((if bypassedPeak m then 0 else 1)
     + (if bypassedLowCut m then 0
        else length (List.filter (fun s : bool * Filter F => negb (fst s))
                       (cutSections (LowCut m))))
     + (if bypassedHighCut m then 0
        else length (List.filter (fun s : bool * Filter F => negb (fst s))
                       (cutSections (HighCut m)))))%nat.
Proof.
  unfold activeStages, activeMagnitudes, chainStages.
  rewrite length_map. cbn [List.filter fst].
  assert (Hrest : forall l : list (bool * F),
             length (if negb (bypassedPeak m)
                     then (bypassedPeak m, getMagnitudeForFrequency
                             (coefficients (Peak m)) zero zero)
                          :: List.filter (fun s => negb (fst s)) l
                     else List.filter (fun s => negb (fst s)) l)
             = ((if bypassedPeak m then 0 else 1)
                + length (List.filter (fun s => negb (fst s)) l))%nat)
    by (intros l; now destruct (bypassedPeak m)).
  pose proof (filter_band_length (bypassedLowCut m)
                (fun f => getMagnitudeForFrequency (coefficients f) zero zero)
                (cutSections (LowCut m))) as Hlow.
  pose proof (filter_band_length (bypassedHighCut m)
                (fun f => getMagnitudeForFrequency (coefficients f) zero zero)
                (cutSections (HighCut m))) as Hhigh.
  cbn beta in Hlow, Hhigh.
  rewrite Hrest, List.filter_app, length_app, Hlow, Hhigh. lia.
Qed.

Lemma columnMagnitude_calls_fst (m : MonoChain F) rate w i calls :
  fst (columnMagnitude_calls m rate w i calls) = columnMagnitude m rate w i.
Proof.
  unfold columnMagnitude_calls, columnMagnitude. cbn [fst].
  destruct (bypassedLowCut m), (bypassedHighCut m); cbn [negb];
    now rewrite ?timesCutMagnitude_calls_fst, ?timesMagnitude_calls_fst.
Qed.

Lemma columnMagnitude_calls_length (m : MonoChain F) rate w i calls :
  length (snd (columnMagnitude_calls m rate w i calls))
  = (length calls + activeStages m)%nat.
Proof.
  rewrite activeStages_sum. unfold columnMagnitude_calls. cbn [snd].
  destruct (bypassedLowCut m), (bypassedHighCut m); cbn [negb];
    rewrite ?timesCutMagnitude_calls_length, ?timesMagnitude_calls_length;
    cbn [snd]; lia.
Qed.

Lemma computeMags_calls_S (m : MonoChain F) rate w n
    (st : list F * list (MagnitudeCall (F := F))) :
  fold_left
    (fun st i =>
       let column := columnMagnitude_calls m rate w (Z.of_nat i) (snd st) in
       (<[i := fst column]> (fst st), snd column))
    (seq 0 (S n)) st
  = (let st' := fold_left
                  (fun st i =>
                     let column := columnMagnitude_calls m rate w (Z.of_nat i) (snd st) in
                     (<[i := fst column]> (fst st), snd column))
                  (seq 0 n) st in
     let column := columnMagnitude_calls m rate w (Z.of_nat n) (snd st') in
     (<[n := fst column]> (fst st'), snd column)).
Proof. now rewrite seq_S, fold_left_app. Qed.

Lemma computeMags_calls_run (m : MonoChain F) rate w n
    (st : list F * list (MagnitudeCall (F := F))) :
  let st' := fold_left
               (fun st i =>
                  let column := columnMagnitude_calls m rate w (Z.of_nat i) (snd st) in
                  (<[i := fst column]> (fst st), snd column))
               (seq 0 n) st in
  fst st'
  = fold_left (fun mags i => <[i := columnMagnitude m rate w (Z.of_nat i)]> mags)
      (seq 0 n) (fst st)
  /\ length (snd st') = (length (snd st) + n * activeStages m)%nat.
Proof.
  induction n as [|n IH]; [cbn; split; [reflexivity|lia]|].
  cbn zeta in *. rewrite computeMags_calls_S. cbn zeta. cbn [fst snd].
  destruct IH as [IHm IHc].
  rewrite columnMagnitude_calls_fst, columnMagnitude_calls_length, IHm, IHc.
  split; [now rewrite fill_S|lia].
Qed.

Lemma computeMags_calls_spec (m : MonoChain F) rate w :
  fst (computeMags_calls m rate w) = computeMags m rate w
  /\ length (snd (computeMags_calls m rate w)) = (Z.to_nat w * activeStages m)%nat.
Proof.
  unfold computeMags_calls, computeMags.
  destruct (computeMags_calls_run m rate w (Z.to_nat w)
              (replicate (Z.to_nat w) zero, [])) as [Hm Hc].
  cbn zeta in Hm, Hc. cbn [fst snd length] in Hm, Hc.
  split; [exact Hm|]. rewrite Hc. lia.
Qed.

Lemma activeStages_peak (m : MonoChain F) :
  bypassedPeak m = false -> (1 <= activeStages m)%nat.
Proof. intros Hpeak. rewrite activeStages_sum, Hpeak. lia. Qed.

(** ** The steps of the timer callback *)

Lemma timerCallback_steps (c : ResponseCurveComponent F) :
  timerCallback c
  = repaint (if fst (testAndClear (analyse c))
             then updateChain (snd (testAndClear (analyse c)))
             else snd (testAndClear (analyse c))).
Proof.
  unfold timerCallback, testAndClear, analyse.
  destruct (compareAndSetBool false true _) as [swapped flag]. reflexivity.
Qed.

Lemma timerCallback_run (c : ResponseCurveComponent F) (n : nat) :
  (shouldShowFFTAnalysis c = true -> blocksFit c) ->
  rtc step (mkThreads c Idle n) (mkThreads (timerCallback c) Idle n).
Proof.
  intros Hfit. rewrite timerCallback_steps.
  eapply rtc_l; [apply step_analyse; exact Hfit|].
  eapply rtc_l; [apply step_test|].
  destruct (fst (testAndClear (analyse c))).
  - eapply rtc_l; [apply step_update|]. apply rtc_once, step_repaint.
  - apply rtc_once, step_repaint.
Qed.

Lemma chainCurrent_frame (c c' : ResponseCurveComponent F) :
  apvts (audioProcessor c') = apvts (audioProcessor c) ->
  sampleRate (audioProcessor c') = sampleRate (audioProcessor c) ->
  monoChain c' = monoChain c ->
  chainCurrent c -> chainCurrent c'.
Proof.
  unfold chainCurrent. rewrite !updateChain_monoChain_updatedChain.
  intros -> -> -> Hcur. exact Hcur.
Qed.

Lemma updateChain_current (c : ResponseCurveComponent F) :
  chainCurrent (updateChain c).
Proof.
  unfold chainCurrent, updateChain. cbn [monoChain audioProcessor].
  rewrite !updateChain_monoChain_updatedChain.
  now rewrite updatedChain_idempotent.
Qed.

Lemma analyse_frame (c : ResponseCurveComponent F) :
  parametersChanged (analyse c) = parametersChanged c
  /\ monoChain (analyse c) = monoChain c
  /\ apvts (audioProcessor (analyse c)) = apvts (audioProcessor c)
  /\ sampleRate (audioProcessor (analyse c)) = sampleRate (audioProcessor c).
Proof.
  unfold analyse. pose proof (processAnalysis_frame c) as Hf. cbn zeta in Hf.
  destruct (shouldShowFFTAnalysis c); tauto.
Qed.

Lemma step_noLostChange (s s' : Threads F) :
  step s s' -> noLostChange s -> noLostChange s'.
Proof.
  intros Hstep. destruct Hstep as [a c ph n|c ph n|c n Hfit|c n|c n|c n];
    unfold noLostChange; cbn [component phase inFlight]; intros Hinv.
  - left. lia.
  - right. left. reflexivity.
  - destruct (analyse_frame c) as (Hflag & Hchain & Hapvts & Hrate).
    rewrite Hflag.
    destruct Hinv as [Hn|[Hset|[Hphase|Hcur]]]; [tauto|tauto|discriminate|].
    do 3 right. now apply (chainCurrent_frame c).
  - unfold testAndClear, compareAndSetBool.
    destruct (parametersChanged c) eqn:Eflag; cbn [Bool.eqb fst snd parametersChanged].
    + right. right. left. reflexivity.
    + destruct Hinv as [Hn|[Hset|[Hphase|Hcur]]];
        [tauto|discriminate|discriminate|].
      do 3 right. now apply (chainCurrent_frame c).
  - do 3 right. apply updateChain_current.
  - destruct Hinv as [Hn|[Hset|[Hphase|Hcur]]]; [tauto|tauto|discriminate|].
    do 3 right. now apply (chainCurrent_frame c).
Qed.

Lemma steps_noLostChange (s s' : Threads F) :
  rtc step s s' -> noLostChange s -> noLostChange s'.
Proof.
  intros Hsteps Hinv. induction Hsteps as [|s s1 s' Hstep _ IH]; [exact Hinv|].
  apply IH. now apply (step_noLostChange s).
Qed.

Lemma step_chain (s s' : Threads F) :
  step s s' ->
  monoChain (component s') = monoChain (component s)
  \/ (phase s = Swapped /\ component s' = updateChain (component s)).
Proof.
  intros Hstep. destruct Hstep as [a c ph n|c ph n|c n Hfit|c n|c n|c n];
    cbn [component phase].
  - left. reflexivity.
  - left. reflexivity.
  - left. apply analyse_frame.
  - left. unfold testAndClear.
    now destruct (compareAndSetBool false true (parametersChanged c)).
  - right. split; reflexivity.
  - left. reflexivity.
Qed.

Lemma step_swapped (s s' : Threads F) :
  step s s' -> phase s' = Swapped -> phase s <> Swapped ->
  phase s = Analysed
  /\ parametersChanged (component s) = true
  /\ parametersChanged (component s') = false.
Proof.
  intros Hstep. destruct Hstep as [a c ph n|c ph n|c n Hfit|c n|c n|c n];
    cbn [component phase]; try congruence.
  unfold testAndClear, compareAndSetBool.
  destruct (parametersChanged c); cbn [Bool.eqb fst snd parametersChanged];
    intros; [auto|discriminate].
Qed.
End RepaintProperties.

Section ResponseCurveClaims.
Context {F : Type} `{Arith F} `{IIRLib F} `{FFTLib F} `{StateLib F}.

(** C1: for a response area W pixels wide, [paint] computes for every
    column i below W the frequency [mapToLog10 (i / W, 20, 20000)] and
    the product of the magnitude responses at that frequency of the
    stages that are not bypassed (the peak stage and the sections of the
    two cut bands); a bypassed stage, and every stage of a bypassed band,
    contributes the gain 1.  The product is converted to decibels and
    mapped by the affine map that sends -24 dB to the bottom and +24 dB
    to the top of the response area. *)
Theorem response_curve_is_product_of_stage_gains (c : ResponseCurveComponent F) :
  (forall x : F, (x * one)%fl = x) ->
  let area := getAnalysisArea c in
  let w := getWidth area in
  let rate := sampleRate (audioProcessor c) in
  let m := monoChain c in
  let mags := computeMags m rate w in
  let curve := responseCurve area mags in
  length mags = Z.to_nat w
  /\ (forall i, (i < Z.to_nat w)%nat ->
        let freq := mapToLog10 (of_Z (Z.of_nat i) / of_Z w)%fl (of_Z 20) (of_Z 20000) in
        let gain := product (stageGains m freq rate) in
        let dB := gainToDecibels gain (of_Z (-100)) in
        gain = product (activeMagnitudes m freq rate)
        /\ mags !! i = Some dB
        /\ curve !! i
           = Some (curveElement i (of_Z (getX area + Z.of_nat i))
                     (jmap dB (of_Z (-24)) (of_Z 24)
                        (of_Z (getBottom area)) (of_Z (getY area)))))
  /\ (forall freq,
        (forall k (b : bool) (g : F),
            chainStages m freq rate !! k = Some (b, g) ->
            stageGains m freq rate !! k = Some (if b then one else g))
        /\ (bypassedPeak m = true -> stageGains m freq rate !! 0%nat = Some one)
        /\ (bypassedLowCut m = true ->
            take 4 (drop 1 (stageGains m freq rate)) = [one; one; one; one])
        /\ (bypassedHighCut m = true ->
            drop 5 (stageGains m freq rate) = [one; one; one; one]))
  /\ In (StrokePath responseCurveColor curve) (paint c).
Proof.
  intros Hone area w rate m mags curve.
  split; [apply computeMags_length|].
  split; [|split; [|apply paint_strokes_curve]].
  - intros i Hi freq gain dB.
    assert (Hgain : gain = product (activeMagnitudes m freq rate))
      by (apply (unity_gain_of_bypassed_stages Hone)).
    assert (Hmag : mags !! i = Some dB).
    { unfold mags. rewrite computeMags_lookup by exact Hi.
      rewrite columnMagnitude_product. unfold dB. now rewrite Hgain. }
    split; [exact Hgain|]. split; [exact Hmag|].
    unfold curve.
    rewrite responseCurve_lookup by (unfold mags; rewrite computeMags_length; exact Hi).
    now rewrite Hmag.
  - intros freq. split; [intros k b g; apply stageGains_bypassed|].
    apply stageGains_bypassed_bands.
Qed.

(** C2, as the code has it: while the analysis switch is off, the timer
    callback runs neither path producer, so nothing is pulled from the
    sample queues, no frame and no path is produced, queued or pulled, and
    no analyser path is drawn, while the chain of the response curve is
    still kept up to date and the curve is still drawn.  The audio
    callback does not look at the switch: it filters the block and pushes
    it into both sample queues as it does when the switch is on. *)
Theorem analysis_switch_stops_the_consumer_only
    (c : ResponseCurveComponent F) (buffer : AudioBuffer F) :
  shouldShowFFTAnalysis c = false ->
  let p := audioProcessor c in
  let c' := timerCallback c in
  (audioProcessor c' = p
   /\ leftPathProducer c' = leftPathProducer c
   /\ rightPathProducer c' = rightPathProducer c
   /\ paint_fft c' = []
   /\ monoChain c'
      = (if parametersChanged c
         then updatedChain (getChainSettings (apvts p)) (sampleRate p) (monoChain c)
         else monoChain c)
   /\ In (StrokePath responseCurveColor
            (responseCurve (getAnalysisArea c')
               (computeMags (monoChain c') (sampleRate p)
                  (getWidth (getAnalysisArea c')))))
         (paint c'))
  /\ ((2 <= length buffer)%nat ->
      (totalNumOutputChannels p <= length buffer)%nat ->
      (channelToUse (leftChannelFifo p) < length buffer)%nat ->
      (channelToUse (rightChannelFifo p) < length buffer)%nat ->
      exists c1 buffer',
        audioCallback buffer c = Some (c1, buffer')
        /\ shouldShowFFTAnalysis c1 = false
        /\ processBlock p buffer = Some (audioProcessor c1, buffer')
        /\ SCSF_update buffer' (leftChannelFifo p)
           = Some (leftChannelFifo (audioProcessor c1))
        /\ SCSF_update buffer' (rightChannelFifo p)
           = Some (rightChannelFifo (audioProcessor c1))
        /\ ((getNumCompleteBuffersAvailable (leftChannelFifo p)
             < capacity (audioBufferFifo (leftChannelFifo p)))%nat ->
            getNumCompleteBuffersAvailable (leftChannelFifo (audioProcessor c1))
            = S (getNumCompleteBuffersAvailable (leftChannelFifo p)))
        /\ ((getNumCompleteBuffersAvailable (rightChannelFifo p)
             < capacity (audioBufferFifo (rightChannelFifo p)))%nat ->
            getNumCompleteBuffersAvailable (rightChannelFifo (audioProcessor c1))
            = S (getNumCompleteBuffersAvailable (rightChannelFifo p)))).
Proof.
  intros Hoff p c'. split.
  - pose proof (paint_strokes_curve c') as Hpaint.
    unfold c' in *. rewrite (timerCallback_disabled c Hoff) in *.
    repeat split; exact Hpaint.
  - intros Htwo Hout Hcl Hcr.
    destruct (audioCallback_feeds_queues c buffer Htwo Hout Hcl Hcr)
      as (c1 & buffer' & Hcb & Hshow & _ & _ & Hlf & Hrf & Hl & Hr).
    exists c1, buffer'. rewrite Hshow, Hoff.
    repeat split; try assumption.
    unfold audioCallback in Hcb. fold p in Hcb.
    destruct (processBlock p buffer) as [[p1 b1]|]; [|discriminate].
    now injection Hcb as <- <-.
Qed.

End ResponseCurveClaims.

(** * Concrete runs over the real numbers *)

Module Runs.
Import RealModel.
Local Open Scope R_scope.

Lemma R_mul_one (x : R) : mul x one = x.
Proof. apply Rmult_1_r. Qed.

Lemma Rltb_true (x y : R) : x < y -> Rltb x y = true.
Proof. intros Hlt. unfold Rltb. destruct (Rlt_dec x y); [reflexivity|contradiction]. Qed.

Lemma ln_10_pos : 0 < ln 10.
Proof. rewrite <- ln_1. apply ln_increasing; lra. Qed.

(** Unity gain is 0 dB. *)
Lemma gainToDecibels_unity : gainToDecibels (one : R) (of_Z (-100)) = 0.
Proof.
  unfold gainToDecibels, jmax, zero, one; simpl.
  rewrite Rltb_true by lra.
  rewrite ln_1. replace (0 / ln 10 * 20) with 0 by (unfold Rdiv; ring).
  now rewrite Rltb_true by lra.
Qed.

(** The map of [paint] sends -24 dB to the bottom of the response area and
    +24 dB to its top. *)
Lemma responseMap_ends (area : Rectangle Z) :
  responseMap area (-24) = IZR (getBottom area)
  /\ responseMap area 24 = IZR (getY area).
Proof.
  unfold responseMap, jmap; simpl. split; field.
Qed.

Lemma analysisArea0 :
  getAnalysisArea component0 = mkRectangle 20%Z 16%Z 560%Z 96%Z.
Proof. reflexivity. Qed.

(** A run of C1: with the three bands bypassed every stage contributes the
    gain 1, and the first and the last of the 560 columns are at 0 dB. *)
Lemma bypassed_component_is_flat :
  let mags := computeMags (monoChain bypassedComponent) 48000 560 in
  length mags = 560%nat
  /\ mags !! 0%nat = Some 0
  /\ mags !! 559%nat = Some 0.
Proof.
  destruct (response_curve_is_product_of_stage_gains bypassedComponent R_mul_one)
    as (Hlen & Hcol & _).
  assert (Hflat : forall freq,
             product (stageGains (monoChain bypassedComponent) freq 48000) = 1).
  { intros freq. unfold product, stageGains, chainStages; simpl. ring. }
  split; [exact Hlen|].
  split.
  - destruct (Hcol 0%nat) as (_ & Hmag & _); [change (0 < 560)%nat; lia|].
    cbn zeta in Hmag. rewrite Hflat in Hmag.
    rewrite <- gainToDecibels_unity. exact Hmag.
  - destruct (Hcol 559%nat) as (_ & Hmag & _); [change (559 < 560)%nat; lia|].
    cbn zeta in Hmag. rewrite Hflat in Hmag.
    rewrite <- gainToDecibels_unity. exact Hmag.
Defined.
Lemma Rltb_false (x y : R) : ~ x < y -> Rltb x y = false.
Proof. intros Hge. unfold Rltb. destruct (Rlt_dec x y); [contradiction|reflexivity]. Qed.

(** A run of C4: one stereo block through the freshly built processor
    gives both chains the peak design for the stored 750 Hz, quality 1
    and 0 dB; the same block after the store's entry for the peak
    bypass was set to 1 leaves the peak band bypassed. *)
Lemma processBlock_run :
  let bypassedStore : @APVTS R R_StateLib :=
    ("Peak Bypassed"%string, 1) :: defaultParameters in
  exists p' buffer' q' buffer'',
    processBlock processor0 stereoBlock = Some (p', buffer')
    /\ coefficients (Peak (leftChain p'))
       = R_makePeakFilter 48000 750 1 (decibelsToGain 0)
    /\ coefficients (Peak (rightChain p'))
       = R_makePeakFilter 48000 750 1 (decibelsToGain 0)
    /\ bypassedPeak (leftChain p') = false
    /\ processBlock (set_apvts bypassedStore processor0) stereoBlock
       = Some (q', buffer'')
    /\ bypassedPeak (leftChain q') = true.
Proof.
  intros bypassedStore.
  destruct (processBlock_recomputes_coefficients processor0 stereoBlock)
    as (p' & buffer' & cleared & lb & rb & Hpb & _ & _ & _ & Hrest);
    [simpl; lia | simpl; lia | simpl; lia | simpl; lia |].
  cbn zeta in Hrest.
  destruct Hrest as (_ & _ & _ & _ & _ & _ & _ & _ & _ & _ & _ & _ & _ & _ & _ & _
                     & _ & _ & Hpeak & Hright & Hflag & _).
  destruct (processBlock_recomputes_coefficients
              (set_apvts bypassedStore processor0) stereoBlock)
    as (q' & buffer'' & cleared' & lb' & rb' & Hqb & _ & _ & _ & Hrest);
    [simpl; lia | simpl; lia | simpl; lia | simpl; lia |].
  cbn zeta in Hrest.
  destruct Hrest as (_ & _ & _ & _ & _ & _ & _ & _ & _ & _ & _ & _ & _ & _ & _ & _
                     & _ & _ & _ & _ & Hflag' & _).
  exists p', buffer', q', buffer''.
  split; [exact Hpb|]. split; [exact Hpeak|].
  split; [rewrite Hright; exact Hpeak|].
  split; [rewrite Hflag; apply Rltb_false; change (~ 1 / 2 < 0); lra|].
  split; [exact Hqb|].
  rewrite Hflag'. apply Rltb_true. change (1 / 2 < 1). lra.
Defined.

(** A run of C6: the first pass of a generator of order 2048 over a
    window of silence. *)
Lemma produceFFTData_run :
  let g := leftChannelFFTDataGenerator newPathProducer in
  let g' := produceFFTDataForRendering (replicate 2048 0) (of_Z (-48)) g in
  length (fftData g') = 4096%nat
  /\ unread (fftDataFifo g') = [fftData g'].
Proof.
  intros g g'.
  destruct (produceFFTData_frame_bins (replicate 2048 0) g)
    as (_ & Hlen & _ & _ & _ & Hpush).
  - apply length_replicate.
  - apply length_replicate.
  - split; [exact Hlen|]. apply Hpush.
    change (0 < 4096)%nat. lia.
Defined.


(** A run of C9: the mono layout is accepted, and a mono block makes
    [processBlock] read a channel the buffer does not have. *)
Lemma mono_block_run :
  processBlock processor0 monoBlock = None
  /\ isBusesLayoutSupported false false
       (mkBusesLayout AudioChannelSet_mono AudioChannelSet_mono) = true.
Proof.
  destruct (mono_layout_accepted_but_processBlock_needs_two_channels
              false false processor0 monoBlock) as (Hnone & Hok & _);
    [simpl; lia|].
  split; assumption.
Defined.

(** A run of C10: a blob of odd length is no tree and leaves the
    processor as it is; the blob that sets the peak gain to 6 dB replaces
    the state. *)
Lemma setStateInformation_run :
  setStateInformation [Byte.x03] processor0 = processor0
  /\ getRawParameterValue
       (apvts (setStateInformation [Byte.x03; Byte.x06] processor0))
       "Peak Gain" = 6.
Proof.
  destruct (setStateInformation_replaces_only_on_valid_tree [Byte.x03] processor0)
    as [Hinvalid _].
  destruct (setStateInformation_replaces_only_on_valid_tree
              [Byte.x03; Byte.x06] processor0) as [_ Hvalid].
  split.
  - apply Hinvalid. reflexivity.
  - destruct Hvalid as (Hapvts & _); [reflexivity|].
    rewrite Hapvts. reflexivity.
Defined.
(** The claim C2 fails on the producer side: with the analyser switched
    off, and both sample queues empty, one audio callback leaves a buffer
    in each sample queue. *)
Lemma switched_off_analyser_still_fills_the_sample_queues :
  shouldShowFFTAnalysis silentComponent = false
  /\ getNumCompleteBuffersAvailable (leftChannelFifo (audioProcessor silentComponent)) = 0%nat
  /\ getNumCompleteBuffersAvailable (rightChannelFifo (audioProcessor silentComponent)) = 0%nat
  /\ exists c1 buffer',
       audioCallback stereoBlock silentComponent = Some (c1, buffer')
       /\ shouldShowFFTAnalysis c1 = false
       /\ getNumCompleteBuffersAvailable (leftChannelFifo (audioProcessor c1)) = 1%nat
       /\ getNumCompleteBuffersAvailable (rightChannelFifo (audioProcessor c1)) = 1%nat.
Proof.
  split; [reflexivity|]. split; [reflexivity|]. split; [reflexivity|].
  destruct (audioCallback_feeds_queues silentComponent stereoBlock)
    as (c1 & buffer' & Hcb & Hshow & _ & _ & _ & _ & Hl & Hr);
    [simpl; lia | simpl; lia | simpl; lia | simpl; lia |].
  exists c1, buffer'. split; [exact Hcb|]. split; [exact Hshow|].
  split; [apply Hl | apply Hr]; change (0 < 30)%nat; lia.
Qed.

(** A run of C2 as amended: the timer callback of the switched-off
    component touches neither the processor nor a path producer, and the
    audio callback goes through. *)
Lemma switched_off_run :
  audioProcessor (timerCallback silentComponent) = processor0
  /\ leftPathProducer (timerCallback silentComponent) = newPathProducer
  /\ rightPathProducer (timerCallback silentComponent) = newPathProducer
  /\ paint_fft (timerCallback silentComponent) = []
  /\ exists c1 buffer', audioCallback stereoBlock silentComponent = Some (c1, buffer').
Proof.
  destruct (analysis_switch_stops_the_consumer_only silentComponent stereoBlock)
    as [(Hp & Hl & Hr & Hfft & _) Haudio]; [reflexivity|].
  split; [exact Hp|]. split; [exact Hl|]. split; [exact Hr|]. split; [exact Hfft|].
  destruct Haudio as (c1 & buffer' & Hcb & _);
    [simpl; lia | simpl; lia | simpl; lia | simpl; lia |].
  exists c1, buffer'. exact Hcb.
Defined.

Lemma component0_fits : blocksFit component0.
Proof. split; constructor. Qed.

Lemma component0_peak_is_on : bypassedPeak (monoChain component0) = false.
Proof.
  change (Rltb (1 / 2) 0 = false). apply Rltb_false. lra.
Qed.



(** The claim C6 fails on the frame that is pushed: the first pass of a
    generator of order 2048, N = 2048, queues a frame of 4096 values, not
    of N/2 = 1024; the value at index 1024 is the one the transform left
    there. *)
Lemma pushed_frame_is_the_whole_work_array :
  let g := leftChannelFFTDataGenerator newPathProducer in
  let g' := produceFFTDataForRendering (replicate 2048 0) (of_Z (-48)) g in
  let windowed :=
    multiplyWithWindowingTable 2048 (replicate 2048 0 ++ replicate 2048 zero) 2048 in
  getFFTSize g = 2048%Z
  /\ unread (fftDataFifo g') = [fftData g']
  /\ length (fftData g') = 4096%nat
  /\ fftData g' !! 1024%nat = Some (fftMagnitude 11 windowed 1024).
Proof.
  intros g g' windowed.
  destruct (produceFFTData_tail (replicate 2048 0) (of_Z (-48)) g)
    as (Hlen & Hfifo & Htail).
  fold g' in Hlen, Hfifo, Htail.
  assert (Hcopy : std_copy (replicate 2048 0) (Z.to_nat (getFFTSize g))
                    (replicate (length (fftData g)) zero)
                  = replicate 2048 0 ++ replicate 2048 zero).
  { change (Z.to_nat (getFFTSize g)) with 2048%nat.
    change (fftData g) with (replicate 4096 (zero : R)).
    unfold std_copy. rewrite length_replicate.
    rewrite take_ge by (rewrite length_replicate; lia).
    now rewrite drop_replicate. }
  rewrite Hcopy in Hlen, Htail.
  change (Z.to_nat (getFFTSize g)) with 2048%nat in Hlen, Htail.
  fold windowed in Hlen, Htail.
  assert (Hwin : length windowed = 4096%nat).
  { unfold windowed.
    now rewrite multiplyWithWindowingTable_length, length_app, !length_replicate. }
  rewrite Hwin in Hlen, Htail.
  split; [reflexivity|]. split; [|split; [exact Hlen|]].
  - rewrite Hfifo. reflexivity.
  - apply (Htail 1024%nat).
    change (Z.to_nat (Z.quot (getFFTSize g) 2)) with 1024%nat. lia.
Qed.

Lemma at_index_replicate (n : nat) (v : R) (i : Z) :
  (Z.to_nat i < n)%nat -> at_index (replicate n v) i = v.
Proof.
  intros Hi. unfold at_index. now rewrite lookup_replicate_2.
Qed.


Lemma visitedBins_first (numBins : Z) :
  (2 <= numBins)%Z -> exists rest, visitedBins numBins = 1%Z :: rest.
Proof.
  intros Hge. unfold visitedBins.
  assert (1 <= numBins / 2)%Z by (apply Z.div_le_lower_bound; lia).
  destruct (Z.to_nat (numBins / 2)) as [|n] eqn:En; [lia|].
  simpl. eauto.
Qed.

Lemma low_bin_is_left_of_the_axis (binWidth width : R) :
  0 < binWidth < 20 -> 0 < width ->
  IZR (floorZ (mapFromLog10 (of_Z 1 * binWidth)%fl (of_Z 20) (of_Z 20000) * width)%fl) < 0.
Proof.
  intros [Hpos Hlow] Hwidth. simpl.
  unfold mapFromLog10; simpl. rewrite Rmult_1_l.
  pose proof ln_10_pos as Hten.
  assert (Ha : ln binWidth < ln 20) by (apply ln_increasing; lra).
  assert (Hb : ln 20 < ln 20000) by (apply ln_increasing; lra).
  assert (Hi : 0 < / ln 10) by (apply Rinv_0_lt_compat; exact Hten).
  assert (Hnum : ln binWidth / ln 10 - ln 20 / ln 10 < 0)
    by (unfold Rdiv; nra).
  assert (Hden : 0 < ln 20000 / ln 10 - ln 20 / ln 10)
    by (unfold Rdiv; nra).
  assert (Hinv : 0 < / (ln 20000 / ln 10 - ln 20 / ln 10))
    by (apply Rinv_0_lt_compat; exact Hden).
  set (n := ln binWidth / ln 10 - ln 20 / ln 10) in *.
  set (d := ln 20000 / ln 10 - ln 20 / ln 10) in *.
  assert (Hq : n * / d < 0) by nra.
  assert (Hneg : n / d * width < 0) by (unfold Rdiv; nra).
  destruct (base_Int_part (n / d * width)) as [Hfloor _].
  lra.
Qed.

(** The claim C7 fails on the bins below 20 Hz: at a sample rate of
    22050 Hz bin 1 of the 2048-point transform lies at 10.77 Hz, and
    [generatePath] adds its point to the path all the same, left of the
    axis. *)
Lemma bin_below_20Hz_is_not_skipped :
  let binWidth := 22050 / 2048 in
  let fftBounds := toFloat (getAnalysisArea component0) in
  let renderData := replicate 4096 (-48) in
  let path := generatedPath renderData fftBounds 2048 binWidth (-48) in
  exists x y,
    path !! 1%nat = Some (LineTo x y)
    /\ x = of_Z (floorZ (mapFromLog10 (of_Z 1 * binWidth)%fl (of_Z 20) (of_Z 20000)
                         * getWidth fftBounds)%fl)
    /\ (of_Z 1 * binWidth)%fl < 20
    /\ x < 0.
Proof.
  intros binWidth fftBounds renderData path.
  destruct (visitedBins_first (Z.quot 2048 2)) as [rest Hbins];
    [now vm_compute|].
  eexists _, _. split; [|split; [reflexivity|split]].
  - unfold path. rewrite generatedPath_bins, Hbins. reflexivity.
  - change (1 * (22050 / 2048) < 20). lra.
  - apply low_bin_is_left_of_the_axis.
    + unfold binWidth. lra.
    + change (0 < 560). lra.
Qed.
End Runs.

(** * Further properties of the processor *)

Section ProcessorCoverage.
Context {F : Type} `{Arith F} `{IIRLib F} `{StateLib F}.

(** ** The clearing loop of [processBlock] *)

Lemma clearChannel_lookup i (b b' : AudioBuffer F) j :
  clearChannel i b = Some b' ->
  b' !! j = if decide (j = i)
            then (fun samples => replicate (length samples) zero) <$> (b !! j)
            else b !! j.
Proof.
  unfold clearChannel. destruct (b !! i) as [samples|] eqn:E; [|discriminate].
  intros [= <-]. destruct (decide (j = i)) as [->|Hne].
  - rewrite list_lookup_insert_eq by (eapply lookup_lt_Some; eauto).
    now rewrite E.
  - now rewrite list_lookup_insert_ne by congruence.
Qed.

Lemma clearChannels_lookup n : forall i (b b' : AudioBuffer F) j,
  clearChannels n i b = Some b' ->
  b' !! j = if decide (i <= j < i + n)%nat
            then (fun samples => replicate (length samples) zero) <$> (b !! j)
            else b !! j.
Proof.
  induction n as [|n IH]; simpl; intros i b b' j Hc.
  - injection Hc as <-. destruct (decide (i <= j < i + 0)%nat); [lia|reflexivity].
  - destruct (clearChannel i b) as [b1|] eqn:E; [|discriminate].
    rewrite (IH _ _ _ j Hc), (clearChannel_lookup _ _ _ j E).
    destruct (decide (S i <= j < S i + n)%nat), (decide (j = i)),
      (decide (i <= j < i + S n)%nat); try lia; reflexivity.
Qed.

Lemma clearChannels_undefined n : forall i (b : AudioBuffer F),
  (n <> 0)%nat -> (length b < i + n)%nat -> clearChannels n i b = None.
Proof.
  induction n as [|n IH]; intros i b Hn Hlen; [lia|].
  simpl. destruct (clearChannel i b) as [b1|] eqn:E; [|reflexivity].
  pose proof (clearChannel_length _ _ _ E) as Hb1.
  destruct n as [|n].
  - unfold clearChannel in E. destruct (b !! i) eqn:Ei; [|discriminate].
    apply lookup_lt_Some in Ei. lia.
  - apply IH; lia.
Qed.

(** X2: the loop that clears the output channels without input, channels
    [from] to [from + count - 1], is defined exactly when these channels
    exist; it keeps the number of channels and the length of every
    channel, writes zeros over the channels of the range and leaves every
    other channel as it was. *)
Theorem clearing_loop_zeroes_its_range_only
    (count from : nat) (buffer : AudioBuffer F) :
  (count = 0 \/ from + count <= length buffer)%nat ->
  exists cleared,
    clearChannels count from buffer = Some cleared
    /\ length cleared = length buffer
    /\ (forall j samples, buffer !! j = Some samples ->
          (from <= j < from + count)%nat ->
          cleared !! j = Some (replicate (length samples) zero))
    /\ (forall j, ~ (from <= j < from + count)%nat -> cleared !! j = buffer !! j)
    /\ (count = 0%nat -> cleared = buffer).
Proof.
  intros Hrange.
  destruct (clearChannels_defined count from buffer) as [cleared Hc]; [lia|].
  exists cleared. split; [exact Hc|].
  split; [eapply clearChannels_length; eauto|].
  split; [|split].
  - intros j samples Hj Hin. rewrite (clearChannels_lookup _ _ _ _ j Hc), Hj.
    destruct (decide (from <= j < from + count)%nat); [reflexivity|lia].
  - intros j Hout. rewrite (clearChannels_lookup _ _ _ _ j Hc).
    destruct (decide (from <= j < from + count)%nat); [lia|reflexivity].
  - intros ->. simpl in Hc. congruence.
Qed.

(** X3: when [processBlock] succeeds it returns a buffer with as many
    channels as it was given; only channels 0 and 1 are filtered, every
    further channel is returned as the clearing loop left it; and it can
    succeed only on a buffer that has the output channels the clearing
    loop writes. *)
Theorem processBlock_filters_two_channels_only
    (p p' : ZooEQAudioProcessor F) (buffer buffer' : AudioBuffer F) :
  processBlock p buffer = Some (p', buffer') ->
  length buffer' = length buffer
  /\ (totalNumInputChannels p < totalNumOutputChannels p ->
      totalNumOutputChannels p <= length buffer)%nat
  /\ (forall j, (2 <= j)%nat ->
        buffer' !! j
        = if decide (totalNumInputChannels p <= j < totalNumOutputChannels p)%nat
          then (fun samples => replicate (length samples) zero) <$> (buffer !! j)
          else buffer !! j)
  /\ apvts p' = apvts p
  /\ sampleRate p' = sampleRate p
  /\ totalNumInputChannels p' = totalNumInputChannels p
  /\ totalNumOutputChannels p' = totalNumOutputChannels p.
Proof.
  unfold processBlock. intros Hpb.
  destruct (clearChannels _ _ buffer) as [cleared|] eqn:Hc; [|discriminate].
  destruct (cleared !! 0%nat) as [lb|] eqn:E0; [|discriminate].
  destruct (cleared !! 1%nat) as [rb|] eqn:E1; [|discriminate].
  destruct (MonoChain_process (leftChain (updateFilters p)) lb) as [l lo].
  destruct (MonoChain_process (rightChain (updateFilters p)) rb) as [r ro].
  destruct (SCSF_update _ _) as [lf|]; [|discriminate].
  destruct (SCSF_update _ _) as [rf|]; [|discriminate].
  injection Hpb as <- <-.
  pose proof (clearChannels_length _ _ _ _ Hc) as Hlen.
  split; [now rewrite !length_insert|].
  split.
  { intros Hlt.
    destruct (le_lt_dec (totalNumOutputChannels p) (length buffer)) as [Hle|Hgt];
      [exact Hle|].
    rewrite clearChannels_undefined in Hc by lia. discriminate. }
  split; [|repeat split].
  intros j Hj. rewrite !list_lookup_insert_ne by lia.
  rewrite (clearChannels_lookup _ _ _ _ j Hc).
  destruct (decide (totalNumInputChannels p <= j
                    < totalNumInputChannels p
                      + (totalNumOutputChannels p - totalNumInputChannels p))%nat),
    (decide (totalNumInputChannels p <= j < totalNumOutputChannels p)%nat);
    try lia; reflexivity.
Qed.

(** ** Recomputing the filters *)

Lemma updateFilters_as_record (p : ZooEQAudioProcessor F) :
  updateFilters p
  = mkProcessor (apvts p) (sampleRate p) (totalNumInputChannels p)
      (totalNumOutputChannels p)
      (updatedChain (getChainSettings (apvts p)) (sampleRate p) (leftChain p))
      (updatedChain (getChainSettings (apvts p)) (sampleRate p) (rightChain p))
      (leftChannelFifo p) (rightChannelFifo p).
Proof. reflexivity. Qed.

(** X4: [updateFilters] is idempotent: run again on unchanged parameters
    it changes nothing, neither a coefficient nor a bypass flag nor a
    delay register. *)
Theorem updateFilters_idempotent (p : ZooEQAudioProcessor F) :
  updateFilters (updateFilters p) = updateFilters p.
Proof.
  rewrite (updateFilters_as_record (updateFilters p)).
  rewrite (updateFilters_as_record p). simpl.
  now rewrite !updatedChain_idempotent.
Qed.

Lemma updateSection_coefficients_settled coeffs slope i (f f' : Filter F) :
  coefficients f' = coefficients (updateSection coeffs slope i f) ->
  coefficients (updateSection coeffs slope i f')
  = coefficients (updateSection coeffs slope i f).
Proof.
  unfold updateSection. destruct (sectionActive slope i); [|auto].
  destruct (coeffs !! i); auto.
Qed.

Lemma updatedChain_after_process settings rate (m : MonoChain F) block :
  let m1 := updatedChain settings rate m in
  let m2 := updatedChain settings rate (fst (MonoChain_process m1 block)) in
  chainCoefficients m2 = chainCoefficients m1
  /\ bypassedLowCut m2 = bypassedLowCut m1
  /\ bypassedPeak m2 = bypassedPeak m1
  /\ bypassedHighCut m2 = bypassedHighCut m1
  /\ map fst (cutSections (LowCut m2)) = map fst (cutSections (LowCut m1))
  /\ map fst (cutSections (HighCut m2)) = map fst (cutSections (HighCut m1))
  /\ chainStates m2 = chainStates (fst (MonoChain_process m1 block)).
Proof.
  intros m1 m2.
  pose proof (MonoChain_process_coefficients m1 block) as Hk.
  set (q := fst (MonoChain_process m1 block)) in *.
  assert (Hstates : chainStates m2 = chainStates q).
  { unfold m2, chainStates, chainFilters, updatedChain, updateCutFilter; simpl.
    now rewrite !updateSection_state. }
  repeat split; try exact Hstates.
  unfold chainCoefficients, chainFilters in Hk. simpl in Hk.
  injection Hk as K0 K1 K2 K3 K4 K5 K6 K7 K8.
  unfold m2, chainCoefficients, chainFilters, updatedChain, updateCutFilter.
  cbn [map LowCut HighCut Peak cut0 cut1 cut2 cut3 coefficients updateCoefficients].
  repeat match goal with
         | |- _ :: _ = _ :: _ => apply (f_equal2 cons)
         end;
    try reflexivity; apply updateSection_coefficients_settled; assumption.
Qed.

(** X5: with unchanged parameters the filters settle after one block:
    a second [processBlock] leaves every coefficient and every bypass flag
    of both chains as the first one left them, and only moves the delay
    registers on. *)
Theorem coefficients_settle_after_the_first_block
    (p p1 p2 : ZooEQAudioProcessor F) (b1 b1' b2 b2' : AudioBuffer F) :
  processBlock p b1 = Some (p1, b1') ->
  processBlock p1 b2 = Some (p2, b2') ->
  chainCoefficients (leftChain p2) = chainCoefficients (leftChain p1)
  /\ chainCoefficients (rightChain p2) = chainCoefficients (rightChain p1)
  /\ bypassedLowCut (leftChain p2) = bypassedLowCut (leftChain p1)
  /\ bypassedPeak (leftChain p2) = bypassedPeak (leftChain p1)
  /\ bypassedHighCut (leftChain p2) = bypassedHighCut (leftChain p1)
  /\ map fst (cutSections (LowCut (leftChain p2)))
     = map fst (cutSections (LowCut (leftChain p1)))
  /\ map fst (cutSections (HighCut (leftChain p2)))
     = map fst (cutSections (HighCut (leftChain p1)))
  /\ bypassedLowCut (rightChain p2) = bypassedLowCut (rightChain p1)
  /\ bypassedPeak (rightChain p2) = bypassedPeak (rightChain p1)
  /\ bypassedHighCut (rightChain p2) = bypassedHighCut (rightChain p1)
  /\ map fst (cutSections (LowCut (rightChain p2)))
     = map fst (cutSections (LowCut (rightChain p1)))
  /\ map fst (cutSections (HighCut (rightChain p2)))
     = map fst (cutSections (HighCut (rightChain p1))).
Proof.
  intros Hfirst Hsecond.
  assert (Hshape : forall (q q' : ZooEQAudioProcessor F) (b b' : AudioBuffer F),
             processBlock q b = Some (q', b') ->
             exists lb rb,
               apvts q' = apvts q /\ sampleRate q' = sampleRate q
               /\ leftChain q'
                  = fst (MonoChain_process
                           (updatedChain (getChainSettings (apvts q)) (sampleRate q)
                              (leftChain q)) lb)
               /\ rightChain q'
                  = fst (MonoChain_process
                           (updatedChain (getChainSettings (apvts q)) (sampleRate q)
                              (rightChain q)) rb)).
  { intros q q' b b' Hpb. unfold processBlock in Hpb.
    destruct (clearChannels _ _ b) as [cleared|]; [|discriminate].
    destruct (cleared !! 0%nat) as [lb|]; [|discriminate].
    destruct (cleared !! 1%nat) as [rb|]; [|discriminate].
    destruct (MonoChain_process (leftChain (updateFilters q)) lb) as [l lo] eqn:El.
    destruct (MonoChain_process (rightChain (updateFilters q)) rb) as [r ro] eqn:Er.
    destruct (SCSF_update _ _) as [lf|]; [|discriminate].
    destruct (SCSF_update _ _) as [rf|]; [|discriminate].
    injection Hpb as <- <-. exists lb, rb.
    destruct (updateFilters_chains q) as [HL HR]. rewrite HL in El. rewrite HR in Er.
    rewrite El, Er. repeat split. }
  destruct (Hshape _ _ _ _ Hfirst) as (lb1 & rb1 & Ha1 & Hr1 & Hl1 & Hq1).
  destruct (Hshape _ _ _ _ Hsecond) as (lb2 & rb2 & Ha2 & Hr2 & Hl2 & Hq2).
  rewrite Ha1, Hr1 in Hl2, Hq2.
  set (s := getChainSettings (apvts p)) in *. set (rate := sampleRate p) in *.
  pose proof (updatedChain_after_process s rate (leftChain p) lb1) as Sl.
  pose proof (updatedChain_after_process s rate (rightChain p) rb1) as Sr.
  cbn zeta in Sl, Sr. rewrite <- Hl1 in Sl. rewrite <- Hq1 in Sr.
  pose proof (MonoChain_process_coefficients
                (updatedChain s rate (leftChain p1)) lb2) as Kl.
  pose proof (MonoChain_process_coefficients
                (updatedChain s rate (rightChain p1)) rb2) as Kr.
  pose proof (MonoChain_process_bypass (updatedChain s rate (leftChain p1)) lb2) as Bl.
  pose proof (MonoChain_process_bypass (updatedChain s rate (rightChain p1)) rb2) as Br.
  cbn zeta in Bl, Br. rewrite <- Hl2 in Kl, Bl. rewrite <- Hq2 in Kr, Br.
  pose proof (MonoChain_process_coefficients
                (updatedChain s rate (leftChain p)) lb1) as Kl1.
  pose proof (MonoChain_process_coefficients
                (updatedChain s rate (rightChain p)) rb1) as Kr1.
  pose proof (MonoChain_process_bypass (updatedChain s rate (leftChain p)) lb1) as Bl1.
  pose proof (MonoChain_process_bypass (updatedChain s rate (rightChain p)) rb1) as Br1.
  cbn zeta in Bl1, Br1. rewrite <- Hl1 in Kl1, Bl1. rewrite <- Hq1 in Kr1, Br1.
  destruct Sl as (Sl0 & Sl1 & Sl2 & Sl3 & Sl4 & Sl5 & _).
  destruct Sr as (Sr0 & Sr1 & Sr2 & Sr3 & Sr4 & Sr5 & _).
  destruct Bl as (Bl0 & Bl2 & Bl3 & Bl4 & Bl5), Br as (Br0 & Br2 & Br3 & Br4 & Br5).
  destruct Bl1 as (Cl0 & Cl2 & Cl3 & Cl4 & Cl5), Br1 as (Cr0 & Cr2 & Cr3 & Cr4 & Cr5).
  repeat split; congruence.
Qed.

(** X6: [setStateInformation] never resets the memory of the filters:
    whether the bytes hold a valid tree or not, the delay registers of
    all stages of both chains, the two sample queues, the sample rate and
    the channel counts are as before. *)
Theorem setStateInformation_keeps_delay_registers
    (data : list Byte.byte) (p : ZooEQAudioProcessor F) :
  let p' := setStateInformation data p in
  chainStates (leftChain p') = chainStates (leftChain p)
  /\ chainStates (rightChain p') = chainStates (rightChain p)
  /\ leftChannelFifo p' = leftChannelFifo p
  /\ rightChannelFifo p' = rightChannelFifo p
  /\ sampleRate p' = sampleRate p
  /\ totalNumInputChannels p' = totalNumInputChannels p
  /\ totalNumOutputChannels p' = totalNumOutputChannels p.
Proof.
  unfold setStateInformation.
  destruct (isValid (readFromData data)); [|repeat split].
  destruct (updateFilters_chainStates
              (set_apvts (replaceState (readFromData data) (apvts p)) p))
    as [Hl Hr].
  repeat split; assumption.
Qed.
End ProcessorCoverage.

(** X1: a layout is supported, for a plug-in that is neither a MIDI effect
    nor a synth, exactly when its main output is mono or stereo and its
    main input is the same set; a synth's input is not looked at, and a
    MIDI effect supports every layout.  A supported layout of a plug-in
    that is no MIDI effect has one or two output channels. *)
Theorem isBusesLayoutSupported_characterised (layouts : BusesLayout) :
  (isBusesLayoutSupported false false layouts = true
   <-> (getMainOutputChannelSet layouts = AudioChannelSet_mono
        \/ getMainOutputChannelSet layouts = AudioChannelSet_stereo)
       /\ getMainInputChannelSet layouts = getMainOutputChannelSet layouts)
  /\ (isBusesLayoutSupported false true layouts = true
      <-> getMainOutputChannelSet layouts = AudioChannelSet_mono
          \/ getMainOutputChannelSet layouts = AudioChannelSet_stereo)
  /\ (forall synth, isBusesLayoutSupported true synth layouts = true)
  /\ (forall synth, isBusesLayoutSupported false synth layouts = true ->
        (1 <= AudioChannelSet_size (getMainOutputChannelSet layouts) <= 2)%nat).
Proof.
  assert (Hout : forall synth, isBusesLayoutSupported false synth layouts = true ->
             getMainOutputChannelSet layouts = AudioChannelSet_mono
             \/ getMainOutputChannelSet layouts = AudioChannelSet_stereo).
  { intros synth. unfold isBusesLayoutSupported.
    destruct (decide (getMainOutputChannelSet layouts = AudioChannelSet_mono));
      [auto|].
    destruct (decide (getMainOutputChannelSet layouts = AudioChannelSet_stereo));
      [auto|].
    rewrite !bool_decide_eq_true_2 by assumption. discriminate. }
  assert (Hmono : forall (synth : bool) (output : AudioChannelSet),
             output = AudioChannelSet_mono \/ output = AudioChannelSet_stereo ->
             bool_decide (output <> AudioChannelSet_mono)
             && bool_decide (output <> AudioChannelSet_stereo) = false).
  { intros _ output [-> | ->]; reflexivity. }
  split; [|split; [|split]].
  - split.
    + intros Hs. split; [exact (Hout false Hs)|].
      unfold isBusesLayoutSupported in Hs.
      rewrite (Hmono false _ (Hout false Hs)) in Hs. simpl in Hs.
      destruct (decide (getMainOutputChannelSet layouts
                        = getMainInputChannelSet layouts)) as [->|Hne];
        [reflexivity|].
      rewrite bool_decide_eq_true_2 in Hs by assumption. discriminate.
    + intros [Ho Hi]. unfold isBusesLayoutSupported.
      rewrite (Hmono false _ Ho), Hi. simpl.
      rewrite bool_decide_eq_false_2 by congruence. reflexivity.
  - split; [apply Hout|].
    intros Ho. unfold isBusesLayoutSupported. now rewrite (Hmono true _ Ho).
  - reflexivity.
  - intros synth Hs.
    assert (Hsizes : AudioChannelSet_size AudioChannelSet_mono = 1%nat
                     /\ AudioChannelSet_size AudioChannelSet_stereo = 2%nat)
      by (split; reflexivity).
    destruct Hsizes as [Hm Hst].
    destruct (Hout synth Hs) as [-> | ->]; [rewrite Hm|rewrite Hst]; lia.
Qed.

(** * Further properties of the editor *)

Section EditorCoverage.
Context {F : Type} `{Arith F} `{IIRLib F} `{FFTLib F} `{StateLib F}.

(** ** The chain behind the response curve *)

Lemma timesMagnitude_updateSection coeffs slope i (f f' : Filter F) freq rate mag :
  (sectionActive slope i = true -> is_Some (coeffs !! i)) ->
  timesMagnitude (negb (sectionActive slope i)) (updateSection coeffs slope i f)
    freq rate mag
  = timesMagnitude (negb (sectionActive slope i)) (updateSection coeffs slope i f')
      freq rate mag.
Proof.
  intros Hdesign. unfold timesMagnitude, updateSection.
  destruct (sectionActive slope i); [|reflexivity].
  destruct (Hdesign eq_refl) as [c ->]. reflexivity.
Qed.

Lemma timesCutMagnitude_updateCutFilter coeffs slope (c c' : CutFilter F) freq rate mag :
  (forall i, (i < 4)%nat -> sectionActive slope i = true -> is_Some (coeffs !! i)) ->
  timesCutMagnitude (updateCutFilter c coeffs slope) freq rate mag
  = timesCutMagnitude (updateCutFilter c' coeffs slope) freq rate mag.
Proof.
  intros Hdesign. unfold timesCutMagnitude, updateCutFilter.
  cbn [cut0 cut1 cut2 cut3 cutBypassed0 cutBypassed1 cutBypassed2 cutBypassed3].
  rewrite (timesMagnitude_updateSection coeffs slope 0 (cut0 c) (cut0 c'))
    by (apply Hdesign; lia).
  rewrite (timesMagnitude_updateSection coeffs slope 1 (cut1 c) (cut1 c'))
    by (apply Hdesign; lia).
  rewrite (timesMagnitude_updateSection coeffs slope 2 (cut2 c) (cut2 c'))
    by (apply Hdesign; lia).
  rewrite (timesMagnitude_updateSection coeffs slope 3 (cut3 c) (cut3 c'))
    by (apply Hdesign; lia).
  reflexivity.
Qed.

Lemma columnMagnitude_updatedChain settings rate (m m' : MonoChain F) rate' w i :
  (forall k, (k < 4)%nat -> sectionActive (lowCutSlope settings) k = true ->
     is_Some (makeLowCutFilter settings rate !! k)) ->
  (forall k, (k < 4)%nat -> sectionActive (highCutSlope settings) k = true ->
     is_Some (makeHighCutFilter settings rate !! k)) ->
  columnMagnitude (updatedChain settings rate m) rate' w i
  = columnMagnitude (updatedChain settings rate m') rate' w i.
Proof.
  intros Hlow Hhigh. unfold columnMagnitude, updatedChain.
  cbn [LowCut Peak HighCut bypassedLowCut bypassedPeak bypassedHighCut].
  rewrite (timesCutMagnitude_updateCutFilter _ _ (HighCut m) (HighCut m')) by exact Hhigh.
  rewrite (timesCutMagnitude_updateCutFilter _ _ (LowCut m) (LowCut m')) by exact Hlow.
  reflexivity.
Qed.

Lemma computeMags_ext (m m' : MonoChain F) rate w :
  (forall i, columnMagnitude m rate w i = columnMagnitude m' rate w i) ->
  computeMags m rate w = computeMags m' rate w.
Proof.
  intros Hcol. apply list_eq. intros i.
  destruct (le_lt_dec (Z.to_nat w) i) as [Hge|Hlt].
  - rewrite !lookup_ge_None_2 by (rewrite computeMags_length; lia). reflexivity.
  - rewrite !computeMags_lookup by exact Hlt. now rewrite Hcol.
Qed.

(** X7: the chain the editor builds in [updateChain] answers like the
    chains [updateFilters] builds for the audio, whatever the three chains
    held before: when the designs deliver a coefficient array for every
    active section, the magnitudes [paint] computes from the editor's
    chain are those it would compute from the processor's left and right
    chain; and when the chains started out equal they end up equal. *)
Theorem response_curve_follows_the_audio_filters
    (p : ZooEQAudioProcessor F) (m : MonoChain F) (rate : F) (w : Z) :
  let settings := getChainSettings (apvts p) in
  (forall k, (k < 4)%nat -> sectionActive (lowCutSlope settings) k = true ->
     is_Some (makeLowCutFilter settings (sampleRate p) !! k)) ->
  (forall k, (k < 4)%nat -> sectionActive (highCutSlope settings) k = true ->
     is_Some (makeHighCutFilter settings (sampleRate p) !! k)) ->
  let shown := updateChain_monoChain p m in
  computeMags shown rate w = computeMags (leftChain (updateFilters p)) rate w
  /\ computeMags shown rate w = computeMags (rightChain (updateFilters p)) rate w
  /\ (m = leftChain p -> shown = leftChain (updateFilters p))
  /\ (m = rightChain p -> shown = rightChain (updateFilters p)).
Proof.
  intros settings Hlow Hhigh shown.
  destruct (updateFilters_chains p) as [-> ->].
  unfold shown. rewrite updateChain_monoChain_updatedChain. fold settings.
  split; [|split; [|split]].
  - apply computeMags_ext. intros i. now apply columnMagnitude_updatedChain.
  - apply computeMags_ext. intros i. now apply columnMagnitude_updatedChain.
  - now intros ->.
  - now intros ->.
Qed.

(** ** The timer callback and the processor *)

Lemma processAnalysis_drains (c : ResponseCurveComponent F) :
  let c' := processAnalysis c in
  getNumCompleteBuffersAvailable (leftChannelFifo (audioProcessor c')) = 0%nat
  /\ getNumCompleteBuffersAvailable (rightChannelFifo (audioProcessor c')) = 0%nat
  /\ getNumAvailableFFTDataBlocks (leftChannelFFTDataGenerator (leftPathProducer c')) = 0%nat
  /\ getNumAvailableFFTDataBlocks (leftChannelFFTDataGenerator (rightPathProducer c')) = 0%nat
  /\ getNumPathsAvailable (pathProducer (leftPathProducer c')) = 0%nat
  /\ getNumPathsAvailable (pathProducer (rightPathProducer c')) = 0%nat
  /\ totalNumInputChannels (audioProcessor c') = totalNumInputChannels (audioProcessor c)
  /\ totalNumOutputChannels (audioProcessor c') = totalNumOutputChannels (audioProcessor c).
Proof.
  unfold processAnalysis. rewrite !PathProducer_process_closed_form.
  repeat split.
Qed.

End EditorCoverage.

(** * Further properties of the analyser *)

Section AnalyserCoverage.
Context {F : Type} `{Arith F} `{IIRLib F} `{FFTLib F} `{StateLib F}.

(** ** The window of samples *)

Lemma process_buffer_window block (pp : PathProducer F) :
  (length block <= length (monoBuffer pp))%nat ->
  monoBuffer (process_buffer block pp)
  = drop (length block) (monoBuffer pp) ++ block.
Proof.
  intros Hle. unfold process_buffer, FloatVectorOperations_copy.
  cbn [monoBuffer].
  set (m := monoBuffer pp) in *. set (s := length block) in *.
  rewrite take_0. cbn [app].
  rewrite (take_ge (drop s m)) by (rewrite length_drop; lia).
  replace (0 + (length m - s))%nat with (length m - s)%nat by lia.
  rewrite take_app_length' by (rewrite length_drop; lia).
  rewrite (take_ge block) by (fold s; lia).
  rewrite (drop_ge (_ ++ _)) by (rewrite length_app, !length_drop; lia).
  now rewrite app_nil_r.
Qed.

Lemma lastN_slide {A : Type} (m block rest : list A) :
  (length block <= length m)%nat ->
  lastN (length m) ((drop (length block) m ++ block) ++ rest)
  = lastN (length m) (m ++ block ++ rest).
Proof.
  intros Hle. unfold lastN.
  rewrite !length_app, length_drop.
  replace (length m - length block + length block + length rest - length m)%nat
    with (length rest) by lia.
  replace (length m + (length block + length rest) - length m)%nat
    with (length block + length rest)%nat by lia.
  rewrite <- (drop_drop (m ++ block ++ rest)).
  rewrite (drop_app_le m) by exact Hle.
  now rewrite <- app_assoc.
Qed.

(** X9: the first loop of [process] keeps a sliding window: after any
    run of blocks, none longer than the window, the mono buffer has the
    length it had and holds the newest samples of what it held followed
    by the blocks, in order; one block moves the window left by the
    block's length and puts the block at its end. *)
Theorem window_holds_the_newest_samples (blocks : list (list F)) :
  forall pp : PathProducer F,
    Forall (fun block => (length block <= length (monoBuffer pp))%nat) blocks ->
    let analysed := fold_left (fun pp block => process_buffer block pp) blocks pp in
    monoBuffer analysed
    = lastN (length (monoBuffer pp)) (monoBuffer pp ++ concat blocks)
    /\ length (monoBuffer analysed) = length (monoBuffer pp)
    /\ (forall block, blocks = [block] ->
          monoBuffer analysed = drop (length block) (monoBuffer pp) ++ block).
Proof.
  induction blocks as [|block blocks IH]; intros pp Hall analysed.
  - split; [|split; [reflexivity|discriminate]].
    unfold analysed, lastN; simpl. rewrite app_nil_r.
    now rewrite Nat.sub_diag.
  - apply Forall_cons in Hall as [Hle Hall].
    pose proof (process_buffer_window block pp Hle) as Hwin.
    assert (Hlen : length (monoBuffer (process_buffer block pp))
                   = length (monoBuffer pp)).
    { rewrite Hwin, length_app, length_drop. lia. }
    destruct (IH (process_buffer block pp)) as (Hmono & Hkeep & _).
    { now rewrite Hlen. }
    unfold analysed. cbn [fold_left concat].
    split; [|split].
    + rewrite Hmono, Hlen, Hwin. apply lastN_slide. exact Hle.
    + now rewrite Hkeep.
    + intros b Hone. injection Hone as <- ->. exact Hwin.
Qed.

(** ** The frames *)

Lemma produceFFTData_order window negInf (g : FFTDataGenerator F) :
  order (produceFFTDataForRendering window negInf g) = order g
  /\ getFFTSize (produceFFTDataForRendering window negInf g) = getFFTSize g
  /\ capacity (fftDataFifo (produceFFTDataForRendering window negInf g))
     = capacity (fftDataFifo g).
Proof.
  split; [reflexivity|]. split; [reflexivity|].
  unfold produceFFTDataForRendering. cbn [fftDataFifo].
  apply push_capacity.
Qed.

Lemma produceFFTData_length window negInf (g : FFTDataGenerator F) :
  (Z.to_nat (getFFTSize g) <= length window)%nat ->
  (Z.to_nat (getFFTSize g) <= length (fftData g))%nat ->
  length (fftData (produceFFTDataForRendering window negInf g))
  = length (fftData g).
Proof.
  intros Hwin Hdata. unfold produceFFTDataForRendering. cbn [fftData].
  rewrite !forEachBin_length.
  unfold performFrequencyOnlyForwardTransform. rewrite length_imap.
  rewrite multiplyWithWindowingTable_length.
  unfold std_copy.
  rewrite length_app, length_take, length_drop, length_replicate. lia.
Qed.

Lemma produceFFTData_queue window negInf (g : FFTDataGenerator F) :
  let g' := produceFFTDataForRendering window negInf g in
  unread (fftDataFifo g') = unread (fftDataFifo g)
  \/ unread (fftDataFifo g') = unread (fftDataFifo g) ++ [fftData g'].
Proof.
  unfold produceFFTDataForRendering. cbn [fftDataFifo fftData].
  unfold push. destruct (_ <? _)%nat; [right|left]; reflexivity.
Qed.

Lemma visitedBins_below (numBins b : Z) :
  In b (visitedBins numBins) -> (1 <= b < numBins)%Z /\ Z.odd b = true.
Proof.
  unfold visitedBins. rewrite in_map_iff. intros (k & <- & Hk).
  apply in_seq in Hk.
  assert (Hhalf : (Z.of_nat k < numBins / 2)%Z) by lia.
  assert (Hdiv : (2 * (numBins / 2) <= numBins)%Z)
    by (apply Z.mul_div_le; lia).
  split; [lia|].
  rewrite Z.add_comm, Z.odd_add_mul_2. reflexivity.
Qed.

(** X10: the frames keep the size of the work array.  For a generator
    whose work array has 2N values, N the transform size, and a window of
    at least N samples, every block that [process] takes leaves the order
    and the size of the work array as they were and queues at most one
    frame, of 2N values; so every frame that waits has 2N values when
    those that waited had, and bin 0 and every bin the loop of
    [generatePath] visits lie inside each of them. *)
Theorem frames_keep_the_size_of_the_work_array (blocks : list (list F)) :
  forall pp : PathProducer F,
    let g := leftChannelFFTDataGenerator pp in
    let N := Z.to_nat (getFFTSize g) in
    (N <= length (monoBuffer pp))%nat ->
    length (fftData g) = (2 * N)%nat ->
    Forall (fun block => (length block <= length (monoBuffer pp))%nat) blocks ->
    Forall (fun frame => length frame = (2 * N)%nat) (unread (fftDataFifo g)) ->
    let analysed := fold_left (fun pp block => process_buffer block pp) blocks pp in
    let g' := leftChannelFFTDataGenerator analysed in
    order g' = order g
    /\ length (fftData g') = (2 * N)%nat
    /\ capacity (fftDataFifo g') = capacity (fftDataFifo g)
    /\ (length (unread (fftDataFifo g'))
        <= length (unread (fftDataFifo g)) + length blocks)%nat
    /\ Forall (fun frame => length frame = (2 * N)%nat) (unread (fftDataFifo g'))
    /\ (forall frame b,
          In frame (unread (fftDataFifo g')) ->
          b = 0%Z \/ In b (visitedBins (Z.quot (getFFTSize g') 2)) ->
          is_Some (frame !! Z.to_nat b)).
Proof.
  induction blocks as [|block blocks IH]; intros pp g N Hwin Hdata Hblocks Hframes.
  - intros analysed g'. subst g' analysed. cbn [fold_left]. fold g.
    split; [reflexivity|]. split; [exact Hdata|]. split; [reflexivity|].
    split; [cbn [length]; lia|]. split; [exact Hframes|].
    intros frame b Hin Hb. apply lookup_lt_is_Some_2.
    rewrite Forall_forall in Hframes.
    rewrite (Hframes frame) by (apply list_elem_of_In; exact Hin).
    destruct (getFFTSize_pos g) as (Hpos & Hquot & Hle & Hdiv).
    destruct Hb as [->|Hb]; [fold N; lia|].
    apply visitedBins_below in Hb. rewrite Hquot in Hb. fold N. lia.
  - apply Forall_cons in Hblocks as [Hle Hblocks].
    pose proof (process_buffer_window block pp Hle) as Hmono.
    assert (Hlen : length (monoBuffer (process_buffer block pp))
                   = length (monoBuffer pp)).
    { rewrite Hmono, length_app, length_drop. lia. }
    set (window := monoBuffer (process_buffer block pp)) in *.
    assert (Hg1 : leftChannelFFTDataGenerator (process_buffer block pp)
                  = produceFFTDataForRendering window (of_Z (-48)) g)
      by reflexivity.
    destruct (produceFFTData_order window (of_Z (-48)) g) as (Ho & Hs & Hc).
    pose proof (produceFFTData_length window (of_Z (-48)) g) as Hl.
    fold N in Hl. specialize (Hl ltac:(lia) ltac:(lia)).
    pose proof (produceFFTData_queue window (of_Z (-48)) g) as Hq. cbn zeta in Hq.
    specialize (IH (process_buffer block pp)). cbn zeta in IH.
    fold window in IH. rewrite Hg1, Hs, Hlen in IH. fold N in IH.
    destruct IH as (IHo & IHl & IHc & IHn & IHf & IHb).
    + lia.
    + lia.
    + exact Hblocks.
    + destruct Hq as [-> | ->]; [exact Hframes|].
      apply Forall_app. split; [exact Hframes|].
      apply Forall_cons. split; [lia|constructor].
    + intros analysed g'. unfold g', analysed. cbn [fold_left].
      split; [now rewrite IHo|]. split; [exact IHl|].
      split; [now rewrite IHc|].
      split; [|split; [exact IHf|exact IHb]].
      etransitivity; [exact IHn|].
      destruct Hq as [-> | ->]; [simpl; lia|].
      rewrite length_app. simpl. lia.
Qed.

(** X11: a frame depends on the order, on the size of the work array and
    on the first N samples of the window, and on nothing else: what the
    work array held from the frame before, and what the window holds
    beyond its first N samples, leave no trace in it. *)
Theorem frame_depends_on_the_window_head_only
    (window1 window2 : list F) (negativeInfinity : F) (g1 g2 : FFTDataGenerator F) :
  order g1 = order g2 ->
  length (fftData g1) = length (fftData g2) ->
  take (Z.to_nat (getFFTSize g1)) window1 = take (Z.to_nat (getFFTSize g2)) window2 ->
  fftData (produceFFTDataForRendering window1 negativeInfinity g1)
  = fftData (produceFFTDataForRendering window2 negativeInfinity g2).
Proof.
  intros Horder Hlen Hhead.
  unfold produceFFTDataForRendering, std_copy. cbn [fftData].
  assert (Hsize : getFFTSize g1 = getFFTSize g2)
    by (unfold getFFTSize; now rewrite Horder).
  rewrite Hhead, Hlen, Horder, Hsize. reflexivity.
Qed.

(** ** The path of a frame *)

Lemma length_omap_le {A B : Type} (f : A -> option B) (l : list A) :
  (length (omap f l) <= length l)%nat.
Proof.
  induction l as [|a l IH]; [reflexivity|].
  csimpl. destruct (f a); simpl; lia.
Qed.

Lemma omap_ext_In {A B : Type} (f g : A -> option B) (l : list A) :
  (forall a, In a l -> f a = g a) -> omap f l = omap g l.
Proof.
  induction l as [|a l IH]; intros Hext; [reflexivity|].
  csimpl. rewrite (Hext a) by (left; reflexivity).
  rewrite IH by (intros b Hb; apply Hext; right; exact Hb). reflexivity.
Qed.

(** X12: [generatePath] reads bin 0 and the odd bins below N/2 of a
    frame and nothing else: two frames that agree there give the same
    path, whatever their even bins and their upper part hold.  The path
    starts with a sub-path at abscissa 0, which is added without the test
    for NaN and infinity that guards the lines, and has at most
    1 + N/4 elements. *)
Theorem generatePath_reads_bin_0_and_the_odd_bins
    (fftBounds : Rectangle F) (fftSize : Z) (binWidth negativeInfinity : F)
    (renderData : list F) :
  let numBins := Z.quot fftSize 2 in
  let path := generatedPath renderData fftBounds fftSize binWidth negativeInfinity in
  (exists rest,
     path = StartNewSubPath zero
              (jmap (at_index renderData 0) negativeInfinity zero
                 (getHeight fftBounds) (getY fftBounds)) :: rest
     /\ (length rest <= Z.to_nat (numBins / 2))%nat
     /\ Forall (fun e => exists x y, e = LineTo x y /\ isFinite y = true) rest)
  /\ (forall other : list F,
        at_index other 0 = at_index renderData 0 ->
        (forall b, (1 <= b < numBins)%Z -> Z.odd b = true ->
           at_index other b = at_index renderData b) ->
        generatedPath other fftBounds fftSize binWidth negativeInfinity = path).
Proof.
  intros numBins path. unfold path. rewrite generatedPath_bins. fold numBins.
  split.
  - eexists. split; [reflexivity|]. split.
    + etransitivity; [apply length_omap_le|].
      unfold visitedBins. now rewrite length_map, length_seq.
    + rewrite omap_binPoint. apply Forall_forall. intros e He.
      apply list_elem_of_In, in_map_iff in He as (b & <- & Hb).
      apply filter_In in Hb as [_ Hfin]. eauto.
  - intros other Hzero Hodd. rewrite generatedPath_bins. fold numBins.
    rewrite Hzero. f_equal. apply omap_ext_In. intros b Hb.
    apply visitedBins_below in Hb as [Hrange Hb].
    unfold binPoint. now rewrite (Hodd b Hrange Hb).
Qed.

(** The bins a frame carries: each of the first N/2 entries is a value
    of [gainToDecibels] with the floor given. *)
Lemma produceFFTData_bin window negInf (g : FFTDataGenerator F) (i : nat) :
  (Z.to_nat (getFFTSize g) <= length window)%nat ->
  (Z.to_nat (getFFTSize g) <= length (fftData g))%nat ->
  (i < Z.to_nat (getFFTSize g / 2))%nat ->
  exists gain,
    fftData (produceFFTDataForRendering window negInf g) !! i
    = Some (gainToDecibels gain negInf).
Proof.
  intros Hwin Hdata Hi.
  destruct (getFFTSize_pos g) as (Hpos & Hquot & Hle & Hdiv).
  unfold produceFFTDataForRendering. cbn [fftData]. rewrite Hquot.
  rewrite !forEachBin_lookup.
  destruct (Nat.ltb_spec i (Z.to_nat (getFFTSize g / 2))); [|lia].
  rewrite performFrequencyOnlyForwardTransform_lookup.
  - eexists. reflexivity.
  - rewrite multiplyWithWindowingTable_length. unfold std_copy.
    rewrite length_app, length_take, length_drop, length_replicate. lia.
Qed.
End AnalyserCoverage.

(** * From the audio callback to the analyser *)

Section PipelineCoverage.
Context {F : Type} `{Arith F} `{IIRLib F} `{FFTLib F} `{StateLib F}.

Lemma timerCallback_producers (c : ResponseCurveComponent F) :
  let c0 := if shouldShowFFTAnalysis c then processAnalysis c else c in
  leftPathProducer (timerCallback c) = leftPathProducer c0
  /\ rightPathProducer (timerCallback c) = rightPathProducer c0.
Proof.
  unfold timerCallback, compareAndSetBool.
  destruct (parametersChanged _); split; reflexivity.
Qed.

Lemma processAnalysis_producers (c : ResponseCurveComponent F) :
  let fftBounds := toFloat (getAnalysisArea c) in
  let rate := sampleRate (audioProcessor c) in
  leftPathProducer (processAnalysis c)
  = snd (PathProducer_process fftBounds rate
           (leftChannelFifo (audioProcessor c)) (leftPathProducer c))
  /\ rightPathProducer (processAnalysis c)
     = snd (PathProducer_process fftBounds rate
              (rightChannelFifo (audioProcessor c)) (rightPathProducer c)).
Proof.
  unfold processAnalysis.
  destruct (PathProducer_process _ _ (leftChannelFifo _) _) as [lf lpp].
  destruct (PathProducer_process _ _ (rightChannelFifo _) _) as [rf rpp].
  split; reflexivity.
Qed.

Lemma process_window_of_one_block fftBounds rate
    (fifo : SingleChannelSampleFifo F) (pp : PathProducer F) (block : list F) :
  unread (audioBufferFifo fifo) = [block] ->
  (length block <= length (monoBuffer pp))%nat ->
  monoBuffer (snd (PathProducer_process fftBounds rate fifo pp))
  = drop (length block) (monoBuffer pp) ++ block.
Proof.
  intros Hone Hle. rewrite PathProducer_process_closed_form. cbn [snd monoBuffer].
  rewrite Hone. cbn [fold_left]. now apply process_buffer_window.
Qed.

Lemma SCSF_update_first_block (q q' : SingleChannelSampleFifo F)
    (buffer : AudioBuffer F) (block : list F) :
  SCSF_update buffer q = Some q' ->
  buffer !! channelToUse q = Some block ->
  unread (audioBufferFifo q) = [] ->
  (0 < capacity (audioBufferFifo q))%nat ->
  unread (audioBufferFifo q') = [block].
Proof.
  intros Hupdate Hblock Hempty Hroom. unfold SCSF_update in Hupdate.
  rewrite Hblock in Hupdate. injection Hupdate as <-. cbn [audioBufferFifo].
  rewrite push_room by (unfold getNumAvailableForReading; rewrite Hempty; exact Hroom).
  cbn [snd unread]. now rewrite Hempty.
Qed.

(** X13: the analyser sees the audio after the filters.  With the
    analyser on, the collectors on channels 0 and 1 and their queues
    empty, one audio callback followed by one timer callback moves the
    window of each path producer left and puts at its end the block of
    its channel as [processBlock] wrote it to the output buffer: the
    output of the filter chain, not the input. *)
Theorem analyser_window_takes_the_filtered_block
    (c : ResponseCurveComponent F) (buffer : AudioBuffer F) :
  let p := audioProcessor c in
  shouldShowFFTAnalysis c = true ->
  (2 <= length buffer)%nat ->
  (totalNumOutputChannels p <= length buffer)%nat ->
  channelToUse (leftChannelFifo p) = 0%nat ->
  channelToUse (rightChannelFifo p) = 1%nat ->
  unread (audioBufferFifo (leftChannelFifo p)) = [] ->
  unread (audioBufferFifo (rightChannelFifo p)) = [] ->
  (0 < capacity (audioBufferFifo (leftChannelFifo p)))%nat ->
  (0 < capacity (audioBufferFifo (rightChannelFifo p)))%nat ->
  exists c1 buffer' cleared leftIn rightIn,
    audioCallback buffer c = Some (c1, buffer')
    /\ clearChannels (totalNumOutputChannels p - totalNumInputChannels p)
         (totalNumInputChannels p) buffer = Some cleared
    /\ cleared !! 0%nat = Some leftIn
    /\ cleared !! 1%nat = Some rightIn
    /\ let leftOut := snd (MonoChain_process (leftChain (updateFilters p)) leftIn) in
       let rightOut := snd (MonoChain_process (rightChain (updateFilters p)) rightIn) in
       let c2 := timerCallback c1 in
       buffer' !! 0%nat = Some leftOut
       /\ buffer' !! 1%nat = Some rightOut
       /\ ((length leftOut <= length (monoBuffer (leftPathProducer c)))%nat ->
           monoBuffer (leftPathProducer c2)
           = drop (length leftOut) (monoBuffer (leftPathProducer c)) ++ leftOut)
       /\ ((length rightOut <= length (monoBuffer (rightPathProducer c)))%nat ->
           monoBuffer (rightPathProducer c2)
           = drop (length rightOut) (monoBuffer (rightPathProducer c)) ++ rightOut).
Proof.
  intros p Hshow Htwo Hout Hcl Hcr Hle Hre Hlroom Hrroom.
  destruct (processBlock_defined p buffer Htwo Hout) as
    (cleared & lb & rb & lf & rf & Hc & E0 & E1 & Hrest); [lia | lia |].
  cbn zeta in Hrest. destruct Hrest as (Hlf & Hrf & Hpb).
  pose proof (clearChannels_length _ _ _ _ Hc) as Hlen.
  set (lo := snd (MonoChain_process (leftChain (updateFilters p)) lb)) in *.
  set (ro := snd (MonoChain_process (rightChain (updateFilters p)) rb)) in *.
  set (out := <[1%nat := ro]> (<[0%nat := lo]> cleared)) in *.
  assert (Hout0 : out !! 0%nat = Some lo).
  { unfold out. rewrite list_lookup_insert_ne by lia.
    apply list_lookup_insert_eq. lia. }
  assert (Hout1 : out !! 1%nat = Some ro).
  { unfold out. apply list_lookup_insert_eq. rewrite length_insert. lia. }
  pose proof (SCSF_update_first_block _ _ _ lo Hlf) as Hlq.
  rewrite Hcl in Hlq. specialize (Hlq Hout0 Hle Hlroom).
  pose proof (SCSF_update_first_block _ _ _ ro Hrf) as Hrq.
  rewrite Hcr in Hrq. specialize (Hrq Hout1 Hre Hrroom).
  unfold audioCallback. fold p. rewrite Hpb.
  eexists _, _, cleared, lb, rb.
  split; [reflexivity|]. split; [exact Hc|]. split; [exact E0|]. split; [exact E1|].
  cbn zeta. fold lo ro. split; [exact Hout0|]. split; [exact Hout1|].
  match goal with
  | |- context [timerCallback ?c1] => set (k := c1)
  end.
  destruct (timerCallback_producers k) as [Hl Hr].
  destruct (processAnalysis_producers k) as [Hl' Hr'].
  cbn zeta in Hl, Hr, Hl', Hr'.
  assert (Hk : shouldShowFFTAnalysis k = true) by exact Hshow.
  rewrite Hk in Hl, Hr. rewrite Hl, Hr, Hl', Hr'.
  unfold k.
  cbn [audioProcessor leftPathProducer rightPathProducer leftChannelFifo
         rightChannelFifo].
  split; intros Hfit.
  - now apply process_window_of_one_block.
  - now apply process_window_of_one_block.
Qed.

Lemma removeFromTop_mk (a x y w h : Z) :
  removeFromTop a (mkRectangle x y w h)
  = mkRectangle x (y + Z.min a h)%Z w (h - Z.min a h)%Z.
Proof. reflexivity. Qed.

Lemma removeFromBottom_mk (a x y w h : Z) :
  removeFromBottom a (mkRectangle x y w h) = mkRectangle x y w (h - Z.min a h)%Z.
Proof. reflexivity. Qed.

Lemma removeFromLeft_mk (a x y w h : Z) :
  removeFromLeft a (mkRectangle x y w h)
  = mkRectangle (x + Z.min a w)%Z y (w - Z.min a w)%Z h.
Proof. reflexivity. Qed.

Lemma removeFromRight_mk (a x y w h : Z) :
  removeFromRight a (mkRectangle x y w h) = mkRectangle x y (w - Z.min a w)%Z h.
Proof. reflexivity. Qed.

(** X14: the analysis area lies inside the render area and the render
    area inside the bounds of the component, and neither has a negative
    size, however small the component is; a component of at least 40 by
    22 pixels keeps margins of 20 pixels left and right, 16 at the top and
    6 at the bottom. *)
Theorem analysis_area_lies_inside_the_component (c : ResponseCurveComponent F) :
  let bounds := getLocalBounds c in
  let render := getRenderArea c in
  let area := getAnalysisArea c in
  (0 <= getWidth bounds)%Z ->
  (0 <= getHeight bounds)%Z ->
  (0 <= getWidth area)%Z /\ (0 <= getHeight area)%Z
  /\ (getX bounds <= getX render)%Z /\ getX area = getX render
  /\ getRight area = getRight render /\ (getRight render <= getRight bounds)%Z
  /\ (getY bounds <= getY render)%Z /\ (getY render <= getY area)%Z
  /\ (getBottom area <= getBottom render)%Z
  /\ (getBottom render <= getBottom bounds)%Z
  /\ ((40 <= getWidth bounds)%Z -> (22 <= getHeight bounds)%Z ->
      area = mkRectangle (getX bounds + 20)%Z (getY bounds + 16)%Z
               (getWidth bounds - 40)%Z (getHeight bounds - 22)%Z).
Proof.
  intros bounds render area. subst area render.
  unfold getAnalysisArea, getRenderArea. fold bounds. clearbody bounds.
  destruct bounds as [x y w h]. cbn [getWidth getHeight]. intros Hw Hh.
  rewrite !removeFromTop_mk, !removeFromBottom_mk, !removeFromLeft_mk,
    !removeFromRight_mk, !removeFromTop_mk, !removeFromBottom_mk.
  unfold getRight, getBottom. cbn [getX getY getWidth getHeight].
  repeat split; try lia.
  intros Hw40 Hh22. f_equal; lia.
Qed.
End PipelineCoverage.

(** * Properties over the real numbers *)

(** * The order of the analyser path *)

Lemma visitedBins_sorted (first count : nat) :
  StronglySorted Z.le (map (fun k => 2 * Z.of_nat k + 1)%Z (seq first count)).
Proof.
  revert first. induction count as [|count IH]; intros first; [constructor|].
  cbn [seq map]. constructor; [apply IH|].
  apply List.Forall_forall. intros b Hb.
  apply in_map_iff in Hb as (k & <- & Hk). apply in_seq in Hk. lia.
Qed.

Lemma sorted_filter_map (f : Z -> Z) (keep : Z -> bool) (bins : list Z) :
  (forall a b, In a bins -> (a <= b)%Z -> (f a <= f b)%Z) ->
  StronglySorted Z.le bins ->
  StronglySorted Z.le (map f (List.filter keep bins)).
Proof.
  intros Hmono Hsorted. induction Hsorted as [|a bins Hsorted IH Hhead];
    [constructor|].
  assert (Htail : StronglySorted Z.le (map f (List.filter keep bins))).
  { apply IH. intros u v Hu. apply Hmono. right. exact Hu. }
  cbn [List.filter]. destruct (keep a); [|exact Htail].
  cbn [map]. constructor; [exact Htail|].
  apply List.Forall_forall. intros y Hy.
  apply in_map_iff in Hy as (b & <- & Hb). apply filter_In in Hb as [Hb _].
  apply Hmono; [left; reflexivity|].
  rewrite List.Forall_forall in Hhead. apply Hhead, Hb.
Qed.

Section PathOrder.
Context {F : Type} `{Arith F}.

(** The order of the numbers and what the rounded operations of
    [generatePath] keep of it, for the bin width and the bounds at
    hand. *)
Variable le : F -> F -> Prop.
Variable binWidth : F.
Variable fftBounds : Rectangle F.

Hypothesis frequency_positive :
  forall b, (1 <= b)%Z -> ltb zero (of_Z b * binWidth)%fl = true.
Hypothesis frequency_monotone :
  forall a b, (1 <= a <= b)%Z -> le (of_Z a * binWidth)%fl (of_Z b * binWidth)%fl.
Hypothesis log10_monotone :
  forall u v, ltb zero u = true -> le u v -> le (log10 u) (log10 v).
Hypothesis sub_monotone :
  forall u v, le u v -> le (u - log10 (of_Z 20))%fl (v - log10 (of_Z 20))%fl.
Hypothesis div_monotone :
  forall u v, le u v ->
    le (u / (log10 (of_Z 20000) - log10 (of_Z 20)))%fl
       (v / (log10 (of_Z 20000) - log10 (of_Z 20)))%fl.
Hypothesis width_monotone :
  forall u v, le u v -> le (u * getWidth fftBounds)%fl (v * getWidth fftBounds)%fl.
Hypothesis floorZ_monotone :
  forall u v, le u v -> (floorZ u <= floorZ v)%Z.

End PathOrder.

Module RealCoverage.
Import RealModel.
Local Open Scope R_scope.

(** ** Rounding *)

Lemma Int_part_IZR (n : Z) : Int_part (IZR n) = n.
Proof. symmetry. apply Int_part_spec. lra. Qed.

Lemma Int_part_le (x y : R) : x <= y -> (Int_part x <= Int_part y)%Z.
Proof.
  intros Hle.
  destruct (base_Int_part x) as [Hx _]. destruct (base_Int_part y) as [_ Hy].
  assert (Hlt : IZR (Int_part x) < IZR (Int_part y + 1))
    by (rewrite plus_IZR; lra).
  apply lt_IZR in Hlt. lia.
Qed.

Lemma truncZ_unfold (x : R) :
  truncZ x = if Rlt_dec x 0 then (- Int_part (- x))%Z else Int_part x.
Proof. reflexivity. Qed.

Lemma truncZ_IZR (n : Z) : truncZ (IZR n) = n.
Proof.
  rewrite truncZ_unfold. destruct (Rlt_dec (IZR n) 0).
  - rewrite <- opp_IZR, Int_part_IZR. lia.
  - apply Int_part_IZR.
Qed.

Lemma truncZ_between (a b : Z) (x : R) :
  IZR a <= x <= IZR b -> (a <= truncZ x <= b)%Z.
Proof.
  intros [Ha Hb]. rewrite truncZ_unfold. destruct (Rlt_dec x 0).
  - assert (H1 : - IZR b <= - x) by lra.
    assert (H2 : - x <= - IZR a) by lra.
    apply Int_part_le in H1, H2.
    rewrite <- opp_IZR, Int_part_IZR in H1, H2. lia.
  - apply Int_part_le in Ha, Hb. rewrite Int_part_IZR in Ha, Hb. lia.
Qed.

(** ** The logarithmic axis *)

Lemma log_range_pos : 0 < ln 20000 / ln 10 - ln 20 / ln 10.
Proof.
  pose proof Runs.ln_10_pos as Hten.
  assert (Hb : ln 20 < ln 20000) by (apply ln_increasing; lra).
  assert (Hi : 0 < / ln 10) by (apply Rinv_0_lt_compat; exact Hten).
  unfold Rdiv. nra.
Qed.

Lemma mapFromLog10_unfold (v : R) :
  mapFromLog10 v (of_Z 20) (of_Z 20000)
  = (ln v / ln 10 - ln 20 / ln 10) / (ln 20000 / ln 10 - ln 20 / ln 10).
Proof. reflexivity. Qed.

Lemma mapFromLog10_le (u v : R) :
  0 < u -> u <= v ->
  mapFromLog10 u (of_Z 20) (of_Z 20000) <= mapFromLog10 v (of_Z 20) (of_Z 20000).
Proof.
  intros Hpos Hle. rewrite !mapFromLog10_unfold.
  pose proof Runs.ln_10_pos as Hten. pose proof log_range_pos as Hden.
  assert (Hln : ln u <= ln v).
  { destruct Hle as [Hlt| ->]; [left; apply ln_increasing; assumption|right; reflexivity]. }
  assert (Hi : 0 < / ln 10) by (apply Rinv_0_lt_compat; exact Hten).
  assert (Hnum : ln u / ln 10 - ln 20 / ln 10 <= ln v / ln 10 - ln 20 / ln 10)
    by (unfold Rdiv; nra).
  set (d := ln 20000 / ln 10 - ln 20 / ln 10) in *.
  assert (Hd : 0 < / d) by (apply Rinv_0_lt_compat; exact Hden).
  unfold Rdiv at 1 4. apply Rmult_le_compat_r; [lra|exact Hnum].
Qed.

Lemma mapFromLog10_ends :
  mapFromLog10 (of_Z 20) (of_Z 20) (of_Z 20000) = 0
  /\ mapFromLog10 (of_Z 20000) (of_Z 20) (of_Z 20000) = 1.
Proof.
  pose proof log_range_pos as Hden.
  split.
  - change (of_Z 20) with 20. rewrite mapFromLog10_unfold.
    unfold Rdiv at 1. rewrite Rminus_diag. apply Rmult_0_l.
  - change (of_Z 20000) with 20000. rewrite mapFromLog10_unfold.
    apply Rdiv_diag. lra.
Qed.

Lemma mapFromLog10_unit (f : Z) :
  (20 <= f <= 20000)%Z ->
  0 <= mapFromLog10 (of_Z f) (of_Z 20) (of_Z 20000) <= 1.
Proof.
  intros [Hlo Hhi]. destruct mapFromLog10_ends as [H20 H20000].
  apply IZR_le in Hlo, Hhi.
  split.
  - rewrite <- H20. apply mapFromLog10_le; [change (0 < 20); lra|exact Hlo].
  - rewrite <- H20000. apply mapFromLog10_le; [|exact Hhi].
    change (0 < IZR f). lra.
Qed.

(** ** The grid *)

Lemma gridX_unfold (area : Rectangle Z) (f : R) :
  gridX area f
  = IZR (getX area) + IZR (getWidth area) * mapFromLog10 f (of_Z 20) (of_Z 20000).
Proof. reflexivity. Qed.

Lemma gridY_unfold (area : Rectangle Z) (gdB : R) :
  gridY area gdB
  = IZR (getBottom area)
    + (IZR (getY area) - IZR (getBottom area)) * (gdB - -24) / (24 - -24).
Proof. reflexivity. Qed.

Lemma gridX_between (area : Rectangle Z) (f : Z) :
  (0 <= getWidth area)%Z -> (20 <= f <= 20000)%Z ->
  (getX area <= truncZ (gridX area (of_Z f)) <= getRight area)%Z.
Proof.
  intros Hw Hf. apply truncZ_between. rewrite gridX_unfold.
  pose proof (mapFromLog10_unit f Hf) as Hunit.
  apply IZR_le in Hw. unfold getRight. rewrite plus_IZR.
  set (t := mapFromLog10 _ _ _) in *. nra.
Qed.

Lemma gridY_between (area : Rectangle Z) (gdB : Z) :
  (0 <= getHeight area)%Z -> (-24 <= gdB <= 24)%Z ->
  (getY area <= truncZ (gridY area (of_Z gdB)) <= getBottom area)%Z.
Proof.
  intros Hh [Hlo Hhi]. apply truncZ_between. rewrite gridY_unfold.
  apply IZR_le in Hh, Hlo, Hhi. unfold getBottom. rewrite plus_IZR.
  change (of_Z gdB) with (IZR gdB).
  set (g := IZR gdB) in *. set (h := IZR (getHeight area)) in *.
  set (y := IZR (getY area)).
  replace ((y - (y + h)) * (g - -24) / (24 - -24)) with (- h * ((g + 24) / 48))
    by field.
  assert (0 <= (g + 24) / 48 <= 1) by (split; lra).
  nra.
Qed.

Lemma Int_part_half (s : Z) : Int_part (IZR s / 2) = (s / 2)%Z.
Proof.
  symmetry. apply Int_part_spec.
  pose proof (Z.div_mod s 2 ltac:(lia)) as Hs.
  pose proof (Z.mod_pos_bound s 2 ltac:(lia)) as Hr.
  set (q := (s / 2)%Z) in *. set (r := (s mod 2)%Z) in *.
  rewrite Hs, plus_IZR, mult_IZR.
  assert (0 <= IZR r <= 1).
  { split; [apply IZR_le; lia|]. apply (IZR_le r 1). lia. }
  lra.
Qed.

(** X16: the grid of [resized] lies inside the analysis area: every
    vertical line runs from the top to the bottom of the area at an
    abscissa between its left and its right edge, the line of 20 Hz on the
    left edge and the line of 20 kHz on the right edge; every horizontal
    line runs from the left to the right edge at an ordinate between top
    and bottom, the line of -24 dB on the bottom edge and the line of
    +24 dB on the top edge; the line of 0 dB, the only red one, is half
    way between them. *)
Theorem grid_lines_lie_inside_the_analysis_area (area : Rectangle Z) :
  (0 <= getWidth area)%Z ->
  (0 <= getHeight area)%Z ->
  Forall (fun line =>
            match line with
            | VerticalLine x top bottom =>
                (getX area <= x <= getRight area)%Z
                /\ top = getY area /\ bottom = getBottom area
            | HorizontalLine red y from to =>
                (getY area <= y <= getBottom area)%Z
                /\ from = getX area /\ to = getRight area
            end)
    (resized_lines area)
  /\ resized_lines area !! 0%nat
     = Some (VerticalLine (getX area) (getY area) (getBottom area))
  /\ resized_lines area !! 9%nat
     = Some (VerticalLine (getRight area) (getY area) (getBottom area))
  /\ resized_lines area !! 10%nat
     = Some (HorizontalLine false (getBottom area) (getX area) (getRight area))
  /\ resized_lines area !! 14%nat
     = Some (HorizontalLine false (getY area) (getX area) (getRight area))
  /\ ((0 <= getY area)%Z ->
      resized_lines area !! 12%nat
      = Some (HorizontalLine true ((getY area + getBottom area) / 2)%Z
                (getX area) (getRight area)))
  /\ (forall red y from to,
        In (HorizontalLine red y from to) (resized_lines area) ->
        red = true -> y = truncZ (gridY area (of_Z 0))).
Proof.
  intros Hw Hh.
  destruct mapFromLog10_ends as [H20 H20000].
  assert (Hleft : truncZ (gridX area (of_Z 20)) = getX area).
  { rewrite gridX_unfold, H20, Rmult_0_r, Rplus_0_r. apply truncZ_IZR. }
  assert (Hright : truncZ (gridX area (of_Z 20000)) = getRight area).
  { rewrite gridX_unfold, H20000, Rmult_1_r, <- plus_IZR. apply truncZ_IZR. }
  assert (Hbottom : truncZ (gridY area (of_Z (-24))) = getBottom area).
  { rewrite gridY_unfold. change (of_Z (-24)) with (-24).
    replace (IZR (getBottom area)
             + (IZR (getY area) - IZR (getBottom area)) * (-24 - -24) / (24 - -24))
      with (IZR (getBottom area)) by field.
    apply truncZ_IZR. }
  assert (Htop : truncZ (gridY area (of_Z 24)) = getY area).
  { rewrite gridY_unfold. change (of_Z 24) with 24.
    replace (IZR (getBottom area)
             + (IZR (getY area) - IZR (getBottom area)) * (24 - -24) / (24 - -24))
      with (IZR (getY area)) by field.
    apply truncZ_IZR. }
  split; [|split; [|split; [|split; [|split; [|split]]]]].
  - unfold resized_lines. apply Forall_app. split.
    + apply Forall_map. unfold gridFrequencies.
      repeat (apply Forall_cons; split;
              [split; [apply gridX_between; [exact Hw|lia]|split; reflexivity]|]).
      constructor.
    + apply Forall_map. unfold gridGains.
      repeat (apply Forall_cons; split;
              [split; [apply gridY_between; [exact Hh|lia]|split; reflexivity]|]).
      constructor.
  - rewrite <- Hleft at 1. reflexivity.
  - rewrite <- Hright at 1. reflexivity.
  - rewrite <- Hbottom at 1. reflexivity.
  - rewrite <- Htop at 1. reflexivity.
  - intros Hy.
    assert (Hmid : truncZ (gridY area (of_Z 0)) = ((getY area + getBottom area) / 2)%Z).
    { rewrite gridY_unfold. change (of_Z 0) with 0.
      replace (IZR (getBottom area)
               + (IZR (getY area) - IZR (getBottom area)) * (0 - -24) / (24 - -24))
        with (IZR (getY area + getBottom area) / 2)
        by (rewrite plus_IZR; field).
      rewrite truncZ_unfold.
      assert (Hsum : 0 <= IZR (getY area + getBottom area))
        by (apply IZR_le; unfold getBottom; lia).
      destruct (Rlt_dec _ 0) as [Hneg|_]; [lra|].
      apply Int_part_half. }
    rewrite <- Hmid. reflexivity.
  - intros red y from to Hin Hred. unfold resized_lines in Hin.
    apply in_app_or in Hin as [Hin|Hin]; apply in_map_iff in Hin as (g & Heq & Hg).
    + discriminate.
    + injection Heq as <- <- <- <-.
      apply Z.eqb_eq in Hred. now subst g.
Qed.

(** ** The path of the analyser *)

Lemma filter_isFinite (value : Z -> R) (bins : list Z) :
  List.filter (fun b => isFinite (value b)) bins = bins.
Proof.
  induction bins as [|b bins IH]; [reflexivity|].
  cbn [List.filter]. change (isFinite (value b)) with true. now rewrite IH.
Qed.

Lemma R_generatedPath (renderData : list R) (fftBounds : Rectangle R)
    (fftSize : Z) (binWidth negInf : R) :
  generatedPath renderData fftBounds fftSize binWidth negInf
  = StartNewSubPath zero
      (jmap (at_index renderData 0) negInf zero (getHeight fftBounds) (getY fftBounds))
    :: map (fun b =>
              LineTo
                (of_Z (floorZ (mapFromLog10 (of_Z b * binWidth)%fl (of_Z 20)
                                 (of_Z 20000) * getWidth fftBounds)%fl))
                (jmap (at_index renderData b) negInf zero
                   (getHeight fftBounds) (getY fftBounds)))
         (visitedBins (Z.quot fftSize 2)).
Proof.
  rewrite generatedPath_bins, omap_binPoint.
  rewrite (filter_isFinite
             (fun b => jmap (at_index renderData b) negInf zero
                         (getHeight fftBounds) (getY fftBounds))).
  reflexivity.
Qed.

(** ** The analyser trace on screen *)

Lemma screen_level (area : Rectangle Z) (v : R) :
  (jmap v (of_Z (-48)) zero (getHeight (toFloat area)) (getY (toFloat area))
   + of_Z (getY area))%fl
  = IZR (getBottom area) - (v + 48) / 48 * IZR (getHeight area - getY area).
Proof.
  change ((IZR (getHeight area)
           + (IZR (getY area) - IZR (getHeight area)) * (v - -48) / (0 - -48))
          + IZR (getY area)
          = IZR (getBottom area) - (v + 48) / 48 * IZR (getHeight area - getY area)).
  unfold getBottom. rewrite plus_IZR, minus_IZR. field.
Qed.

Lemma R_translated_path (renderData : list R) (area : Rectangle Z)
    (fftSize : Z) (binWidth : R) :
  let level (v : R) :=
    IZR (getBottom area) - (v + 48) / 48 * IZR (getHeight area - getY area) in
  let x (b : Z) :=
    IZR (floorZ (mapFromLog10 (of_Z b * binWidth)%fl (of_Z 20) (of_Z 20000)
                 * IZR (getWidth area))%fl) in
  applyTranslation (of_Z (getX area)) (of_Z (getY area))
    (generatedPath renderData (toFloat area) fftSize binWidth (of_Z (-48)))
  = StartNewSubPath (0 + IZR (getX area)) (level (at_index renderData 0))
    :: map (fun b => LineTo (x b + IZR (getX area)) (level (at_index renderData b)))
         (visitedBins (Z.quot fftSize 2)).
Proof.
  intros level x. rewrite R_generatedPath. unfold applyTranslation.
  cbn [map translateElement]. rewrite screen_level. f_equal.
  rewrite map_map. apply map_ext. intros b.
  cbn [translateElement]. rewrite screen_level. reflexivity.
Qed.

Lemma level_facts (area : Rectangle Z) (v : R) :
  let level := IZR (getBottom area) - (v + 48) / 48 * IZR (getHeight area - getY area) in
  (v = -48 -> level = IZR (getBottom area))
  /\ (v = 0 -> level = IZR (2 * getY area))
  /\ (-48 <= v <= 0 -> (getY area <= getHeight area)%Z ->
      IZR (2 * getY area) <= level <= IZR (getBottom area)).
Proof.
  intros level. unfold level, getBottom.
  rewrite mult_IZR, plus_IZR, minus_IZR.
  split; [intros ->; field|]. split; [intros ->; field|].
  intros [Hlo Hhi] Harea. apply IZR_le in Harea.
  assert (0 <= (v + 48) / 48 <= 1) by (split; lra).
  split; nra.
Qed.

(** X18: where the analyser draws its levels.  For a component whose
    left path was generated from a frame for its analysis area, as
    [timerCallback] does, the first path [paint] strokes for the
    analyser has, for every element, a bin of the frame it was drawn for,
    bin 0 or an odd bin below N/2, such that: if the bin is at the floor
    of -48 dB the element lies on the bottom edge of the area; if it is at
    0 dB the element lies at twice [getY], that is [getY] pixels below
    the top edge, on it only when [getY] is 0; and a bin between the two
    is drawn between these ordinates when the area is at least as high as
    its [getY].  Every such bin at -48 dB or at 0 dB has its element in
    the path. *)
Theorem analyser_levels_on_screen
    (c : ResponseCurveComponent R) (frame : list R) (fftSize : Z) (binWidth : R) :
  shouldShowFFTAnalysis c = true ->
  PathProducer_getPath (leftPathProducer c)
  = generatedPath frame (toFloat (getAnalysisArea c)) fftSize binWidth (of_Z (-48)) ->
  let area := getAnalysisArea c in
  let bins := 0%Z :: visitedBins (Z.quot fftSize 2) in
  exists stroked rest,
    paint_fft c = StrokePath fftLeftColor stroked :: rest
    /\ Forall
         (fun e =>
            exists b, In b bins
              /\ (at_index frame b = -48 -> ordinate e = IZR (getBottom area))
              /\ (at_index frame b = 0 -> ordinate e = IZR (2 * getY area))
              /\ (-48 <= at_index frame b <= 0 -> (getY area <= getHeight area)%Z ->
                  IZR (2 * getY area) <= ordinate e <= IZR (getBottom area)))
         stroked
    /\ (forall b, In b bins -> at_index frame b = -48 ->
          exists e, In e stroked /\ ordinate e = IZR (getBottom area))
    /\ (forall b, In b bins -> at_index frame b = 0 ->
          exists e, In e stroked /\ ordinate e = IZR (2 * getY area))
    /\ (IZR (2 * getY area) = IZR (getY area) <-> getY area = 0%Z).
Proof.
  intros Hshow Hpath area bins.
  unfold paint_fft. rewrite Hshow. fold area. rewrite Hpath.
  pose proof (R_translated_path frame area fftSize binWidth) as Htranslated.
  cbn zeta in Htranslated. fold area. rewrite Htranslated.
  set (level := fun v : R =>
                  IZR (getBottom area) - (v + 48) / 48 * IZR (getHeight area - getY area)).
  set (x := fun b : Z =>
              IZR (floorZ (mapFromLog10 (of_Z b * binWidth)%fl (of_Z 20) (of_Z 20000)
                           * IZR (getWidth area))%fl)).
  assert (Hfacts : forall b e, ordinate e = level (at_index frame b) ->
            (at_index frame b = -48 -> ordinate e = IZR (getBottom area))
            /\ (at_index frame b = 0 -> ordinate e = IZR (2 * getY area))
            /\ (-48 <= at_index frame b <= 0 -> (getY area <= getHeight area)%Z ->
                IZR (2 * getY area) <= ordinate e <= IZR (getBottom area))).
  { intros b e ->. apply (level_facts area (at_index frame b)). }
  eexists _, _. split; [reflexivity|].
  split; [|split; [|split]].
  - apply List.Forall_cons.
    + exists 0%Z. split; [left; reflexivity|]. now apply Hfacts.
    + apply Forall_map. apply List.Forall_forall. intros b Hb.
      exists b. split; [right; exact Hb|]. now apply Hfacts.
  - intros b [<-|Hb] Hfloor.
    + eexists. split; [left; reflexivity|]. now apply (Hfacts 0%Z).
    + exists (LineTo (x b + IZR (getX area)) (level (at_index frame b))).
      split; [right; apply in_map_iff; eauto|]. now apply (Hfacts b).
  - intros b [<-|Hb] Hzero.
    + eexists. split; [left; reflexivity|]. now apply (Hfacts 0%Z).
    + exists (LineTo (x b + IZR (getX area)) (level (at_index frame b))).
      split; [right; apply in_map_iff; eauto|]. now apply (Hfacts b).
  - split.
    + intros Heq. apply eq_IZR in Heq. lia.
    + intros ->. reflexivity.
Qed.

Lemma gainToDecibels_floor (gain floor : R) : floor <= gainToDecibels gain floor.
Proof.
  unfold gainToDecibels, jmax.
  change (ltb zero gain) with (Rltb 0 gain).
  destruct (Rltb 0 gain); [|lra].
  change (ltb floor (log10 gain * of_Z 20)%fl) with (Rltb floor (log10 gain * of_Z 20)%fl).
  unfold Rltb. destruct (Rlt_dec floor _); lra.
Qed.

(** X19: the trace of the analyser never drops below the bottom edge.
    The bins [produceFFTDataForRendering] writes are not below the floor
    of -48 dB, [generatePath] reads only such bins, and so, when the
    analysis area is at least as high as its [getY], every point of the
    path [paint] strokes for the frame has an ordinate that does not
    exceed the bottom edge of the area. *)
Theorem analyser_trace_stays_above_the_bottom_edge
    (window : list R) (g : FFTDataGenerator R) (area : Rectangle Z) (binWidth : R) :
  let N := Z.to_nat (getFFTSize g) in
  (N <= length window)%nat ->
  (N <= length (fftData g))%nat ->
  (getY area <= getHeight area)%Z ->
  let frame := fftData (produceFFTDataForRendering window (of_Z (-48)) g) in
  let path := applyTranslation (of_Z (getX area)) (of_Z (getY area))
                (generatedPath frame (toFloat area) (getFFTSize g) binWidth
                   (of_Z (-48))) in
  (forall b, b = 0%Z \/ In b (visitedBins (Z.quot (getFFTSize g) 2)) ->
     -48 <= at_index frame b)
  /\ Forall (fun e => match e with
                      | StartNewSubPath _ y | LineTo _ y => y <= IZR (getBottom area)
                      end) path.
Proof.
  intros N Hwin Hdata Harea frame path.
  destruct (getFFTSize_pos g) as (Hpos & Hquot & Hle & Hdiv).
  assert (Hbins : forall b, b = 0%Z \/ In b (visitedBins (Z.quot (getFFTSize g) 2)) ->
                    -48 <= at_index frame b).
  { intros b Hb.
    assert (Hrange : (Z.to_nat b < Z.to_nat (getFFTSize g / 2))%nat).
    { assert (1024 <= getFFTSize g / 2)%Z by (apply Z.div_le_lower_bound; lia).
      destruct Hb as [->|Hb]; [lia|].
      apply visitedBins_below in Hb. rewrite Hquot in Hb. lia. }
    destruct (produceFFTData_bin window (of_Z (-48)) g (Z.to_nat b) Hwin Hdata Hrange)
      as [gain Hgain].
    unfold at_index. fold frame in Hgain. rewrite Hgain. cbn [default].
    apply (gainToDecibels_floor gain (-48)). }
  split; [exact Hbins|].
  assert (Hlevel : forall v, -48 <= v ->
            IZR (getBottom area) - (v + 48) / 48 * IZR (getHeight area - getY area)
            <= IZR (getBottom area)).
  { intros v Hv.
    assert (0 <= IZR (getHeight area - getY area)) by (apply IZR_le; lia).
    assert (0 <= (v + 48) / 48) by lra.
    nra. }
  unfold path. rewrite R_translated_path.
  apply Forall_cons. split; [apply Hlevel, Hbins; left; reflexivity|].
  apply Forall_map. apply Forall_forall. intros b Hb.
  apply Hlevel, Hbins. right. apply list_elem_of_In. exact Hb.
Qed.
(** Over the real numbers the operations of [generatePath] keep the
    order, for a positive bin width and a width that is not negative. *)
Lemma R_operations_keep_the_order (binWidth width : R) :
  0 < binWidth -> 0 <= width ->
  (forall b, (1 <= b)%Z -> ltb zero (of_Z b * binWidth)%fl = true)
  /\ (forall a b, (1 <= a <= b)%Z -> (of_Z a * binWidth)%fl <= (of_Z b * binWidth)%fl)
  /\ (forall u v : R, ltb zero u = true -> u <= v -> log10 u <= log10 v)
  /\ (forall u v : R, u <= v -> (u - log10 (of_Z 20))%fl <= (v - log10 (of_Z 20))%fl)
  /\ (forall u v : R, u <= v ->
        (u / (log10 (of_Z 20000) - log10 (of_Z 20)))%fl
        <= (v / (log10 (of_Z 20000) - log10 (of_Z 20)))%fl)
  /\ (forall u v : R, u <= v -> (u * width)%fl <= (v * width)%fl)
  /\ (forall u v : R, u <= v -> (floorZ u <= floorZ v)%Z).
Proof.
  intros Hbw Hwidth.
  pose proof Runs.ln_10_pos as Hten. pose proof log_range_pos as Hden.
  assert (Hi : 0 < / ln 10) by (apply Rinv_0_lt_compat; exact Hten).
  repeat split.
  - intros b Hb. apply IZR_le in Hb.
    change (Rltb 0 (IZR b * binWidth) = true). unfold Rltb.
    destruct (Rlt_dec 0 (IZR b * binWidth)) as [|Hno]; [reflexivity|].
    exfalso. apply Hno. nra.
  - intros a b [Ha Hab]. apply IZR_le in Ha, Hab.
    change (IZR a * binWidth <= IZR b * binWidth). nra.
  - intros u v Hu Huv. change (Rltb 0 u = true) in Hu. unfold Rltb in Hu.
    destruct (Rlt_dec 0 u) as [Hpos|]; [|discriminate].
    change (ln u / ln 10 <= ln v / ln 10).
    assert (Hln : ln u <= ln v).
    { destruct Huv as [Hlt| ->];
        [left; apply ln_increasing; assumption|right; reflexivity]. }
    unfold Rdiv. nra.
  - intros u v Huv. change (u - ln 20 / ln 10 <= v - ln 20 / ln 10). lra.
  - intros u v Huv.
    change (u / (ln 20000 / ln 10 - ln 20 / ln 10)
            <= v / (ln 20000 / ln 10 - ln 20 / ln 10)).
    set (d := ln 20000 / ln 10 - ln 20 / ln 10) in *.
    assert (Hd : 0 < / d) by (apply Rinv_0_lt_compat; exact Hden).
    unfold Rdiv. nra.
  - intros u v Huv. change (u * width <= v * width). nra.
  - intros u v Huv. apply Int_part_le. exact Huv.
Qed.
End RealCoverage.

(** * Runs of the further properties *)

Module CoverageRuns.
Import RealModel.
Local Open Scope R_scope.

(** The analysis area of the 600 x 118 component. *)
Lemma area0_sizes :
  let area := mkRectangle 20%Z 16%Z 560%Z 96%Z in
  (0 < getWidth area)%Z /\ (0 <= getWidth area)%Z /\ (0 <= getHeight area)%Z
  /\ (getY area <= getHeight area)%Z.
Proof. simpl. lia. Qed.

Lemma SCSF_update_channel (q q' : SingleChannelSampleFifo R) (buffer : AudioBuffer R) :
  SCSF_update buffer q = Some q' -> channelToUse q' = channelToUse q.
Proof.
  unfold SCSF_update. destruct (buffer !! channelToUse q); [|discriminate].
  intros Heq. injection Heq as <-. reflexivity.
Qed.

Lemma R_designs_cover_the_active_sections (settings : ChainSettings R) (rate : R) (k : nat) :
  (sectionActive (lowCutSlope settings) k = true ->
   is_Some (makeLowCutFilter settings rate !! k))
  /\ (sectionActive (highCutSlope settings) k = true ->
      is_Some (makeHighCutFilter settings rate !! k)).
Proof.
  unfold sectionActive. split; intros Hactive%Z.ltb_lt; apply lookup_lt_is_Some_2.
  - change (makeLowCutFilter settings rate)
      with (R_butterworth R_makeHighPass (lowCutFreq settings) rate (lowCutSlope settings)).
    unfold R_butterworth. rewrite length_map, length_seq. lia.
  - change (makeHighCutFilter settings rate)
      with (R_butterworth R_makeLowPass (highCutFreq settings) rate (highCutSlope settings)).
    unfold R_butterworth. rewrite length_map, length_seq. lia.
Qed.

(** A run of X2: clearing channel 1 of the stereo block. *)
Lemma clearing_run :
  exists cleared,
    clearChannels 1 1 stereoBlock = Some cleared
    /\ length cleared = length stereoBlock
    /\ cleared !! 0%nat = stereoBlock !! 0%nat.
Proof.
  destruct (clearing_loop_zeroes_its_range_only 1 1 stereoBlock)
    as (cleared & Hc & Hlen & _ & Hout & _); [right; simpl; lia|].
  exists cleared. split; [exact Hc|]. split; [exact Hlen|].
  apply Hout. lia.
Defined.

(** A run of X3: one stereo block through the fresh processor. *)
Lemma processBlock_channels_run :
  exists p' buffer',
    processBlock processor0 stereoBlock = Some (p', buffer')
    /\ length buffer' = length stereoBlock
    /\ sampleRate p' = sampleRate processor0.
Proof.
  destruct (processBlock_defined processor0 stereoBlock)
    as (c1 & l1 & r1 & lf1 & rf1 & _ & _ & _ & Hrest);
    [simpl; lia | simpl; lia | simpl; lia | simpl; lia |].
  cbn zeta in Hrest. destruct Hrest as (_ & _ & Hpb).
  eexists _, _. split; [exact Hpb|].
  destruct (processBlock_filters_two_channels_only _ _ _ _ Hpb)
    as (Hlen & _ & _ & _ & Hrate & _).
  split; [exact Hlen|exact Hrate].
Defined.

(** A run of X5: two stereo blocks through the fresh processor. *)
Lemma two_blocks_run :
  exists p1 b1 p2 b2,
    processBlock processor0 stereoBlock = Some (p1, b1)
    /\ processBlock p1 stereoBlock = Some (p2, b2)
    /\ chainCoefficients (leftChain p2) = chainCoefficients (leftChain p1)
    /\ chainCoefficients (rightChain p2) = chainCoefficients (rightChain p1).
Proof.
  destruct (processBlock_defined processor0 stereoBlock)
    as (c1 & l1 & r1 & lf1 & rf1 & _ & _ & _ & Hrest);
    [simpl; lia | simpl; lia | simpl; lia | simpl; lia |].
  cbn zeta in Hrest. destruct Hrest as (Hlf1 & Hrf1 & Hpb1).
  apply SCSF_update_channel in Hlf1, Hrf1.
  match type of Hpb1 with
  | _ = Some (?q, ?b) => set (p1 := q) in *; set (b1 := b) in *
  end.
  destruct (processBlock_defined p1 stereoBlock)
    as (c2 & l2 & r2 & lf2 & rf2 & _ & _ & _ & Hrest).
  - simpl; lia.
  - simpl; lia.
  - change (channelToUse lf1 < 2)%nat. rewrite Hlf1. simpl; lia.
  - change (channelToUse rf1 < 2)%nat. rewrite Hrf1. simpl; lia.
  - cbn zeta in Hrest. destruct Hrest as (_ & _ & Hpb2).
    eexists p1, b1, _, _. split; [exact Hpb1|]. split; [exact Hpb2|].
    destruct (coefficients_settle_after_the_first_block _ _ _ _ _ _ _ Hpb1 Hpb2)
      as (Hl & Hr & _).
    split; [exact Hl|exact Hr].
Defined.

(** A run of X7: the chain the editor's constructor builds and the chains
    of the processor. *)
Lemma editor_chain_run :
  computeMags (updateChain_monoChain processor0 newMonoChain) 48000 560
  = computeMags (leftChain (updateFilters processor0)) 48000 560
  /\ updateChain_monoChain processor0 newMonoChain
     = leftChain (updateFilters processor0).
Proof.
  destruct (response_curve_follows_the_audio_filters processor0 newMonoChain 48000 560)
    as (Hleft & _ & Hsame & _).
  - intros k _. apply R_designs_cover_the_active_sections.
  - intros k _. apply R_designs_cover_the_active_sections.
  - split; [exact Hleft|]. apply Hsame. reflexivity.
Defined.


(** A run of X9: a block of four samples enters the window of 2048. *)
Lemma window_run :
  monoBuffer (process_buffer [1; 0; 0; 0] newPathProducer)
  = drop 4 (replicate 2048 0) ++ [1; 0; 0; 0].
Proof.
  destruct (window_holds_the_newest_samples [[1; 0; 0; 0]] newPathProducer)
    as (_ & _ & Hone).
  - constructor; [|constructor].
    change (4 <= length (replicate 2048 (0 : R)))%nat.
    rewrite length_replicate. lia.
  - exact (Hone _ eq_refl).
Defined.

(** A run of X10: the frame of the first block. *)
Lemma frames_run :
  let analysed := process_buffer [1; 0; 0; 0] newPathProducer in
  let g' := leftChannelFFTDataGenerator analysed in
  order g' = order2048 /\ length (fftData g') = 4096%nat.
Proof.
  intros analysed g'.
  destruct (frames_keep_the_size_of_the_work_array [[1; 0; 0; 0]] newPathProducer)
    as (Horder & Hlen & _).
  - change (2048 <= length (replicate 2048 (0 : R)))%nat.
    rewrite length_replicate. lia.
  - apply length_replicate.
  - constructor; [|constructor].
    change (4 <= length (replicate 2048 (0 : R)))%nat.
    rewrite length_replicate. lia.
  - constructor.
  - split; [exact Horder|exact Hlen].
Defined.

(** A run of X11: a sample beyond the first 2048 leaves no trace. *)
Lemma frame_head_run :
  let g := leftChannelFFTDataGenerator newPathProducer in
  fftData (produceFFTDataForRendering (replicate 2048 0 ++ [1]) (of_Z (-48)) g)
  = fftData (produceFFTDataForRendering (replicate 2048 0) (of_Z (-48)) g).
Proof.
  intros g.
  apply frame_depends_on_the_window_head_only; [reflexivity|reflexivity|].
  change (take 2048 (replicate 2048 (0 : R) ++ [1]) = take 2048 (replicate 2048 (0 : R))).
  rewrite take_app_length' by (now rewrite length_replicate).
  rewrite take_ge by (rewrite length_replicate; lia). reflexivity.
Defined.

(** A run of X13: one audio callback, one timer callback. *)
Lemma analyser_pipeline_run :
  exists c1 buffer' (cleared : AudioBuffer R) leftIn,
    audioCallback stereoBlock component0 = Some (c1, buffer')
    /\ cleared !! 0%nat = Some leftIn
    /\ buffer' !! 0%nat
       = Some (snd (MonoChain_process (leftChain (updateFilters processor0)) leftIn)).
Proof.
  destruct (analyser_window_takes_the_filtered_block component0 stereoBlock)
    as (c1 & buffer' & cleared & leftIn & rightIn & Hcb & _ & Hin & _ & Hrest);
    [reflexivity | simpl; lia | simpl; lia | reflexivity | reflexivity
     | reflexivity | reflexivity | simpl; lia | simpl; lia |].
  cbn zeta in Hrest. destruct Hrest as (Hout & _).
  exists c1, buffer', cleared, leftIn.
  split; [exact Hcb|]. split; [exact Hin|exact Hout].
Defined.

(** A run of X14: the areas of the 600 x 118 component. *)
Lemma analysis_area_run :
  getAnalysisArea component0 = mkRectangle 20%Z 16%Z 560%Z 96%Z
  /\ (getBottom (getAnalysisArea component0) <= getBottom (getRenderArea component0))%Z.
Proof.
  destruct (analysis_area_lies_inside_the_component component0)
    as (_ & _ & _ & _ & _ & _ & _ & _ & Hbottom & _ & Hexact);
    [simpl; lia | simpl; lia |].
  split; [|exact Hbottom].
  apply Hexact; simpl; lia.
Defined.

(** A run of X16: the first grid line of the analysis area. *)
Lemma grid_run :
  let area := mkRectangle 20%Z 16%Z 560%Z 96%Z in
  resized_lines area !! 0%nat
  = Some (VerticalLine (getX area) (getY area) (getBottom area)).
Proof.
  intros area.
  destruct (RealCoverage.grid_lines_lie_inside_the_analysis_area area) as (_ & Hfirst & _).
  - apply area0_sizes.
  - apply area0_sizes.
  - exact Hfirst.
Defined.


(** A run of X18: the path of a frame at the floor is stroked along the
    bottom edge of the analysis area. *)
Lemma levels_run :
  let frame : list R := replicate 4096 (-48) in
  let shown := generatedPath frame (toFloat (getAnalysisArea component0)) 2048
                 (48000 / 2048)%R (of_Z (-48)) in
  let producer := mkPathProducer (monoBuffer newPathProducer)
                    (leftChannelFFTDataGenerator newPathProducer)
                    (pathProducer newPathProducer) shown in
  let c := mkResponseCurveComponent processor0 false (monoChain component0)
             producer newPathProducer true (mkRectangle 0 0 600 118)%Z false in
  exists stroked rest e,
    paint_fft c = StrokePath fftLeftColor stroked :: rest
    /\ In e stroked
    /\ ordinate e = IZR (getBottom (getAnalysisArea c)).
Proof.
  intros frame shown producer c.
  destruct (RealCoverage.analyser_levels_on_screen c frame 2048 (48000 / 2048)%R)
    as (stroked & rest & Hpaint & _ & Hfloor & _).
  - reflexivity.
  - reflexivity.
  - destruct (Hfloor 0%Z) as (e & He & Hy).
    + left. reflexivity.
    + unfold frame, at_index. now rewrite lookup_replicate_2 by (simpl; lia).
    + exists stroked, rest, e. auto.
Defined.

(** A run of X19: the first frame of a silent window. *)
Lemma trace_run :
  let g := leftChannelFFTDataGenerator newPathProducer in
  let frame := fftData (produceFFTDataForRendering (replicate 2048 0) (of_Z (-48)) g) in
  -48 <= at_index frame 0.
Proof.
  intros g frame.
  destruct (RealCoverage.analyser_trace_stays_above_the_bottom_edge (replicate 2048 0) g
              (mkRectangle 20%Z 16%Z 560%Z 96%Z) (48000 / 2048)) as [Hbins _].
  - change (2048 <= length (replicate 2048 (0 : R)))%nat.
    rewrite length_replicate. lia.
  - change (2048 <= length (replicate (Z.to_nat (2048 * 2)) (zero : R)))%nat.
    rewrite length_replicate. lia.
  - apply area0_sizes.
  - apply Hbins. left. reflexivity.
Defined.
End CoverageRuns.

(** * The rotary sliders *)

Lemma half_split (a : Z) :
  (0 <= a)%Z -> (0 <= Z.quot a 2 /\ 2 * Z.quot a 2 <= a <= 2 * Z.quot a 2 + 1)%Z.
Proof.
  intros Ha. rewrite Z.quot_div_nonneg by lia.
  pose proof (Z.div_mod a 2 ltac:(lia)) as Hsplit.
  pose proof (Z.mod_pos_bound a 2 ltac:(lia)) as Hrem.
  lia.
Qed.

(** X20: the bounds of the rotary slider are a square of side
    min (width, height) - 28 whose top is at 2 and whose centre abscissa is
    that of the component; when the side is not negative the square lies
    between the left and the right edge of the component and, for a
    component at ordinate 0, between its top and its bottom; a component
    smaller than 28 pixels in one direction gets a square of negative
    side. *)
Theorem slider_bounds_form_a_centred_square (bounds : Rectangle Z) :
  let r := getSliderBounds bounds in
  let side := (Z.min (getWidth bounds) (getHeight bounds) - 28)%Z in
  getWidth r = side /\ getHeight r = side /\ getY r = 2%Z
  /\ getCentreX r = getCentreX bounds
  /\ ((0 <= side)%Z ->
      (getX bounds <= getX r)%Z /\ (getRight r <= getRight bounds)%Z
      /\ (getY bounds = 0%Z ->
          (getY bounds <= getY r)%Z /\ (getBottom r <= getBottom bounds)%Z))
  /\ ((getWidth bounds < 28)%Z \/ (getHeight bounds < 28)%Z -> (getWidth r < 0)%Z).
Proof.
  intros r side. unfold r, getSliderBounds, setY, setCentre, setSize, getCentreX,
    getRight, getBottom, getTextHeight.
  cbn [getX getY getWidth getHeight]. change (14 * 2)%Z with 28%Z. fold side.
  split; [lia|]. split; [lia|]. split; [reflexivity|]. split; [lia|].
  split; [|unfold side; lia].
  intros Hside.
  assert (Hw : (0 <= getWidth bounds)%Z) by (unfold side in Hside; lia).
  destruct (half_split side Hside) as (Hs0 & Hs1).
  destruct (half_split (getWidth bounds) Hw) as (Hw0 & Hw1).
  assert (Hle : (side <= getWidth bounds - 28)%Z) by (unfold side; lia).
  split; [lia|]. split; [lia|].
  intros Hy. unfold side in *. lia.
Qed.

Module SliderCoverage.
Import RealModel RealSlider.
Local Open Scope R_scope.

Lemma pointerAngle_unfold (value rangeStart rangeEnd : R) :
  pointerAngle value rangeStart rangeEnd
  = startAng
    + (endAng - startAng) * ((0 + (1 - 0) * (value - rangeStart) / (rangeEnd - rangeStart)) - 0)
      / (1 - 0).
Proof. reflexivity. Qed.

(** X21: the pointer of a rotary slider sweeps three quarters of a turn.
    The end angle exceeds the start angle, as the assertion of
    [drawRotarySlider] demands; at the start of the range the pointer is
    turned by 225 degrees, at its end by 495 degrees, which is 270
    degrees further; in between the angle grows with the value and stays
    between the two. *)
Theorem pointer_sweeps_three_quarters_of_a_turn (rangeStart rangeEnd : R) :
  rangeStart < rangeEnd ->
  startAng < endAng
  /\ startAng = 5 * PI / 4
  /\ endAng - startAng = 3 * PI / 2
  /\ pointerAngle rangeStart rangeStart rangeEnd = startAng
  /\ pointerAngle rangeEnd rangeStart rangeEnd = endAng
  /\ (forall u v, u < v ->
        pointerAngle u rangeStart rangeEnd < pointerAngle v rangeStart rangeEnd)
  /\ (forall v, rangeStart <= v <= rangeEnd ->
        startAng <= pointerAngle v rangeStart rangeEnd <= endAng).
Proof.
  intros Hrange. pose proof PI_RGT_0 as Hpi.
  assert (Hstart : startAng = 5 * PI / 4)
    by (unfold startAng, degreesToRadians; field).
  assert (Hsweep : endAng - startAng = 3 * PI / 2)
    by (unfold endAng, startAng, degreesToRadians; field).
  assert (Hangle : forall v, pointerAngle v rangeStart rangeEnd
                             = startAng
                               + 3 * PI / 2 * ((v - rangeStart) / (rangeEnd - rangeStart))).
  { intros v. rewrite pointerAngle_unfold, Hsweep. field. lra. }
  assert (Hmono : forall u v, u < v ->
            (u - rangeStart) / (rangeEnd - rangeStart)
            < (v - rangeStart) / (rangeEnd - rangeStart)).
  { intros u v Huv. unfold Rdiv. apply Rmult_lt_compat_r; [|lra].
    apply Rinv_0_lt_compat. lra. }
  split; [lra|]. split; [exact Hstart|]. split; [exact Hsweep|].
  split; [rewrite Hangle; replace (rangeStart - rangeStart) with 0 by ring;
          unfold Rdiv; rewrite Rmult_0_l; lra|].
  split; [rewrite Hangle; rewrite Rdiv_diag by lra; lra|].
  split.
  - intros u v Huv. rewrite !Hangle. specialize (Hmono u v Huv). nra.
  - intros v [Hlo Hhi]. rewrite Hangle.
    assert (H0 : 0 <= (v - rangeStart) / (rangeEnd - rangeStart)).
    { destruct Hlo as [Hlt| <-].
      - left. replace 0 with ((rangeStart - rangeStart) / (rangeEnd - rangeStart))
          by (unfold Rdiv; ring).
        now apply Hmono.
      - right. unfold Rdiv. ring. }
    assert (H1 : (v - rangeStart) / (rangeEnd - rangeStart) <= 1).
    { destruct Hhi as [Hlt| ->].
      - left. replace 1 with ((rangeEnd - rangeStart) / (rangeEnd - rangeStart))
          by (apply Rdiv_diag; lra).
        now apply Hmono.
      - right. apply Rdiv_diag. lra. }
    split; nra.
Qed.

(** A run of X21: the peak gain slider, from -24 dB to 24 dB, at 0 dB. *)
Lemma pointer_run :
  startAng <= pointerAngle 0 (-24) 24 <= endAng.
Proof.
  destruct (pointer_sweeps_three_quarters_of_a_turn (-24) 24)
    as (_ & _ & _ & _ & _ & _ & Hbetween); [lra|].
  apply Hbetween. lra.
Defined.
End SliderCoverage.

(** * The layout of the editor *)

Module LayoutCoverage.
Import RealModel.
Local Open Scope R_scope.

Lemma scaled_nonneg (n : Z) (ratio : R) :
  (0 <= n)%Z -> 0 <= ratio -> (0 <= scaled n ratio)%Z.
Proof.
  intros Hn Hratio. unfold scaled. rewrite RealCoverage.truncZ_unfold.
  apply IZR_le in Hn.
  assert (Hx : 0 <= IZR n * ratio) by (apply Rmult_le_pos; assumption).
  change (of_Z n * ratio)%fl with (IZR n * ratio).
  destruct (Rlt_dec (IZR n * ratio) 0) as [Hneg|_]; [lra|].
  rewrite <- (RealCoverage.Int_part_IZR 0).
  now apply RealCoverage.Int_part_le.
Qed.

Lemma ratios_nonneg :
  0 <= (of_Z 32 / of_Z 100)%fl /\ 0 <= (of_Z 33 / of_Z 100)%fl
  /\ 0 <= (of_Z 5 / of_Z 10)%fl.
Proof.
  change (0 <= 32 / 100 /\ 0 <= 33 / 100 /\ 0 <= 5 / 10). lra.
Qed.

Ltac name_amounts :=
  repeat match goal with
         | |- context [scaled ?n ?ratio] =>
             lazymatch n with
             | context [scaled _ _] => fail
             | _ =>
                 let a := fresh "amount" in
                 let Ha := fresh "Hamount" in
                 assert (Ha : (0 <= scaled n ratio)%Z)
                   by (apply scaled_nonneg; [lia|apply ratios_nonneg]);
                 set (a := scaled n ratio) in *; clearbody a
             end
         end.

(** What the proofs need of a clamped amount: it is not negative and
    does not exceed the size it is clamped to. *)
Ltac name_clamps :=
  repeat match goal with
         | |- context [Z.min ?a ?b] =>
             lazymatch a with
             | context [Z.min _ _] => fail
             | _ =>
                 lazymatch b with
                 | context [Z.min _ _] => fail
                 | _ =>
                     let m := fresh "clamp" in
                     let Hm := fresh "Hclamp" in
                     assert (Hm : (0 <= Z.min a b <= b)%Z) by lia;
                     set (m := Z.min a b) in *; clearbody m
                 end
             end
         end.

Ltac layout_lia :=
  unfold inside, apart, getRight, getBottom;
  cbn [getX getY getWidth getHeight]; lia.

(** X22: [resized] lays the children of the editor out without overlap.
    For a window whose width and height are not negative, the response
    curve component, the three bypass buttons and the seven sliders get
    bounds of sizes that are not negative, inside the window, and no two
    of the twelve children share a pixel; the analyser button is 40 wide
    at abscissa 20 and at most 23 high, inside the window as soon as the
    window reaches from abscissa 20 to abscissa 60. *)
Theorem editor_children_do_not_overlap (localBounds : Rectangle Z) :
  (0 <= getWidth localBounds)%Z ->
  (0 <= getHeight localBounds)%Z ->
  let layout := editor_resized localBounds in
  let children :=
    [ responseCurveComponent layout;
      lowcutBypassButton layout; lowCutFreqSlider layout; lowCutSlopeSlider layout;
      peakBypassButton layout; peakFreqSlider layout; peakGainSlider layout;
      peakQualitySlider layout;
      highcutBypassButton layout; highCutFreqSlider layout;
      highCutSlopeSlider layout ] in
  Forall (fun r => (0 <= getWidth r)%Z /\ (0 <= getHeight r)%Z /\ inside r localBounds)
    children
  /\ ForallOrdPairs apart (analyserEnableButton layout :: children)
  /\ getWidth (analyserEnableButton layout) = 40%Z
  /\ getX (analyserEnableButton layout) = 20%Z
  /\ (0 <= getHeight (analyserEnableButton layout) <= 23)%Z
  /\ ((getX localBounds <= 20)%Z -> (60 <= getRight localBounds)%Z ->
      inside (analyserEnableButton layout) localBounds).
Proof.
  destruct localBounds as [x y w h]. cbn [getWidth getHeight]. intros Hw Hh.
  cbv beta zeta iota delta
    [editor_resized takenFromTop takenFromLeft takenFromRight removeFromTop
       removeFromLeft removeFromRight setWidth setX getX getY getWidth getHeight
       analyserEnableButton responseCurveComponent lowcutBypassButton
       lowCutFreqSlider lowCutSlopeSlider highcutBypassButton highCutFreqSlider
       highCutSlopeSlider peakBypassButton peakFreqSlider peakGainSlider
       peakQualitySlider].
  name_amounts.
  split; [|split; [|split; [reflexivity|split; [reflexivity|split]]]].
  - name_clamps. repeat (constructor; [layout_lia|]). constructor.
  - name_clamps.
    repeat (constructor; [repeat (constructor; [layout_lia|]); constructor|]).
    constructor.
  - lia.
  - intros Hleft Hright. unfold getRight in Hright.
    cbn [getX getWidth] in Hright. layout_lia.
Qed.

(** A run of X22: the window of 600 by 400 pixels the constructor asks
    for. *)
Lemma layout_run :
  let window := mkRectangle 0%Z 0%Z 600%Z 400%Z in
  getWidth (analyserEnableButton (editor_resized window)) = 40%Z
  /\ inside (analyserEnableButton (editor_resized window)) window.
Proof.
  intros window.
  destruct (editor_children_do_not_overlap window)
    as (_ & _ & Hwidth & _ & _ & Hinside);
    [change (0 <= 600)%Z; lia | change (0 <= 400)%Z; lia |].
  split; [exact Hwidth|].
  apply Hinside; [change (0 <= 20)%Z; lia | change (60 <= 0 + 600)%Z; lia].
Defined.
End LayoutCoverage.
